(** * SatStack: status aggregator, import coordinator and sync worker

    A shallow embedding of [httpd/svc/explorer.go] (status and network
    queries) and of the [bus] worker (initial block download wait, supply
    audit, descriptor import, rescan orchestration and progress watchdog).

    The Go code talks to a Bitcoin node through an RPC client and to a few
    helpers of the [bus] and [config] packages.  Every such call is an
    operation [Op] of a small free monad [Prog]; a handler answers the
    operations and threads a world state, and [run] returns the result
    together with the sequence of calls made and the answers received.
    Go's [float64] is Rocq's primitive binary64 [float]; [int32] and
    [int64] values are [Z]. *)

From Stdlib Require Import ZArith List String Ascii Bool Lia Floats.
Import ListNotations.
Open Scope string_scope.
Open Scope list_scope.
Open Scope Z_scope.

Set Implicit Arguments.

(** ** Errors *)

(** The sentinel error texts of package [bus]. *)
Inductive sentinel : Type :=
| ErrBitcoindUnreachable
| ErrInvalidDescriptor
| ErrDeriveAddress
| ErrAddressInfo.

(** An argument of [fmt.Errorf] other than the wrapped cause. *)
Inductive arg : Type :=
| ASentinel (e : sentinel)
| AStr (s : string)
| AInt (z : Z).

(** Go [error] values: an error handed back by a collaborator, or
    [fmt.Errorf(format, args..., cause)] with a final [%w]. *)
Inductive error : Type :=
| NodeError (msg : string)
| Errorf (format : string) (args : list arg) (cause : error).

(** A Go [(T, error)] pair of which only one side is used. *)
Inductive result (A : Type) : Type :=
| Ok (a : A)
| Err (e : error).
Arguments Err {A} e.

Definition is_err {A} (r : result A) : bool :=
  match r with Ok _ => false | Err _ => true end.

(** ** Data model *)

(** [bus.Status]; [StatusUnset] is the zero value a fresh
    [bus.ExplorerStatus] holds before a status is assigned. *)
Inductive Status : Type :=
| StatusUnset
| NodeDisconnected
| PendingScan
| Syncing
| Scanning
| Ready.

Record ExplorerStatus : Type := {
  Version : string;
  TxIndex : bool;
  Pruned : bool;
  Chain : string;
  Currency : string;
  Status_ : Status;
  SyncProgress : option float;   (* *float64 *)
  ScanProgress : option float    (* *float64 *)
}.

Definition set_Status (st : ExplorerStatus) (v : Status) : ExplorerStatus :=
  {| Version := Version st; TxIndex := TxIndex st; Pruned := Pruned st;
     Chain := Chain st; Currency := Currency st; Status_ := v;
     SyncProgress := SyncProgress st; ScanProgress := ScanProgress st |}.

Definition set_SyncProgress (st : ExplorerStatus) (v : option float) : ExplorerStatus :=
  {| Version := Version st; TxIndex := TxIndex st; Pruned := Pruned st;
     Chain := Chain st; Currency := Currency st; Status_ := Status_ st;
     SyncProgress := v; ScanProgress := ScanProgress st |}.

Definition set_ScanProgress (st : ExplorerStatus) (v : option float) : ExplorerStatus :=
  {| Version := Version st; TxIndex := TxIndex st; Pruned := Pruned st;
     Chain := Chain st; Currency := Currency st; Status_ := Status_ st;
     SyncProgress := SyncProgress st; ScanProgress := v |}.

(** [bus.Network]. *)
Record Network : Type := {
  RelayFee : float;
  IncrementalFee : float;
  NetVersion : Z;          (* int32 *)
  Subversion : string
}.

(** [new(bus.Network)]: every field at its zero value. *)
Definition new_Network : Network :=
  {| RelayFee := 0%float; IncrementalFee := 0%float; NetVersion := 0; Subversion := EmptyString |}.

(** The fields of [bus.Bus] the embedded code reads or writes. *)
Record Bus : Type := {
  BusTxIndex : bool;
  BusPruned : bool;
  BusChain : string;
  BusCurrency : string;
  IsPendingScan : bool
}.

Definition set_IsPendingScan (b : Bus) (v : bool) : Bus :=
  {| BusTxIndex := BusTxIndex b; BusPruned := BusPruned b; BusChain := BusChain b;
     BusCurrency := BusCurrency b; IsPendingScan := v |}.

(** The local [customBlockChainInfo] shapes of [GetStatus] and [waitForIBD]
    ([GetStatus] does not declare [BestBlockHash]; it is left empty
    there and never read). *)
Record customBlockChainInfo : Type := {
  Blocks : Z;                    (* int32 *)
  Headers : Z;                   (* int32 *)
  BestBlockHash : string;
  VerificationProgress : float;
  Warnings : list string
}.

(** The local [customNetworkInfo] shape of [GetNetwork]. *)
Record customNetworkInfo : Type := {
  niRelayFee : float;
  niIncrementalFee : float;
  niVersion : Z;
  niSubversion : string;
  niWarnings : list string
}.

(** [walletInfo.Scanning.Value]: a [btcjson.ScanProgress], a [bool], or nil. *)
Inductive ScanningValue : Type :=
| btcjson_ScanProgress (Duration : Z) (Progress : float)
| ScanBool (b : bool)
| ScanNil.

Record GetWalletInfoResult : Type := { ScanningValue_ : ScanningValue }.

Record GetTxOutSetInfoResult : Type := {
  Height : Z;           (* int64 *)
  TotalAmount : Z       (* btcutil.Amount, in satoshi *)
}.

Record GetAddressInfoResult : Type := { IsWatchOnly : bool }.

(** [config.Account]: pointers are options. *)
Record Account : Type := {
  External : string;
  Internal : string;
  Depth : option Z;
  Birthday : option Z       (* Unix seconds of the birthday *)
}.

(** The [descriptor] struct of package [bus]. *)
Record descriptor : Type := {
  Value : string;
  DescDepth : Z;
  Age : Z                   (* uint32 *)
}.

Record ConfigurationRescan : Type := { LastBlock : Z }.

(** The RPC clients in play: the two long-lived clients of the bus and the
    ones [ClientFactory] hands out. *)
Inductive Client : Type :=
| mainClient
| secondaryClient
| factoryClient (id : nat).

Inductive LogLevel : Type := LDebug | LInfo | LError.

(** ** Operations on the outside world *)

Inductive Op : Type :=
| ClientFactory
| Shutdown (c : Client)
| RawRequest (c : Client) (method : string)
| UnmarshalBlockChainInfo (raw : string)
| UnmarshalNetworkInfo (raw : string)
| GetWalletInfo (c : Client)
| GetTxOutSetInfo (c : Client)
| GetBlockCount (c : Client)
| GetCanonicalDescriptor (c : Client) (desc : string)
| DeriveAddress (c : Client) (value : string) (depth : Z)
| GetAddressInfo (c : Client) (address : string)
| ImportDescriptors (c : Client) (ds : list descriptor)
| NewAmount (f : float)
| LoadRescanConf
| checkWalletSyncStatus (b : Bus)
| AbortRescan
| rescanWallet (startHeight endHeight : Z)
| DumpLatestRescanTime
| Sleep (seconds : Z)
| SendInterrupt
| ImportDoneSend
| ImportDoneSelect
| ImportDoneClose
| Log (level : LogLevel) (msg : string) (err : option error)
| LogNumbers (height : Z) (expectedSupply : Z) (actualSupply : Z).

(** What each operation hands back.  [GetBlockCount] keeps both halves of
    its [(int64, error)] pair because the worker ignores the error.
    [checkWalletSyncStatus] is a method of [*Bus] and the worker reads
    [b.IsPendingScan] right after it: it receives the bus and answers with
    the bus as it leaves it, and its error.  [ImportDoneSelect] answers
    [true] when the select receives from [importDone] and [false] when it
    falls to [default].  [Log] carries the message and the ["err"] or
    ["error"] field when there is one; the other fields are left out. *)
Definition resp (o : Op) : Type :=
  match o with
  | ClientFactory => result Client
  | Shutdown _ => unit
  | RawRequest _ _ => result string
  | UnmarshalBlockChainInfo _ => result customBlockChainInfo
  | UnmarshalNetworkInfo _ => result customNetworkInfo
  | GetWalletInfo _ => result GetWalletInfoResult
  | GetTxOutSetInfo _ => result GetTxOutSetInfoResult
  | GetBlockCount _ => (Z * option error)%type
  | GetCanonicalDescriptor _ _ => result string
  | DeriveAddress _ _ _ => result string
  | GetAddressInfo _ _ => result GetAddressInfoResult
  | ImportDescriptors _ _ => option error
  | NewAmount _ => result Z
  | LoadRescanConf => result ConfigurationRescan
  | checkWalletSyncStatus _ => (Bus * option error)%type
  | AbortRescan => option error
  | rescanWallet _ _ => option error
  | DumpLatestRescanTime => option error
  | Sleep _ => unit
  | SendInterrupt => unit
  | ImportDoneSend => unit
  | ImportDoneSelect => bool
  | ImportDoneClose => unit
  | Log _ _ _ => unit
  | LogNumbers _ _ _ => unit
  end.

(** ** Programs, handlers and runs *)

Inductive Prog (A : Type) : Type :=
| Ret (a : A)
| Call (o : Op) (k : resp o -> Prog A).
Arguments Ret {A} a.
Arguments Call {A} o k.

Fixpoint bind {A B} (p : Prog A) (f : A -> Prog B) : Prog B :=
  match p with
  | Ret a => f a
  | Call o k => Call o (fun r => bind (k r) f)
  end.

Definition call (o : Op) : Prog (resp o) := Call o (fun r => Ret r).

Declare Scope prog_scope.
Delimit Scope prog_scope with prog.
Notation "x <- p ;; q" := (bind p (fun x => q))
  (at level 61, p at next level, right associativity) : prog_scope.
Notation "p ;;; q" := (bind p (fun _ => q))
  (at level 61, right associativity) : prog_scope.
Open Scope prog_scope.

(** One call made during a run, with the answer it got. *)
Inductive Event : Type :=
| Ev (o : Op) (r : resp o).

Definition Handler (W : Type) : Type := forall o : Op, W -> resp o * W.

Fixpoint run {W A} (h : Handler W) (p : Prog A) (w : W) : A * W * list Event :=
  match p with
  | Ret a => (a, w, [])
  | Call o k =>
      let '(r, w1) := h o w in
      let '(a, w2, tr) := run h (k r) w1 in
      (a, w2, Ev o r :: tr)
  end.

Definition result_of {W A} (x : A * W * list Event) : A := fst (fst x).
Definition trace_of {W A} (x : A * W * list Event) : list Event := snd x.

(** ** Status aggregator: [httpd/svc/explorer.go] *)

Record Service : Type := { Bus_ : Bus }.

Definition unreachable (err : error) : error :=
  Errorf "%s: %w" [ASentinel ErrBitcoindUnreachable] err.

(** [func (s *Service) GetStatus() *bus.ExplorerStatus].  The returned
    pointer is an option; [version_Version] is the constant
    [version.Version].  The deferred [client.Shutdown()] runs after the
    body, once a client exists. *)
Definition GetStatus (version_Version : string) (s : Service)
  : Prog (option ExplorerStatus) :=
  let status :=
    {| Version := version_Version;
       TxIndex := BusTxIndex (Bus_ s);
       Pruned := BusPruned (Bus_ s);
       Chain := BusChain (Bus_ s);
       Currency := BusCurrency (Bus_ s);
       Status_ := StatusUnset;
       SyncProgress := None;
       ScanProgress := None |} in
  (* Case 1 *)
  if IsPendingScan (Bus_ s) then
    Ret (Some (set_Status status PendingScan))
  else
    (* Case 2 *)
    c <- call ClientFactory ;;
    match c with
    | Err err =>
        call (Log LError "Failed to query status" (Some (unreachable err))) ;;;
        Ret (Some (set_Status status NodeDisconnected))
    | Ok client =>
        ret <-
          ((* Case 3 *)
           r <- call (RawRequest client "getblockchaininfo") ;;
           match r with
           | Err err =>
               call (Log LError "Failed to query status" (Some (unreachable err))) ;;;
               Ret (Some (set_Status status NodeDisconnected))
           | Ok result =>
               d <- call (UnmarshalBlockChainInfo result) ;;
               match d with
               | Err err =>
                   call (Log LError "Failed to query status"
                           (Some (Errorf "unable to parse blockchain info: %w" [] err))) ;;;
                   Ret (Some (set_Status status NodeDisconnected))
               | Ok blockChainInfo =>
                   (* Case 4 *)
                   if negb (Z.eqb (Blocks blockChainInfo) (Headers blockChainInfo)) then
                     Ret (Some (set_SyncProgress (set_Status status Syncing)
                                  (Some (VerificationProgress blockChainInfo * 100)%float)))
                   else
                     (* Case 5 *)
                     wi <- call (GetWalletInfo client) ;;
                     match wi with
                     | Err err =>
                         call (Log LError "Failed to query status"
                                 (Some (unreachable err))) ;;;
                         Ret (Some (set_Status status NodeDisconnected))
                     | Ok walletInfo =>
                         match ScanningValue_ walletInfo with
                         | btcjson_ScanProgress _ progress =>
                             Ret (Some (set_ScanProgress (set_Status status Scanning)
                                          (Some (progress * 100)%float)))
                         | _ =>
                             (* Case 6 *)
                             Ret (Some (set_Status status Ready))
                         end
                     end
               end
           end) ;;
        call (Shutdown client) ;;;
        Ret ret
    end.

(** [func (s *Service) GetNetwork() (network *bus.Network)].  No
    [Shutdown] is deferred here. *)
Definition GetNetwork (s : Service) : Prog (option Network) :=
  c <- call ClientFactory ;;
  match c with
  | Err err =>
      call (Log LError "Failed to query status" (Some (unreachable err))) ;;;
      Ret (Some new_Network)
  | Ok client =>
      r <- call (RawRequest client "getnetworkinfo") ;;
      match r with
      | Err err =>
          call (Log LError "Failed to query status" (Some (unreachable err))) ;;;
          Ret (Some new_Network)
      | Ok result =>
          d <- call (UnmarshalNetworkInfo result) ;;
          match d with
          | Err err =>
              call (Log LError "Failed to query status"
                      (Some (Errorf "unable to parse network info: %w" [] err))) ;;;
              Ret (Some new_Network)
          | Ok networkInfo =>
              Ret (Some {| RelayFee := niRelayFee networkInfo;
                           IncrementalFee := niIncrementalFee networkInfo;
                           NetVersion := niVersion networkInfo;
                           Subversion := niSubversion networkInfo |})
          end
      end
  end.

(** ** Package [bus]: helpers of the worker *)

(** Constants of packages [bus] and [config] whose declarations are not
    part of the embedded files: [defaultAccountDepth] and
    [config.BIP0039Genesis.Unix()]. *)
Class BusConstants : Type := {
  defaultAccountDepth : Z;
  BIP0039Genesis_Unix : Z
}.

(** Go's conversion of an [int64] to [uint32] keeps the low 32 bits. *)
Definition uint32 (z : Z) : Z := z mod 2 ^ 32.

(** Go's conversion of an [int64] to [float64]: the nearest binary64,
    ties to even. *)
Definition float64_of_int64 (z : Z) : float :=
  SF2Prim (binary_normalize 53 1024 z 0 false).

(** [func (b *Bus) GetBlockCount() (int64, error)]. *)
Definition Bus_GetBlockCount : Prog (Z * option error) :=
  call (GetBlockCount mainClient).

(** [func waitForIBD(b *Bus) error].  The [for] loop has no bound: [fuel]
    counts the polls the model may make, and [None] says the loop was still
    polling when the fuel ran out. *)
Fixpoint waitForIBD (fuel : nat) : Prog (option (option error)) :=
  match fuel with
  | O => Ret None
  | S fuel' =>
      Call (RawRequest mainClient "getblockchaininfo") (fun r =>
      match r with
      | Err err => Ret (Some (Some err))
      | Ok result =>
          Call (UnmarshalBlockChainInfo result) (fun d =>
          match d with
          | Err err =>
              Ret (Some (Some (Errorf "unable to parse blockchain info: %w" [] err)))
          | Ok info =>
              if negb (Z.eqb (Blocks info) (Headers info)) then
                Call (Log LInfo "Performing Initial Block Download" None) (fun _ =>
                Call (Sleep 7) (fun _ =>
                waitForIBD fuel'))
              else
                Call (Log LInfo "Initial Block Download complete" None) (fun _ =>
                Ret (Some None))
          end)
      end)
  end.

(** [func getImportProgress(b *Bus) error]. *)
Definition getImportProgress : Prog (option error) :=
  wi <- call (GetWalletInfo secondaryClient) ;;
  match wi with
  | Err err => Ret (Some err)
  | Ok walletInfo =>
      match ScanningValue_ walletInfo with
      | btcjson_ScanProgress _ _ =>
          call (Log LInfo "Importing descriptors" None) ;;; Ret None
      | ScanBool _ => Ret None
      | ScanNil => Ret None
      end
  end.

(** [strings.Split(s, "#")[0]]: the text before the first ['#']. *)
Fixpoint strip_checksum (s : string) : string :=
  match s with
  | EmptyString => EmptyString
  | String c rest =>
      if Ascii.eqb c "#"%char then EmptyString else String c (strip_checksum rest)
  end.

(** The [for _, desc := range rawDescs] loop of [descriptors]. *)
Fixpoint descriptors_loop (client : Client) (depth age : Z)
    (rawDescs : list string) (ret : list descriptor)
  : Prog (result (list descriptor)) :=
  match rawDescs with
  | [] => Ret (Ok ret)
  | desc :: rest =>
      Call (GetCanonicalDescriptor client desc) (fun c =>
      match c with
      | Err err => Ret (Err (Errorf "%s: %w" [ASentinel ErrInvalidDescriptor] err))
      | Ok canonicalDesc =>
          descriptors_loop client depth age rest
            (ret ++ [{| Value := canonicalDesc; DescDepth := depth; Age := age |}])
      end)
  end.

(** [func descriptors(client, account) ([]descriptor, error)]. *)
Definition descriptors `{BusConstants} (client : Client) (account : Account)
  : Prog (result (list descriptor)) :=
  let depth :=
    match Depth account with
    | None => defaultAccountDepth
    | Some d => d
    end in
  let age :=
    match Birthday account with
    | None => uint32 BIP0039Genesis_Unix
    | Some t => uint32 t
    end in
  let rawDescs :=
    [ strip_checksum (External account); strip_checksum (Internal account) ] in
  descriptors_loop client depth age rawDescs [].

(** The [for _, account := range accounts] loop of [ImportAccounts]. *)
Fixpoint resolve_loop `{BusConstants} (client : Client) (accounts : list Account)
    (allDescriptors : list descriptor) : Prog (result (list descriptor)) :=
  match accounts with
  | [] => Ret (Ok allDescriptors)
  | account :: rest =>
      bind (descriptors client account) (fun r =>
      match r with
      | Err err => Ret (Err err)
      | Ok accountDescriptors =>
          resolve_loop client rest (allDescriptors ++ accountDescriptors)
      end)
  end.

(** The [for _, descriptor := range allDescriptors] loop of
    [ImportAccounts]. *)
Fixpoint filter_loop (client : Client) (allDescriptors : list descriptor)
    (descriptorsToImport : list descriptor) : Prog (result (list descriptor)) :=
  match allDescriptors with
  | [] => Ret (Ok descriptorsToImport)
  | d :: rest =>
      Call (DeriveAddress client (Value d) (DescDepth d)) (fun a =>
      match a with
      | Err err =>
          Ret (Err (Errorf "%s (%s - #%d): %w"
                      [ASentinel ErrDeriveAddress; AStr (Value d); AInt (DescDepth d)] err))
      | Ok address =>
          Call (GetAddressInfo client address) (fun i =>
          match i with
          | Err err =>
              Ret (Err (Errorf "%s (%s): %w" [ASentinel ErrAddressInfo; AStr address] err))
          | Ok addressInfo =>
              if negb (IsWatchOnly addressInfo) then
                filter_loop client rest (descriptorsToImport ++ [d])
              else
                filter_loop client rest descriptorsToImport
          end)
      end)
  end.

(** [func (b *Bus) ImportAccounts(accounts []config.Account) error].  A Go
    slice is [None] when it is nil and [Some l] otherwise, [l] possibly
    empty; the returned error is [None] for nil. *)
Definition ImportAccounts `{BusConstants} (accounts : option (list Account))
  : Prog (option error) :=
  match accounts with
  | None => Ret None
  | Some accounts =>
      c <- call ClientFactory ;;
      match c with
      | Err err => Ret (Some err)
      | Ok client =>
          ret <-
            (all <- resolve_loop client accounts [] ;;
             match all with
             | Err err => Ret (Some err)
             | Ok allDescriptors =>
                 sel <- filter_loop client allDescriptors [] ;;
                 match sel with
                 | Err err => Ret (Some err)
                 | Ok descriptorsToImport =>
                     if Nat.eqb (List.length descriptorsToImport) 0 then
                       call (Log LInfo "No (new) descriptors to import" None) ;;;
                       Ret None
                     else
                       call (ImportDescriptors client descriptorsToImport)
                 end
             end) ;;
          call (Shutdown client) ;;;
          Ret ret
      end
  end.

(** [func getPreviousRescanBlock() (int64, error)]. *)
Definition getPreviousRescanBlock : Prog (Z * option error) :=
  r <- call LoadRescanConf ;;
  match r with
  | Err err => Ret (-1, Some err)
  | Ok configRescan => Ret (LastBlock configRescan, None)
  end.

(** *** The supply audit *)

Definition halvingBlocks : Z := 210000.

(** The [for ; i < info.Height/halvingBlocks; i++] loop of
    [runTheNumbers]; [/] on [int64] truncates toward zero.  The state is
    [(i, subsidy, supply)]. *)
Fixpoint halving_loop (fuel : nat) (height i : Z) (subsidy supply : float)
  : Z * float * float :=
  match fuel with
  | O => (i, subsidy, supply)
  | S fuel' =>
      if i <? Z.quot height halvingBlocks then
        halving_loop fuel' height (i + 1)
          (subsidy / 2)%float (supply + 210000 * subsidy)%float
      else (i, subsidy, supply)
  end.

(** The value of [supply] that [runTheNumbers] hands to
    [btcutil.NewAmount], for a tip height [height].  The loop runs
    [height / halvingBlocks] times, which is the fuel given. *)
Definition expectedSupply (height : Z) : float :=
  let '(i, subsidy, supply) :=
    halving_loop (Z.to_nat (Z.quot height halvingBlocks)) height 0 50%float 0%float in
  (supply + subsidy * float64_of_int64 (height - halvingBlocks * i))%float.

(** [func runTheNumbers(b *Bus) error]. *)
Definition runTheNumbers : Prog (option error) :=
  call (Log LInfo "Computing circulating supply..." None) ;;;
  r <- call (GetTxOutSetInfo mainClient) ;;
  match r with
  | Err err => Ret (Some err)
  | Ok info =>
      a <- call (NewAmount (expectedSupply (Height info))) ;;
      match a with
      | Err err => Ret (Some err)
      | Ok supplyBTC =>
          call (LogNumbers (Height info) supplyBTC (TotalAmount info)) ;;;
          Ret None
      end
  end.

(** ** The worker: [func (b *Bus) Worker(config, circulationCheck, forceImportDesc)] *)

Record Configuration : Type := { Accounts : option (list Account) }.

(** How the first goroutine of [Worker] ends: still polling in
    [waitForIBD] when the fuel ran out, returned after
    [sendInterruptSignal()], or ran to its last statement. *)
Inductive OrchestratorEnd : Type :=
| StillWaitingIBD
| Interrupted
| Completed.

(** The closure [sendInterruptSignal] followed by [return]. *)
Definition interrupt_and_return (b : Bus) : Prog (Bus * OrchestratorEnd) :=
  call SendInterrupt ;;; Ret (b, Interrupted).

(** The branch taken when
    [forceImportDesc || isNewWallet || startHeight == -1] holds.  [None]
    after the bus means the branch fell through to the statements after the
    [if]. *)
Definition importing_branch `{BusConstants} (config : Configuration)
    (forceImportDesc : bool) (b : Bus) : Prog (Bus * option OrchestratorEnd) :=
  pre <-
    (if forceImportDesc then
       cw <- call (checkWalletSyncStatus b) ;;
       let '(b1, err) := cw in
       match err with
       | Some e =>
           call (Log LError "failed to check wallet status" (Some e)) ;;;
           call SendInterrupt ;;; Ret (b1, false)
       | None =>
           if IsPendingScan b1 then
             ar <- call AbortRescan ;;
             match ar with
             | Some _ => call SendInterrupt ;;; Ret (b1, false)
             | None => Ret (b1, true)
             end
           else Ret (b1, true)
       end
     else Ret (b, true)) ;;
  let '(b1, go_on) := pre in
  if negb go_on then Ret (b1, Some Interrupted)
  else
    let b2 := set_IsPendingScan b1 true in
    ia <- ImportAccounts (Accounts config) ;;
    match ia with
    | Some e =>
        call (Log LError "Failed while importing descriptors" (Some e)) ;;;
        call SendInterrupt ;;; Ret (b2, Some Interrupted)
    | None => Ret (set_IsPendingScan b2 false, None)
    end.

(** The [else] branch: abort a running scan, then rescan from the
    checkpoint to the tip. *)
Definition resuming_branch (startHeight : Z) (b : Bus)
  : Prog (Bus * option OrchestratorEnd) :=
  cw <- call (checkWalletSyncStatus b) ;;
  let '(b1, err) := cw in
  match err with
  | Some e =>
      call (Log LError "failed to check wallet status" (Some e)) ;;;
      call SendInterrupt ;;; Ret (b1, Some Interrupted)
  | None =>
      (if IsPendingScan b1 then
         ar <- call AbortRescan ;;
         match ar with
         | Some e => call (Log LError "Failed to abort rescan" (Some e))
         | None => Ret tt
         end
       else Ret tt) ;;;
      bc <- Bus_GetBlockCount ;;
      let endHeight := fst bc in
      rs <- call (rescanWallet startHeight endHeight) ;;
      match rs with
      | Some e =>
          call (Log LError "Failed to rescan blocks" (Some e)) ;;;
          call SendInterrupt ;;; Ret (b1, Some Interrupted)
      | None => Ret (b1, None)
      end
  end.

(** The checkpoint read at the head of the deciding step:
    [startHeight, err := getPreviousRescanBlock()] and the debug log when
    [err] is not nil.  The value is [startHeight]. *)
Definition read_checkpoint : Prog Z :=
  prb <- getPreviousRescanBlock ;;
  let '(startHeight, err) := prb in
  (match err with
   | Some e => call (Log LDebug "No lss_rescan.json was found: %s" (Some e))
   | None => Ret tt
   end) ;;;
  Ret startHeight.

(** The statements from [getPreviousRescanBlock()] to the end of the first
    goroutine.  [isNewWallet] is a package variable of [bus]. *)
Definition decide_and_run `{BusConstants} (config : Configuration)
    (forceImportDesc isNewWallet : bool) (b : Bus) : Prog (Bus * OrchestratorEnd) :=
  startHeight <- read_checkpoint ;;
  br <-
    (if forceImportDesc || isNewWallet || (startHeight =? -1) then
       importing_branch config forceImportDesc b
     else
       resuming_branch startHeight b) ;;
  let '(b1, ended) := br in
  match ended with
  | Some e => Ret (b1, e)
  | None =>
      dl <- call DumpLatestRescanTime ;;
      (match dl with
       | Some e => call (Log LError "Failed to dump latest block into" (Some e))
       | None => Ret tt
       end) ;;;
      call ImportDoneSend ;;;
      Ret (b1, Completed)
  end.

(** The first goroutine of [Worker]. *)
Definition orchestrator `{BusConstants} (fuel : nat) (config : Configuration)
    (circulationCheck forceImportDesc isNewWallet : bool) (b : Bus)
  : Prog (Bus * OrchestratorEnd) :=
  ibd <- waitForIBD fuel ;;
  match ibd with
  | None => Ret (b, StillWaitingIBD)
  | Some (Some e) =>
      call (Log LError "Failed during Initial Block Download" (Some e)) ;;;
      interrupt_and_return b
  | Some None =>
      if circulationCheck then
        let b1 := set_IsPendingScan b true in
        rn <- runTheNumbers ;;
        match rn with
        | Some e =>
            call (Log LError "Failed while running the numbers" (Some e)) ;;;
            interrupt_and_return b1
        | None =>
            decide_and_run config forceImportDesc isNewWallet
              (set_IsPendingScan b1 false)
        end
      else
        decide_and_run config forceImportDesc isNewWallet b
  end.

(** The [for { select { ... } }] loop of the second goroutine; [None] says
    the loop was still running when the fuel ran out. *)
Fixpoint watchdog_loop (fuel : nat) : Prog (option unit) :=
  match fuel with
  | O => Ret None
  | S fuel' =>
      Call ImportDoneSelect (fun received =>
      if received : bool then Ret (Some tt)
      else
        Call (Sleep 7) (fun _ =>
        bind getImportProgress (fun err =>
        match err with
        | Some e =>
            Call (Log LError "Failed to query wallet state" (Some e)) (fun _ =>
            Call SendInterrupt (fun _ => Ret (Some tt)))
        | None => watchdog_loop fuel'
        end)))
  end.


(** ** Observations on runs *)

(** An event whose answer is the error of a call with a [(T, error)]
    result. *)
Definition ev_failed (e : Event) : bool :=
  match e with
  | Ev ClientFactory r => is_err r
  | Ev (RawRequest _ _) r => is_err r
  | Ev (UnmarshalBlockChainInfo _) r => is_err r
  | Ev (UnmarshalNetworkInfo _) r => is_err r
  | Ev (GetWalletInfo _) r => is_err r
  | Ev (GetTxOutSetInfo _) r => is_err r
  | Ev (GetCanonicalDescriptor _ _) r => is_err r
  | Ev (DeriveAddress _ _ _) r => is_err r
  | Ev (GetAddressInfo _ _) r => is_err r
  | Ev (NewAmount _) r => is_err r
  | Ev LoadRescanConf r => is_err r
  | _ => false
  end.

Definition ev_op (e : Event) : Op := match e with Ev o _ => o end.

Definition is_wallet_poll (o : Op) : bool :=
  match o with GetWalletInfo _ => true | _ => false end.

Definition is_done_send (o : Op) : bool :=
  match o with ImportDoneSend => true | _ => false end.

Definition is_interrupt (o : Op) : bool :=
  match o with SendInterrupt => true | _ => false end.

(** The calls only [ImportAccounts] makes. *)
Definition is_import_coordinator_op (o : Op) : bool :=
  match o with
  | ClientFactory | Shutdown _ | GetCanonicalDescriptor _ _
  | DeriveAddress _ _ _ | GetAddressInfo _ _ | ImportDescriptors _ _ => true
  | _ => false
  end.

(** The calls [ImportAccounts] makes, its log line included. *)
Definition is_import_op_or_log (o : Op) : bool :=
  match o with
  | Log _ _ _ => true
  | o' => is_import_coordinator_op o'
  end.

(** Whether an event is a [select] that received from [importDone]. *)
Definition received (e : Event) : bool :=
  match e with
  | Ev ImportDoneSelect r => r
  | _ => false
  end.


(** The ranges of the rescans requested in a trace, and the block counts
    the node answered. *)
Definition rescan_of (e : Event) : list (Z * Z) :=
  match e with
  | Ev (rescanWallet startHeight endHeight) _ => [(startHeight, endHeight)]
  | _ => []
  end.

Definition rescans (tr : list Event) : list (Z * Z) := flat_map rescan_of tr.

Definition tip_of (e : Event) : list Z :=
  match e with
  | Ev (GetBlockCount _) r => [fst r]
  | _ => []
  end.

Definition tips (tr : list Event) : list Z := flat_map tip_of tr.

(** Every event of a trace is a call of a given kind. *)
Definition ops_in (f : Op -> bool) (tr : list Event) : bool :=
  forallb (fun e => f (ev_op e)) tr.

(** How many events of a trace are calls of a given kind. *)
Definition count_ops (f : Op -> bool) (tr : list Event) : nat :=
  List.length (filter (fun e => f (ev_op e)) tr).


(** The chain snapshot an event decoded, if it is a successful decoding of
    blockchain info; likewise for network info. *)
Definition decoded_snapshot (e : Event) : option customBlockChainInfo :=
  match e with
  | Ev (UnmarshalBlockChainInfo _) r =>
      match r with Ok info => Some info | Err _ => None end
  | _ => None
  end.

Definition decoded_network (e : Event) : option customNetworkInfo :=
  match e with
  | Ev (UnmarshalNetworkInfo _) r =>
      match r with Ok info => Some info | Err _ => None end
  | _ => None
  end.

(** *** The halving schedule, in the words of the specification

    The subsidy starts at 50 and halves with every epoch of 210,000 blocks;
    the supply sums 210,000 subsidies per complete epoch and adds the
    subsidy of the running epoch for each block elapsed in it. *)

Fixpoint subsidy_of_epoch (k : nat) : float :=
  match k with
  | O => 50%float
  | S k' => (subsidy_of_epoch k' / 2)%float
  end.

Fixpoint supply_of_epochs (k : nat) : float :=
  match k with
  | O => 0%float
  | S k' => (supply_of_epochs k' + 210000 * subsidy_of_epoch k')%float
  end.

Definition schedule_supply (height : Z) : float :=
  let k := Z.to_nat (height / 210000) in
  (supply_of_epochs k
   + subsidy_of_epoch k * float64_of_int64 (height - 210000 * Z.of_nat k))%float.

(** The amount an event hands to [btcutil.NewAmount], and the
    [GetTxOutSetInfo] answer an event carries. *)
Definition amount_arg (e : Event) : option float :=
  match e with
  | Ev (NewAmount f) _ => Some f
  | _ => None
  end.

(** *** What a trace records of an import

    The bulk imports requested, the addresses derived, the watch-only
    answers received, and the failures of the three kinds of call
    [ImportAccounts] makes per descriptor. *)

Definition import_of (e : Event) : list (list descriptor) :=
  match e with
  | Ev (ImportDescriptors _ ds) _ => [ds]
  | _ => []
  end.

Definition imports (tr : list Event) : list (list descriptor) :=
  flat_map import_of tr.

Definition derivation_of (e : Event) : list (string * Z * string) :=
  match e with
  | Ev (DeriveAddress _ value depth) r =>
        match r with Ok address => [(value, depth, address)] | Err _ => [] end
  | _ => []
  end.

Definition derivations (tr : list Event) : list (string * Z * string) :=
  flat_map derivation_of tr.

Definition lookup_of (e : Event) : list (string * bool) :=
  match e with
  | Ev (GetAddressInfo _ address) r =>
        match r with
        | Ok info => [(address, IsWatchOnly info)]
        | Err _ => []
        end
  | _ => []
  end.

Definition lookups (tr : list Event) : list (string * bool) :=
  flat_map lookup_of tr.

Definition canonical_failure_of (e : Event) : list (string * error) :=
  match e with
  | Ev (GetCanonicalDescriptor _ desc) r =>
        match r with Ok _ => [] | Err cause => [(desc, cause)] end
  | _ => []
  end.

Definition canonical_failures (tr : list Event) : list (string * error) :=
  flat_map canonical_failure_of tr.

Definition derive_failure_of (e : Event) : list (string * Z * error) :=
  match e with
  | Ev (DeriveAddress _ value depth) r =>
        match r with Ok _ => [] | Err cause => [(value, depth, cause)] end
  | _ => []
  end.

Definition derive_failures (tr : list Event) : list (string * Z * error) :=
  flat_map derive_failure_of tr.

Definition lookup_failure_of (e : Event) : list (string * error) :=
  match e with
  | Ev (GetAddressInfo _ address) r =>
        match r with Ok _ => [] | Err cause => [(address, cause)] end
  | _ => []
  end.

Definition lookup_failures (tr : list Event) : list (string * error) :=
  flat_map lookup_failure_of tr.

(** During the run that left [tr], the node derived an address for the
    descriptor and reported that address as not watch-only. *)
Definition reported_unwatched (tr : list Event) (d : descriptor) : Prop :=
  exists address : string,
    In (Value d, DescDepth d, address) (derivations tr) /\
    In (address, false) (lookups tr).

(** Whether an error built by [fmt.Errorf] carries a descriptor's value and
    depth among its arguments. *)
Definition arg_eqb (x y : arg) : bool :=
  match x, y with
  | ASentinel ErrBitcoindUnreachable, ASentinel ErrBitcoindUnreachable => true
  | ASentinel ErrInvalidDescriptor, ASentinel ErrInvalidDescriptor => true
  | ASentinel ErrDeriveAddress, ASentinel ErrDeriveAddress => true
  | ASentinel ErrAddressInfo, ASentinel ErrAddressInfo => true
  | AStr s, AStr t => String.eqb s t
  | AInt a, AInt b => Z.eqb a b
  | _, _ => false
  end.

Definition wraps_value_and_depth (e : error) (value : string) (depth : Z) : bool :=
  match e with
  | NodeError _ => false
  | Errorf _ args _ =>
      existsb (arg_eqb (AStr value)) args && existsb (arg_eqb (AInt depth)) args
  end.

(** The ways a call [ImportAccounts(accounts)] with non-nil [accounts] can
    go, read off the trace [tr] it leaves and the error [r] it returns: no
    client; one failed canonicalisation, derivation or lookup; or every
    descriptor checked, with [sel] the descriptors left to import. *)
Inductive import_outcome (tr : list Event) (r : option error) : Prop :=
| io_no_client (err : error) :
    tr = [Ev ClientFactory (Err err)] ->
    r = Some err ->
    import_outcome tr r
| io_invalid_descriptor (desc : string) (cause : error) :
    canonical_failures tr = [(desc, cause)] ->
    derive_failures tr = [] ->
    lookup_failures tr = [] ->
    imports tr = [] ->
    existsb ev_failed tr = true ->
    r = Some (Errorf "%s: %w" [ASentinel ErrInvalidDescriptor] cause) ->
    import_outcome tr r
| io_derive_failed (value : string) (depth : Z) (cause : error) :
    canonical_failures tr = [] ->
    derive_failures tr = [(value, depth, cause)] ->
    lookup_failures tr = [] ->
    imports tr = [] ->
    existsb ev_failed tr = true ->
    r = Some (Errorf "%s (%s - #%d): %w"
                [ASentinel ErrDeriveAddress; AStr value; AInt depth] cause) ->
    import_outcome tr r
| io_lookup_failed (address : string) (cause : error) :
    canonical_failures tr = [] ->
    derive_failures tr = [] ->
    lookup_failures tr = [(address, cause)] ->
    imports tr = [] ->
    existsb ev_failed tr = true ->
    r = Some (Errorf "%s (%s): %w" [ASentinel ErrAddressInfo; AStr address] cause) ->
    import_outcome tr r
| io_checked (sel : list descriptor) :
    canonical_failures tr = [] ->
    derive_failures tr = [] ->
    lookup_failures tr = [] ->
    existsb ev_failed tr = false ->
    (forall d, In d sel -> reported_unwatched tr d) ->
    (sel = [] <-> forall a wo, In (a, wo) (lookups tr) -> wo = true) ->
    imports tr = match sel with [] => [] | _ :: _ => [sel] end ->
    (sel = [] -> r = None) ->
    import_outcome tr r.

(** ** The health query: [httpd/svc/explorer.go] *)

(** [func (s *Service) GetHealth() error].  Its local
    [customBlockChainInfo] declares [Warnings] only; the decoded value is
    not read. *)
Definition GetHealth (s : Service) : Prog (option error) :=
  c <- call ClientFactory ;;
  match c with
  | Err err => Ret (Some err)
  | Ok client =>
      ret <-
        (r <- call (RawRequest client "getblockchaininfo") ;;
         match r with
         | Err err => Ret (Some err)
         | Ok result =>
             d <- call (UnmarshalBlockChainInfo result) ;;
             match d with
             | Err err =>
                 Ret (Some (Errorf "unable to parse blockchain info: %w" [] err))
             | Ok info => Ret None
             end
         end) ;;
      call (Shutdown client) ;;;
      Ret ret
  end.

(** ** Further observations on runs *)

(** The failed calls of a trace, each with the error it came back with. *)
Definition failure_of (e : Event) : list (Op * error) :=
  match e with
  | Ev ClientFactory r =>
      match r with Ok _ => [] | Err err => [(ClientFactory, err)] end
  | Ev (RawRequest c m) r =>
      match r with Ok _ => [] | Err err => [(RawRequest c m, err)] end
  | Ev (UnmarshalBlockChainInfo raw) r =>
      match r with Ok _ => [] | Err err => [(UnmarshalBlockChainInfo raw, err)] end
  | Ev (UnmarshalNetworkInfo raw) r =>
      match r with Ok _ => [] | Err err => [(UnmarshalNetworkInfo raw, err)] end
  | Ev (GetWalletInfo c) r =>
      match r with Ok _ => [] | Err err => [(GetWalletInfo c, err)] end
  | Ev (GetTxOutSetInfo c) r =>
      match r with Ok _ => [] | Err err => [(GetTxOutSetInfo c, err)] end
  | Ev (NewAmount f) r =>
      match r with Ok _ => [] | Err err => [(NewAmount f, err)] end
  | _ => []
  end.

Definition failures (tr : list Event) : list (Op * error) := flat_map failure_of tr.

(** The clients [ClientFactory] handed out in a trace, and the clients
    shut down in it. *)
Definition client_of (e : Event) : list Client :=
  match e with
  | Ev ClientFactory r => match r with Ok client => [client] | Err _ => [] end
  | _ => []
  end.

Definition clients (tr : list Event) : list Client := flat_map client_of tr.

Definition shutdown_of (e : Event) : list Client :=
  match e with
  | Ev (Shutdown client) _ => [client]
  | _ => []
  end.

Definition shutdowns (tr : list Event) : list Client := flat_map shutdown_of tr.

(** The wallet infos and the chain snapshots a trace decoded. *)
Definition wallet_info_of (e : Event) : list GetWalletInfoResult :=
  match e with
  | Ev (GetWalletInfo _) r => match r with Ok wi => [wi] | Err _ => [] end
  | _ => []
  end.

Definition wallet_infos (tr : list Event) : list GetWalletInfoResult :=
  flat_map wallet_info_of tr.

Definition snapshot_of (e : Event) : list customBlockChainInfo :=
  match e with
  | Ev (UnmarshalBlockChainInfo _) r => match r with Ok info => [info] | Err _ => [] end
  | _ => []
  end.

Definition snapshots (tr : list Event) : list customBlockChainInfo :=
  flat_map snapshot_of tr.

Definition is_scan_progress (v : ScanningValue) : bool :=
  match v with btcjson_ScanProgress _ _ => true | _ => false end.

Definition scan_progress_of (v : ScanningValue) : option float :=
  match v with btcjson_ScanProgress _ progress => Some progress | _ => None end.

Definition in_sync (info : customBlockChainInfo) : bool :=
  Z.eqb (Blocks info) (Headers info).

Definition is_client_factory (o : Op) : bool :=
  match o with ClientFactory => true | _ => false end.

Definition is_raw_request (o : Op) : bool :=
  match o with RawRequest _ _ => true | _ => false end.

Definition is_sleep (o : Op) : bool :=
  match o with Sleep _ => true | _ => false end.

Definition is_checkpoint_dump (o : Op) : bool :=
  match o with DumpLatestRescanTime => true | _ => false end.


Definition is_select (o : Op) : bool :=
  match o with ImportDoneSelect => true | _ => false end.

Definition is_canonicalisation (o : Op) : bool :=
  match o with GetCanonicalDescriptor _ _ => true | _ => false end.

(** The three calls the loops of [ImportAccounts] make. *)
Definition is_descriptor_query (o : Op) : bool :=
  match o with
  | GetCanonicalDescriptor _ _ | DeriveAddress _ _ _ | GetAddressInfo _ _ => true
  | _ => false
  end.

(** The calls [waitForIBD] makes. *)
Definition is_ibd_op (o : Op) : bool :=
  match o with
  | RawRequest _ _ | UnmarshalBlockChainInfo _ | Log _ _ _ | Sleep _ => true
  | _ => false
  end.

(** The last event of a trace. *)
Definition last_event (tr : list Event) : option Event :=
  match rev tr with
  | [] => None
  | e :: _ => Some e
  end.

(** *** More of what a trace records of an import *)

(** The strings sent for canonicalisation, and the canonical forms that
    came back. *)
Definition canonical_request_of (e : Event) : list string :=
  match e with
  | Ev (GetCanonicalDescriptor _ desc) _ => [desc]
  | _ => []
  end.

Definition canonical_requests (tr : list Event) : list string :=
  flat_map canonical_request_of tr.

Definition canonical_answer_of (e : Event) : list string :=
  match e with
  | Ev (GetCanonicalDescriptor _ _) r =>
      match r with Ok canonical => [canonical] | Err _ => [] end
  | _ => []
  end.

Definition canonical_answers (tr : list Event) : list string :=
  flat_map canonical_answer_of tr.

(** The value and depth of every derivation requested. *)
Definition derive_request_of (e : Event) : list (string * Z) :=
  match e with
  | Ev (DeriveAddress _ value depth) _ => [(value, depth)]
  | _ => []
  end.

Definition derive_requests (tr : list Event) : list (string * Z) :=
  flat_map derive_request_of tr.

(** What the bulk imports of a trace came back with. *)
Definition import_answer_of (e : Event) : list (option error) :=
  match e with
  | Ev (ImportDescriptors _ _) r => [r]
  | _ => []
  end.

Definition import_answers (tr : list Event) : list (option error) :=
  flat_map import_answer_of tr.

(** The depth and age [descriptors] gives the descriptors of an account. *)
Definition depth_of `{BusConstants} (account : Account) : Z :=
  match Depth account with
  | None => defaultAccountDepth
  | Some d => d
  end.

Definition age_of `{BusConstants} (account : Account) : Z :=
  match Birthday account with
  | None => uint32 BIP0039Genesis_Unix
  | Some t => uint32 t
  end.

(** The descriptors of a list of accounts, given the canonical forms in
    the order they were obtained: two per account, the external one
    first. *)
Fixpoint resolved `{BusConstants} (accounts : list Account) (canonical : list string)
  : list descriptor :=
  match accounts, canonical with
  | account :: rest, external :: internal :: more =>
      {| Value := external; DescDepth := depth_of account; Age := age_of account |}
      :: {| Value := internal; DescDepth := depth_of account; Age := age_of account |}
      :: resolved rest more
  | _, _ => []
  end.

(** The strings [descriptors] sends for canonicalisation, over a list of
    accounts. *)
Definition raw_descriptors (accounts : list Account) : list string :=
  flat_map (fun account =>
              [strip_checksum (External account); strip_checksum (Internal account)])
           accounts.

(** The descriptors left after dropping the ones whose lookup, at the same
    position, answered watch-only. *)
Definition unwatched (all : list descriptor) (answers : list (string * bool))
  : list descriptor :=
  map fst (filter (fun p => negb (snd (snd p))) (combine all answers)).

(** *** More of what a trace records of the worker *)

(** The messages logged, the durations slept, the raw requests made and
    what the rescans came back with. *)
Definition logged_of (e : Event) : list string :=
  match e with
  | Ev (Log _ msg _) _ => [msg]
  | _ => []
  end.

Definition logged (tr : list Event) : list string := flat_map logged_of tr.

Definition sleep_of (e : Event) : list Z :=
  match e with
  | Ev (Sleep seconds) _ => [seconds]
  | _ => []
  end.

Definition sleeps (tr : list Event) : list Z := flat_map sleep_of tr.

Definition raw_request_of (e : Event) : list (Client * string) :=
  match e with
  | Ev (RawRequest c method) _ => [(c, method)]
  | _ => []
  end.

Definition raw_requests (tr : list Event) : list (Client * string) :=
  flat_map raw_request_of tr.

Definition rescan_answer_of (e : Event) : list (option error) :=
  match e with
  | Ev (rescanWallet _ _) r => [r]
  | _ => []
  end.

Definition rescan_answers (tr : list Event) : list (option error) :=
  flat_map rescan_answer_of tr.

(** The calls of the supply audit. *)
Definition is_audit_op (o : Op) : bool :=
  match o with
  | GetTxOutSetInfo _ | NewAmount _ | LogNumbers _ _ _ => true
  | _ => false
  end.

(** The calls the worker can make once the initial block download is
    over and the audit, if any, is done. *)
Definition is_decide_op (o : Op) : bool :=
  match o with
  | ClientFactory | Shutdown _ | GetCanonicalDescriptor _ _ | DeriveAddress _ _ _
  | GetAddressInfo _ _ | ImportDescriptors _ _ | Log _ _ _ | LoadRescanConf
  | checkWalletSyncStatus _ | AbortRescan | GetBlockCount _ | rescanWallet _ _
  | DumpLatestRescanTime | SendInterrupt | ImportDoneSend => true
  | _ => false
  end.


(** ** Pass-through queries: fee estimates and blocks

    [GetFees] of [httpd/svc/explorer.go] and [GetBlock] of package [bus]
    call the node through operations of their own, gathered in a
    second signature.  [Fee] is the type [EstimateSmartFee] returns and
    [Timestamp] the type [utils.ParseUnixTimestamp] returns; neither is
    declared in the embedded files. *)

From Stdlib Require Import DecimalString DecimalZ.

Module Ext.

(** The fields of [btcjson.GetBlockVerboseResult] that [GetBlock] reads. *)
Record GetBlockVerboseResult : Type := {
  NativeHash : string;
  NativeHeight : Z;
  NativeTime : Z;
  Tx : list string
}.

Section Signature.

Variable Fee : Type.
Variable Timestamp : Type.
Variable ParseUnixTimestamp : Z -> Timestamp.

(** [types.Block], as [GetBlock] fills it. *)
Record Block : Type := {
  Hash : string;
  BlockHeight : Z;
  Time : Timestamp;
  Transactions : option (list string)      (* *[]string *)
}.

Inductive XOp : Type :=
| EstimateSmartFee (target : Z) (mode : string)
| TimeNowUnix
| GetBlockVerbose (hash : string).

Definition xresp (o : XOp) : Type :=
  match o with
  | EstimateSmartFee _ _ => Fee
  | TimeNowUnix => Z
  | GetBlockVerbose _ => result GetBlockVerboseResult
  end.

Inductive XProg (A : Type) : Type :=
| XRet (a : A)
| XCall (o : XOp) (k : xresp o -> XProg A).
Arguments XRet {A} a.
Arguments XCall {A} o k.

Fixpoint xbind {A B} (p : XProg A) (f : A -> XProg B) : XProg B :=
  match p with
  | XRet a => f a
  | XCall o k => XCall o (fun r => xbind (k r) f)
  end.

Inductive XEvent : Type :=
| XEv (o : XOp) (r : xresp o).

Definition XHandler (W : Type) : Type := forall o : XOp, W -> xresp o * W.

Fixpoint xrun {W A} (h : XHandler W) (p : XProg A) (w : W) : A * W * list XEvent :=
  match p with
  | XRet a => (a, w, [])
  | XCall o k =>
      let '(r, w1) := h o w in
      let '(a, w2, tr) := xrun h (k r) w1 in
      (a, w2, XEv o r :: tr)
  end.

(** *** [GetFees] *)

(** The values [GetFees] stores in its [map[string]interface{}]: a fee, or
    the [int32] time stamp. *)
Inductive FeeEntry : Type :=
| FeeValue (fee : Fee)
| LastUpdated (t : Z).

(** A Go map with string keys: at most one entry per key; [map_set]
    overwrites. *)
Definition gomap : Type := list (string * FeeEntry).

Definition map_get (k : string) (m : gomap) : option FeeEntry :=
  match find (fun p => String.eqb (fst p) k) m with
  | Some p => Some (snd p)
  | None => None
  end.

Definition map_set (k : string) (v : FeeEntry) (m : gomap) : gomap :=
  (k, v) :: filter (fun p => negb (String.eqb (fst p) k)) m.

(** [strconv.FormatInt(z, 10)]. *)
Definition FormatInt (z : Z) : string := NilEmpty.string_of_int (Z.to_int z).

(** Go's conversion of an [int64] to [int32] keeps the low 32 bits, as a
    signed number. *)
Definition int32 (z : Z) : Z := (z + 2 ^ 31) mod 2 ^ 32 - 2 ^ 31.

(** The [for _, target := range targets] loop of [GetFees]. *)
Fixpoint GetFees_loop (targets : list Z) (mode : string) (result : gomap)
  : XProg gomap :=
  match targets with
  | [] => XRet result
  | target :: rest =>
      XCall (EstimateSmartFee target mode) (fun fee =>
      GetFees_loop rest mode (map_set (FormatInt target) (FeeValue fee) result))
  end.

(** [func (s *Service) GetFees(targets []int64, mode string)
    map[string]interface{}]. *)
Definition GetFees (targets : list Z) (mode : string) : XProg gomap :=
  xbind (GetFees_loop targets mode []) (fun result =>
  XCall TimeNowUnix (fun now =>
  XRet (map_set "last_updated" (LastUpdated (int32 now)) result))).

(** *** [GetBlock] of package [bus] *)

(** [s[idx] = v] on a slice: [None] is the panic of an index out of
    range. *)
Fixpoint slice_set (s : list string) (idx : nat) (v : string) : option (list string) :=
  match s, idx with
  | [], _ => None
  | _ :: rest, O => Some (v :: rest)
  | x :: rest, S idx' =>
      match slice_set rest idx' v with
      | Some rest' => Some (x :: rest')
      | None => None
      end
  end.

(** The [for idx, transaction := range nativeBlock.Tx] loop of
    [GetBlock], from index [idx] on. *)
Fixpoint copy_loop (idx : nat) (tx : list string) (transactions : list string)
  : option (list string) :=
  match tx with
  | [] => Some transactions
  | transaction :: rest =>
      match slice_set transactions idx transaction with
      | Some transactions' => copy_loop (S idx) rest transactions'
      | None => None
      end
  end.

(** What follows the call of [GetBlockVerbose] in [GetBlock], for a
    non-nil result; [None] is a panic. *)
Definition block_of (nativeBlock : GetBlockVerboseResult) : option Block :=
  let transactions := repeat EmptyString (List.length (Tx nativeBlock)) in
  match copy_loop 0 (Tx nativeBlock) transactions with
  | Some transactions' =>
      Some {| Hash := NativeHash nativeBlock;
              BlockHeight := NativeHeight nativeBlock;
              Time := ParseUnixTimestamp (NativeTime nativeBlock);
              Transactions := Some transactions' |}
  | None => None
  end.

(** [func (b *Bus) GetBlock(hash)], returning a [*types.Block] and an
    [error]; the outer
    [option] is [None] when the body panics. *)
Definition GetBlock (hash : string) : XProg (option (result Block)) :=
  XCall (GetBlockVerbose hash) (fun r =>
  match r with
  | Err err => XRet (Some (Err err))
  | Ok nativeBlock =>
      match block_of nativeBlock with
      | Some block => XRet (Some (Ok block))
      | None => XRet None
      end
  end).

(** What a trace records: the fee estimates asked and answered, the
    times read, and the operations in order. *)
Definition xev_op (e : XEvent) : XOp := match e with XEv o _ => o end.

Definition estimate_of (e : XEvent) : list (Z * string * Fee) :=
  match e with
  | XEv (EstimateSmartFee target mode) fee => [(target, mode, fee)]
  | _ => []
  end.

Definition estimates (tr : list XEvent) : list (Z * string * Fee) :=
  flat_map estimate_of tr.

Definition time_of (e : XEvent) : list Z :=
  match e with
  | XEv TimeNowUnix now => [now]
  | _ => []
  end.

Definition times (tr : list XEvent) : list Z := flat_map time_of tr.

End Signature.

Arguments XRet {Fee A} a.
Arguments XCall {Fee A} o k.

End Ext.

(** ** Concrete nodes and inputs, used to exercise the theorems *)

Definition healthy_network_info : customNetworkInfo :=
  {| niRelayFee := 0.5%float; niIncrementalFee := 0.25%float;
     niVersion := 250000; niSubversion := "/Satoshi:25.0.0/";
     niWarnings := [] |}.

(** A node that answers every call without error: in sync at height 0,
    wallet not scanning, nothing watched, no checkpoint file.  A
    descriptor is its own canonical form and its first address is its
    text after ["addr:"]. *)
Definition healthy_answer (o : Op) : resp o :=
  match o with
  | ClientFactory => Ok (factoryClient 0)
  | Shutdown _ => tt
  | RawRequest _ _ => Ok "{}"
  | UnmarshalBlockChainInfo _ =>
      Ok {| Blocks := 0; Headers := 0; BestBlockHash := "00";
            VerificationProgress := 1%float; Warnings := [] |}
  | UnmarshalNetworkInfo _ => Ok healthy_network_info
  | GetWalletInfo _ => Ok {| ScanningValue_ := ScanBool false |}
  | GetTxOutSetInfo _ => Ok {| Height := 420000; TotalAmount := 1575000000000000 |}
  | GetBlockCount _ => (0, None)
  | GetCanonicalDescriptor _ desc => Ok desc
  | DeriveAddress _ value _ => Ok (String.append "addr:" value)
  | GetAddressInfo _ _ => Ok {| IsWatchOnly := false |}
  | ImportDescriptors _ _ => None
  | NewAmount _ => Ok 0
  | LoadRescanConf => Err (NodeError "open lss_rescan.json: no such file")
  | checkWalletSyncStatus b => (b, None)
  | AbortRescan => None
  | rescanWallet _ _ => None
  | DumpLatestRescanTime => None
  | Sleep _ => tt
  | SendInterrupt => tt
  | ImportDoneSend => tt
  | ImportDoneSelect => false
  | ImportDoneClose => tt
  | Log _ _ _ => tt
  | LogNumbers _ _ _ => tt
  end.

Definition healthy_node : Handler unit := fun o w => (healthy_answer o, w).

(** A node in initial block download: 100 of 200 blocks, verification
    progress 0.37. *)
#[warnings="-inexact-float"]
Definition syncing_info : customBlockChainInfo :=
  {| Blocks := 100; Headers := 200; BestBlockHash := "00";
     VerificationProgress := 0.37%float; Warnings := [] |}.

Definition syncing_node : Handler unit := fun o w =>
  (match o as o' return resp o' with
   | UnmarshalBlockChainInfo _ => Ok syncing_info
   | o' => healthy_answer o'
   end, w).

(** No client can be built. *)
Definition unreachable_node : Handler unit := fun o w =>
  (match o as o' return resp o' with
   | ClientFactory => Err (NodeError "connection refused")
   | o' => healthy_answer o'
   end, w).

(** The node is there but every raw request fails. *)
Definition rpc_failing_node : Handler unit := fun o w =>
  (match o as o' return resp o' with
   | RawRequest _ _ => Err (NodeError "EOF")
   | o' => healthy_answer o'
   end, w).

(** Address lookups fail. *)
Definition lookup_failing_node : Handler unit := fun o w =>
  (match o as o' return resp o' with
   | GetAddressInfo _ _ => Err (NodeError "wallet not loaded")
   | o' => healthy_answer o'
   end, w).

(** A node with a wallet: the world is the list of watched addresses,
    [GetAddressInfo] reports an address watch-only when it is in the list,
    and a bulk import adds the first address of every imported
    descriptor. *)
Definition wallet_node : Handler (list string) := fun o w =>
  match o as o' return resp o' * list string with
  | GetAddressInfo _ address =>
      (Ok {| IsWatchOnly := existsb (String.eqb address) w |}, w)
  | ImportDescriptors _ ds =>
      (None, w ++ map (fun d => String.append "addr:" (Value d)) ds)
  | o' => (healthy_answer o', w)
  end.

(** A node with a checkpoint at height 700000 and tip 700123. *)
Definition checkpointed_node : Handler unit := fun o w =>
  (match o as o' return resp o' with
   | LoadRescanConf => Ok {| LastBlock := 700000 |}
   | GetBlockCount _ => (700123, None)
   | o' => healthy_answer o'
   end, w).

Definition example_bus : Bus :=
  {| BusTxIndex := true; BusPruned := false; BusChain := "main";
     BusCurrency := "btc"; IsPendingScan := false |}.

Definition example_service : Service := {| Bus_ := example_bus |}.

Definition pending_service : Service :=
  {| Bus_ := set_IsPendingScan example_bus true |}.

#[local] Instance example_constants : BusConstants :=
  {| defaultAccountDepth := 1000; BIP0039Genesis_Unix := 1378771200 |}.

Definition example_account : Account :=
  {| External := "wpkh(xpubA/0/*)#abcd1234"; Internal := "wpkh(xpubA/1/*)#efgh5678";
     Depth := None; Birthday := None |}.

Definition example_config : Configuration :=
  {| Accounts := Some [example_account] |}.


(** A node catching up: the world is the number of blocks still missing,
    one fewer after every sleep; 200 headers are known. *)
Definition catching_up_node : Handler nat := fun o w =>
  match o as o' return resp o' * nat with
  | UnmarshalBlockChainInfo _ =>
      (Ok {| Blocks := 200 - Z.of_nat w; Headers := 200; BestBlockHash := "00";
             VerificationProgress := 1%float; Warnings := [] |}, w)
  | Sleep _ => (tt, Nat.pred w)
  | o' => (healthy_answer o', w)
  end.


(** The transaction-output set cannot be read. *)
Definition audit_failing_node : Handler unit := fun o w =>
  (match o as o' return resp o' with
   | GetTxOutSetInfo _ => Err (NodeError "timeout")
   | o' => healthy_answer o'
   end, w).

(** A wallet that is scanning and whose scan cannot be aborted; a
    checkpoint exists. *)
Definition stuck_scan_node : Handler unit := fun o w =>
  (match o as o' return resp o' with
   | checkWalletSyncStatus b => (set_IsPendingScan b true, None)
   | AbortRescan => Some (NodeError "no scan to abort")
   | LoadRescanConf => Ok {| LastBlock := 700000 |}
   | GetBlockCount _ => (700123, None)
   | o' => healthy_answer o'
   end, w).


(** A fee estimator answering 1000 satoshi per block of the target, at
    time 1700000000; the world counts the calls. *)
Definition fee_node : Ext.XHandler Z nat := fun o w =>
  match o as o' return Ext.xresp Z o' * nat with
  | Ext.EstimateSmartFee target _ => (1000 * target, S w)
  | Ext.TimeNowUnix => (1700000000, S w)
  | Ext.GetBlockVerbose hash =>
      (Ok {| Ext.NativeHash := hash; Ext.NativeHeight := 700000;
             Ext.NativeTime := 1700000000; Ext.Tx := ["tx-a"; "tx-b"; "tx-c"] |}, S w)
  end.

(** ** Lemmas on [run] *)

Lemma run_bind {W A B} (h : Handler W) (p : Prog A) (f : A -> Prog B) (w : W) :
  run h (bind p f) w =
  let '(a, w1, t1) := run h p w in
  let '(b, w2, t2) := run h (f a) w1 in
  (b, w2, t1 ++ t2).
Proof.
  revert w; induction p as [a | o k IH]; intros w; simpl.
  - destruct (run h (f a) w) as [[b w2] t2]; reflexivity.
  - destruct (h o w) as [r w1].
    rewrite IH.
    destruct (run h (k r) w1) as [[a w2] t1].
    destruct (run h (f a) w2) as [[b w3] t2]; reflexivity.
Qed.

Lemma count_ops_app f t1 t2 :
  count_ops f (t1 ++ t2) = (count_ops f t1 + count_ops f t2)%nat.
Proof. unfold count_ops. rewrite filter_app, length_app. reflexivity. Qed.

Lemma count_ops_cons f e t :
  count_ops f (e :: t) = ((if f (ev_op e) then 1 else 0) + count_ops f t)%nat.
Proof. unfold count_ops; simpl. destruct (f (ev_op e)); reflexivity. Qed.

#[local] Arguments In {A} a l : simpl never.

(** Answer one more call of the program under [run], by cases on the
    handler's answer. *)
Ltac answer h :=
  match goal with
  | |- context [h ?o ?w] =>
      let r := fresh "r" in
      let w' := fresh "w" in
      let E := fresh "E" in
      destruct (h o w) as [r w'] eqn:E; simpl in r; simpl
  end.

(** Split a membership in an explicit list into its cases, dropping the
    ones that equate different constructors. *)
Ltac in_cases H :=
  simpl in H; cbv beta iota delta [In] in H;
  repeat match type of H with
         | _ \/ _ => destruct H as [H | H]; [try discriminate H |]
         | False => contradiction
         end;
  try discriminate H.

(** ** Status aggregator *)

(** C1.  When [s.Bus.IsPendingScan] is set, [GetStatus] returns the base
    status with [Status] [PendingScan] whatever the handler would answer:
    it makes no call at all (the trace is empty and the world untouched),
    so no node query can influence the result. *)
Theorem GetStatus_pending_scan :
  forall (W : Type) (h : Handler W) (w : W) (version_Version : string) (s : Service),
    IsPendingScan (Bus_ s) = true ->
    run h (GetStatus version_Version s) w =
      (Some {| Version := version_Version;
               TxIndex := BusTxIndex (Bus_ s);
               Pruned := BusPruned (Bus_ s);
               Chain := BusChain (Bus_ s);
               Currency := BusCurrency (Bus_ s);
               Status_ := PendingScan;
               SyncProgress := None;
               ScanProgress := None |}, w, []).
Proof.
  intros W h w v s Hp. unfold GetStatus. rewrite Hp. reflexivity.
Qed.

(** C3.  [GetStatus] returns a status value for every handler, that is for
    every combination of collaborator outcomes: a non-nil pointer whose
    [Status] has been assigned.  It has no error result.  Whenever a call
    it made came back with an error (client construction, the raw request,
    the JSON decoding, the wallet info), the status is
    [NodeDisconnected]. *)
Theorem GetStatus_total_and_degrades :
  forall (W : Type) (h : Handler W) (w : W) (version_Version : string) (s : Service),
    exists st : ExplorerStatus,
      result_of (run h (GetStatus version_Version s) w) = Some st /\
      Status_ st <> StatusUnset /\
      (existsb ev_failed (trace_of (run h (GetStatus version_Version s) w)) = true ->
       Status_ st = NodeDisconnected).
Proof.
  intros W h w v s. unfold GetStatus, result_of, trace_of.
  destruct (IsPendingScan (Bus_ s)); simpl.
  { eexists; split; [reflexivity | split; [discriminate | discriminate]]. }
  answer h. destruct r as [client | err]; simpl.
  2: { answer h. eexists; split; [reflexivity | split; [discriminate | reflexivity]]. }
  answer h. destruct r as [raw | err]; simpl.
  2: { do 2 answer h. eexists; split; [reflexivity | split; [discriminate | reflexivity]]. }
  answer h. destruct r as [info | err]; simpl.
  2: { do 2 answer h. eexists; split; [reflexivity | split; [discriminate | reflexivity]]. }
  destruct (Z.eqb (Blocks info) (Headers info)); simpl.
  2: { answer h. eexists; split; [reflexivity | split; [discriminate | discriminate]]. }
  answer h. destruct r as [wi | err]; simpl.
  2: { do 2 answer h. eexists; split; [reflexivity | split; [discriminate | reflexivity]]. }
  destruct (ScanningValue_ wi); simpl; answer h;
    (eexists; split; [reflexivity | split; [discriminate | discriminate]]).
Qed.

Lemma GetStatus_pending_scan_witness :
  IsPendingScan (Bus_ pending_service) = true /\
  run unreachable_node (GetStatus "1.0" pending_service) tt =
    (Some {| Version := "1.0"; TxIndex := true; Pruned := false; Chain := "main";
             Currency := "btc"; Status_ := PendingScan;
             SyncProgress := None; ScanProgress := None |}, tt, []).
Proof.
  split; [reflexivity |].
  apply (GetStatus_pending_scan unreachable_node tt "1.0" pending_service).
  reflexivity.
Defined.

Lemma GetStatus_total_and_degrades_witness :
  exists st : ExplorerStatus,
    result_of (run rpc_failing_node (GetStatus "1.0" example_service) tt) = Some st /\
    Status_ st = NodeDisconnected.
Proof.
  destruct (GetStatus_total_and_degrades rpc_failing_node tt "1.0" example_service)
    as [st [Hres [_ Hdeg]]].
  exists st. split; [exact Hres |].
  apply Hdeg. reflexivity.
Defined.

(** A chain snapshot decoded during a run of [GetStatus] with [blocks]
    different from [headers] makes the status [Syncing], with the
    snapshot's verification progress times 100 as sync progress. *)
Lemma GetStatus_snapshot_syncing :
  forall (W : Type) (h : Handler W) (w : W) (version_Version : string) (s : Service)
         (raw : string) (info : customBlockChainInfo),
    In (Ev (UnmarshalBlockChainInfo raw) (Ok info))
       (trace_of (run h (GetStatus version_Version s) w)) ->
    Blocks info <> Headers info ->
    exists st : ExplorerStatus,
      result_of (run h (GetStatus version_Version s) w) = Some st /\
      Status_ st = Syncing /\
      SyncProgress st = Some (VerificationProgress info * 100)%float /\
      ScanProgress st = None /\
      IsPendingScan (Bus_ s) = false.
Proof.
  intros W h w v s raw info Hin Hne.
  apply (in_map decoded_snapshot) in Hin. revert Hin.
  unfold GetStatus, result_of, trace_of.
  destruct (IsPendingScan (Bus_ s)); simpl; [contradiction |].
  answer h. destruct r as [client | err]; simpl.
  2: { answer h. intros Hin; in_cases Hin. }
  answer h. destruct r as [raw' | err]; simpl.
  2: { do 2 answer h. intros Hin; in_cases Hin. }
  answer h. destruct r as [info' | err]; simpl.
  2: { do 2 answer h. intros Hin; in_cases Hin. }
  destruct (Z.eqb_spec (Blocks info') (Headers info')) as [Heq | Hneq]; simpl.
  - answer h. destruct r as [wi | err]; simpl.
    + destruct (ScanningValue_ wi); simpl; answer h;
        intros Hin; in_cases Hin; inversion Hin; subst; contradiction.
    + do 2 answer h.
      intros Hin; in_cases Hin; inversion Hin; subst; contradiction.
  - answer h.
    intros Hin; in_cases Hin. inversion Hin; subst.
    eexists; repeat split; reflexivity.
Qed.

(** C4.  With the pending flag unset, a client built, the raw request
    answered and the answer decoded to a chain snapshot whose [blocks]
    differs from [headers], [GetStatus] returns [Syncing] with sync progress
    equal to the snapshot's verification progress times 100 (in [float64]
    arithmetic) and no scan progress; it shuts the client down and asks
    nothing else of the node. *)
Theorem GetStatus_syncing :
  forall (W : Type) (h : Handler W) (w w1 w2 w3 : W) (version_Version : string)
         (s : Service) (client : Client) (raw : string) (info : customBlockChainInfo),
    IsPendingScan (Bus_ s) = false ->
    h ClientFactory w = (Ok client, w1) ->
    h (RawRequest client "getblockchaininfo") w1 = (Ok raw, w2) ->
    h (UnmarshalBlockChainInfo raw) w2 = (Ok info, w3) ->
    Blocks info <> Headers info ->
    result_of (run h (GetStatus version_Version s) w) =
      Some {| Version := version_Version;
              TxIndex := BusTxIndex (Bus_ s);
              Pruned := BusPruned (Bus_ s);
              Chain := BusChain (Bus_ s);
              Currency := BusCurrency (Bus_ s);
              Status_ := Syncing;
              SyncProgress := Some (VerificationProgress info * 100)%float;
              ScanProgress := None |} /\
    map ev_op (trace_of (run h (GetStatus version_Version s) w)) =
      [ClientFactory; RawRequest client "getblockchaininfo";
       UnmarshalBlockChainInfo raw; Shutdown client].
Proof.
  intros W h w w1 w2 w3 v s client raw info Hp Hc Hr Hd Hne.
  unfold GetStatus, result_of, trace_of. rewrite Hp. simpl.
  rewrite Hc. simpl. rewrite Hr. simpl. rewrite Hd. simpl.
  destruct (Z.eqb_spec (Blocks info) (Headers info)) as [Heq | _]; [contradiction |].
  simpl. answer h. split; reflexivity.
Qed.

Lemma GetStatus_syncing_witness :
  Blocks syncing_info = 100 /\ Headers syncing_info = 200 /\
  exists st : ExplorerStatus,
    result_of (run syncing_node (GetStatus "1.0" example_service) tt) = Some st /\
    Status_ st = Syncing /\
    SyncProgress st = Some 37%float.
Proof.
  split; [reflexivity |]. split; [reflexivity |].
  eexists. split.
  - apply (@GetStatus_syncing unit syncing_node tt tt tt tt "1.0" example_service
             (factoryClient 0) "{}" syncing_info);
      try reflexivity.
    simpl. lia.
  - split; reflexivity.
Defined.

(** C10.  [GetNetwork] returns a non-nil network for every handler and has
    no error result.  When a call it made came back with an error (client
    construction, the raw request, the JSON decoding) every field is at its
    zero value; when the decoding succeeded the four fields are the decoded
    relay fee, incremental fee, version and subversion. *)
Theorem GetNetwork_never_nil :
  forall (W : Type) (h : Handler W) (w : W) (s : Service),
    exists n : Network,
      result_of (run h (GetNetwork s) w) = Some n /\
      (existsb ev_failed (trace_of (run h (GetNetwork s) w)) = true ->
       n = {| RelayFee := 0%float; IncrementalFee := 0%float;
              NetVersion := 0; Subversion := EmptyString |}) /\
      (forall raw info,
         In (Ev (UnmarshalNetworkInfo raw) (Ok info))
            (trace_of (run h (GetNetwork s) w)) ->
         n = {| RelayFee := niRelayFee info;
                IncrementalFee := niIncrementalFee info;
                NetVersion := niVersion info;
                Subversion := niSubversion info |}) /\
      (existsb ev_failed (trace_of (run h (GetNetwork s) w)) = false ->
       exists raw info,
         In (Ev (UnmarshalNetworkInfo raw) (Ok info))
            (trace_of (run h (GetNetwork s) w))).
Proof.
  intros W h w s. unfold GetNetwork, result_of, trace_of. simpl.
  answer h. destruct r as [client | err]; simpl.
  2: { answer h. eexists; split; [reflexivity |]. split; [reflexivity |].
       split; [| discriminate].
       intros raw info Hin. apply (in_map decoded_network) in Hin. in_cases Hin. }
  answer h. destruct r as [raw' | err]; simpl.
  2: { answer h. eexists; split; [reflexivity |]. split; [reflexivity |].
       split; [| discriminate].
       intros raw info Hin. apply (in_map decoded_network) in Hin. in_cases Hin. }
  answer h. destruct r as [info' | err]; simpl.
  2: { answer h. eexists; split; [reflexivity |]. split; [reflexivity |].
       split; [| discriminate].
       intros raw info Hin. apply (in_map decoded_network) in Hin. in_cases Hin. }
  eexists; split; [reflexivity |]. split; [discriminate |]. split.
  - intros raw info Hin. apply (in_map decoded_network) in Hin. in_cases Hin.
    inversion Hin; subst. reflexivity.
  - intros _. exists raw', info'. right; right; left. reflexivity.
Qed.

Lemma GetNetwork_never_nil_witness :
  result_of (run unreachable_node (GetNetwork example_service) tt) = Some new_Network /\
  result_of (run healthy_node (GetNetwork example_service) tt) =
    Some {| RelayFee := 0.5%float; IncrementalFee := 0.25%float;
            NetVersion := 250000; Subversion := "/Satoshi:25.0.0/" |}.
Proof.
  split.
  - destruct (GetNetwork_never_nil unreachable_node tt example_service)
      as [n [Hres [Hzero _]]].
    rewrite Hres, (Hzero eq_refl). reflexivity.
  - destruct (GetNetwork_never_nil healthy_node tt example_service)
      as [n [Hres [_ [Hok _]]]].
    rewrite Hres, (Hok "{}" healthy_network_info
                     (or_intror (or_intror (or_introl eq_refl)))).
    reflexivity.
Defined.

(** ** The supply audit *)

Lemma halving_loop_schedule (fuel : nat) :
  forall (k : nat) (height : Z),
    Z.of_nat k + Z.of_nat fuel = Z.quot height halvingBlocks ->
    halving_loop fuel height (Z.of_nat k) (subsidy_of_epoch k) (supply_of_epochs k) =
      (Z.quot height halvingBlocks,
       subsidy_of_epoch (k + fuel), supply_of_epochs (k + fuel)).
Proof.
  induction fuel as [| fuel IH]; intros k height Hq; simpl.
  - rewrite Nat.add_0_r. f_equal. f_equal. lia.
  - destruct (Z.ltb_spec (Z.of_nat k) (Z.quot height halvingBlocks)) as [Hlt | Hge];
      [| lia].
    replace (Z.of_nat k + 1) with (Z.of_nat (S k)) by lia.
    replace (k + S fuel)%nat with (S k + fuel)%nat by lia.
    apply (IH (S k) height). lia.
Qed.

Lemma expectedSupply_schedule (height : Z) :
  0 <= height -> expectedSupply height = schedule_supply height.
Proof.
  intros Hh. unfold expectedSupply, schedule_supply.
  assert (Hq : Z.quot height halvingBlocks = height / 210000).
  { unfold halvingBlocks. apply Z.quot_div_nonneg; lia. }
  assert (H0 : 0 <= height / 210000) by (apply Z.div_pos; lia).
  pose proof (halving_loop_schedule (Z.to_nat (Z.quot height halvingBlocks)) 0 height) as Hl.
  simpl Z.of_nat in Hl. simpl subsidy_of_epoch in Hl. simpl supply_of_epochs in Hl.
  rewrite Hl by (rewrite Hq; lia).
  rewrite Hq. rewrite Z2Nat.id by lia. reflexivity.
Qed.

(** The fuel [expectedSupply] gives never cuts the loop short: on exit the
    loop condition is false, for every height. *)
Lemma halving_loop_exits (fuel : nat) :
  forall (height i : Z) (subsidy supply : float),
    Z.quot height halvingBlocks <= i + Z.of_nat fuel ->
    (fst (fst (halving_loop fuel height i subsidy supply))
       <? Z.quot height halvingBlocks) = false.
Proof.
  induction fuel as [| fuel IH]; intros height i subsidy supply Hq; simpl.
  - apply Z.ltb_ge. lia.
  - destruct (Z.ltb_spec i (Z.quot height halvingBlocks)) as [Hlt | Hge].
    + apply IH. lia.
    + simpl. apply Z.ltb_ge. exact Hge.
Qed.

(** C2.  The supply [runTheNumbers] computes follows the halving schedule:
    for every tip height [height >= 0] it is the sum, over the complete
    epochs of 210,000 blocks, of 210,000 times the epoch's subsidy (50
    halved once per earlier epoch), plus the running epoch's subsidy times
    the blocks elapsed in it, in [float64] arithmetic.  It is 0 at height
    0, 10,500,000 at height 210,000 and 15,750,000 at height 420,000, and
    it is the value handed to [btcutil.NewAmount] for the height the node
    reported.  The loop always runs until its condition fails. *)
Theorem runTheNumbers_halving_schedule :
  (forall height : Z, 0 <= height -> expectedSupply height = schedule_supply height) /\
  (forall height : Z,
     (fst (fst (halving_loop (Z.to_nat (Z.quot height halvingBlocks)) height 0
                  50%float 0%float))
        <? Z.quot height halvingBlocks) = false) /\
  expectedSupply 0 = 0%float /\
  expectedSupply 210000 = 10500000%float /\
  expectedSupply 420000 = 15750000%float /\
  (forall (W : Type) (h : Handler W) (w : W) (f : float) (r : result Z),
     In (Ev (NewAmount f) r) (trace_of (run h runTheNumbers w)) ->
     exists info : GetTxOutSetInfoResult,
       In (Ev (GetTxOutSetInfo mainClient) (Ok info)) (trace_of (run h runTheNumbers w)) /\
       f = expectedSupply (Height info)).
Proof.
  split; [exact expectedSupply_schedule |].
  split; [intros height; apply halving_loop_exits; lia |].
  split; [vm_compute; reflexivity |].
  split; [vm_compute; reflexivity |].
  split; [vm_compute; reflexivity |].
  intros W h w f r Hin.
  apply (in_map amount_arg) in Hin. revert Hin.
  unfold runTheNumbers, trace_of. simpl.
  answer h. answer h. destruct r1 as [info | err]; simpl.
  2: { intros Hin; in_cases Hin. }
  answer h. destruct r1 as [amount | err]; simpl.
  - answer h. intros Hin; in_cases Hin. inversion Hin; subst.
    exists info. split; [| reflexivity].
    right; left; reflexivity.
  - intros Hin; in_cases Hin. inversion Hin; subst.
    exists info. split; [| reflexivity].
    right; left; reflexivity.
Qed.

Lemma runTheNumbers_halving_schedule_witness :
  0 <= 500000 /\
  expectedSupply 500000 = schedule_supply 500000 /\
  schedule_supply 500000 = 16750000%float /\
  exists info : GetTxOutSetInfoResult,
    In (Ev (GetTxOutSetInfo mainClient) (Ok info))
       (trace_of (run healthy_node runTheNumbers tt)) /\
    15750000%float = expectedSupply (Height info).
Proof.
  destruct runTheNumbers_halving_schedule as [Hsched [_ [_ [_ [_ Hcall]]]]].
  split; [lia |].
  split; [apply Hsched; lia |].
  split; [vm_compute; reflexivity |].
  apply (Hcall unit healthy_node tt 15750000%float (Ok 0)).
  vm_compute. right; right; left. reflexivity.
Defined.

(** ** Import coordinator *)

(** C6, the claim as stated fails.  With an empty but non-nil account
    list and a node for which no client can be built, [ImportAccounts]
    attempts the client construction and returns its error. *)
Lemma ImportAccounts_empty_list_counterexample :
  result_of (run unreachable_node (ImportAccounts (Some [])) tt)
    = Some (NodeError "connection refused") /\
  map ev_op (trace_of (run unreachable_node (ImportAccounts (Some [])) tt))
    = [ClientFactory].
Proof. split; reflexivity. Qed.

(** C6, amended.  With a nil account list [ImportAccounts] returns nil at
    once and makes no call of any kind.  With an empty non-nil list it
    first asks for a client: if that fails it returns the error, having
    made no other call; otherwise it makes no derivation, lookup or import
    request, logs, shuts the client down and returns nil. *)
Theorem ImportAccounts_no_accounts :
  forall (K : BusConstants) (W : Type) (h : Handler W) (w : W),
    run h (ImportAccounts None) w = (None, w, []) /\
    match fst (h ClientFactory w) with
    | Err err =>
        result_of (run h (ImportAccounts (Some [])) w) = Some err /\
        trace_of (run h (ImportAccounts (Some [])) w) = [Ev ClientFactory (Err err)]
    | Ok client =>
        result_of (run h (ImportAccounts (Some [])) w) = None /\
        map ev_op (trace_of (run h (ImportAccounts (Some [])) w)) =
          [ClientFactory; Log LInfo "No (new) descriptors to import" None;
           Shutdown client]
    end.
Proof.
  intros K W h w. split; [reflexivity |].
  unfold ImportAccounts, result_of, trace_of. simpl.
  answer h. destruct r as [client | err]; simpl.
  - do 2 answer h. split; reflexivity.
  - split; reflexivity.
Qed.

Lemma reported_unwatched_later (e : Event) (tr : list Event) (d : descriptor) :
  reported_unwatched tr d -> reported_unwatched (e :: tr) d.
Proof.
  intros [a [Hd Hl]]. exists a. split.
  - unfold derivations in *. simpl. apply in_or_app. right. exact Hd.
  - unfold lookups in *. simpl. apply in_or_app. right. exact Hl.
Qed.

Lemma reported_unwatched_app (t1 t2 : list Event) (d : descriptor) :
  reported_unwatched t2 d -> reported_unwatched (t1 ++ t2) d.
Proof.
  induction t1 as [| e t1 IH]; intros H; [exact H |].
  simpl. apply reported_unwatched_later. apply IH. exact H.
Qed.

(** What a run of the canonicalisation loop leaves in its trace. *)
Lemma descriptors_loop_run {W} (h : Handler W) (client : Client) (depth age : Z) :
  forall (rawDescs : list string) (ret : list descriptor) (w : W),
    let x := run h (descriptors_loop client depth age rawDescs ret) w in
    imports (trace_of x) = [] /\
    derivations (trace_of x) = [] /\
    lookups (trace_of x) = [] /\
    derive_failures (trace_of x) = [] /\
    lookup_failures (trace_of x) = [] /\
    match result_of x with
    | Ok _ =>
        canonical_failures (trace_of x) = [] /\
        existsb ev_failed (trace_of x) = false
    | Err e =>
        existsb ev_failed (trace_of x) = true /\
        exists desc cause,
          canonical_failures (trace_of x) = [(desc, cause)] /\
          e = Errorf "%s: %w" [ASentinel ErrInvalidDescriptor] cause
    end.
Proof.
  induction rawDescs as [| desc rest IH]; intros ret w; simpl.
  - repeat split; reflexivity.
  - answer h. destruct r as [canonicalDesc | err]; simpl.
    + specialize (IH (ret ++ [{| Value := canonicalDesc; DescDepth := depth; Age := age |}]) w0).
      simpl in IH.
      destruct (run h (descriptors_loop client depth age rest _) w0) as [[r w1] tr].
      unfold trace_of, result_of in *; simpl in *.
      exact IH.
    + unfold trace_of, result_of; simpl.
      repeat split; try reflexivity.
      exists desc, err. split; reflexivity.
Qed.

Lemma imports_app t1 t2 : imports (t1 ++ t2) = imports t1 ++ imports t2.
Proof. apply flat_map_app. Qed.
Lemma derivations_app t1 t2 : derivations (t1 ++ t2) = derivations t1 ++ derivations t2.
Proof. apply flat_map_app. Qed.
Lemma lookups_app t1 t2 : lookups (t1 ++ t2) = lookups t1 ++ lookups t2.
Proof. apply flat_map_app. Qed.
Lemma canonical_failures_app t1 t2 :
  canonical_failures (t1 ++ t2) = canonical_failures t1 ++ canonical_failures t2.
Proof. apply flat_map_app. Qed.
Lemma derive_failures_app t1 t2 :
  derive_failures (t1 ++ t2) = derive_failures t1 ++ derive_failures t2.
Proof. apply flat_map_app. Qed.
Lemma lookup_failures_app t1 t2 :
  lookup_failures (t1 ++ t2) = lookup_failures t1 ++ lookup_failures t2.
Proof. apply flat_map_app. Qed.

Create Rewrite HintDb trace.
#[local] Hint Rewrite imports_app derivations_app lookups_app canonical_failures_app
  derive_failures_app lookup_failures_app existsb_app app_nil_r : trace.

(** The account loop only canonicalises: same trace facts as one call of
    [descriptors]. *)
Lemma resolve_loop_run {K : BusConstants} {W} (h : Handler W) (client : Client) :
  forall (accounts : list Account) (allDescriptors : list descriptor) (w : W),
    let x := run h (resolve_loop client accounts allDescriptors) w in
    imports (trace_of x) = [] /\
    derivations (trace_of x) = [] /\
    lookups (trace_of x) = [] /\
    derive_failures (trace_of x) = [] /\
    lookup_failures (trace_of x) = [] /\
    match result_of x with
    | Ok _ =>
        canonical_failures (trace_of x) = [] /\
        existsb ev_failed (trace_of x) = false
    | Err e =>
        existsb ev_failed (trace_of x) = true /\
        exists desc cause,
          canonical_failures (trace_of x) = [(desc, cause)] /\
          e = Errorf "%s: %w" [ASentinel ErrInvalidDescriptor] cause
    end.
Proof.
  induction accounts as [| account rest IH]; intros allDescriptors w.
  - simpl. repeat split; reflexivity.
  - cbn [resolve_loop]. cbv zeta. rewrite run_bind.
    unfold descriptors.
    match goal with
    | |- context [run h (descriptors_loop ?c ?d ?a ?raws ?acc) w] =>
        pose proof (descriptors_loop_run h c d a raws acc w) as Hd;
        destruct (run h (descriptors_loop c d a raws acc) w) as [[r w1] t1]
    end.
    unfold trace_of, result_of in Hd; simpl in Hd.
    destruct Hd as (Hi & Hde & Hl & Hdf & Hlf & Hr).
    destruct r as [accountDescriptors | err].
    + specialize (IH (allDescriptors ++ accountDescriptors) w1). cbv zeta in IH.
      destruct (run h (resolve_loop client rest _) w1) as [[r2 w2] t2].
      unfold trace_of, result_of in *; simpl in *.
      destruct Hr as [Hcf Hef].
      destruct IH as (Hi2 & Hde2 & Hl2 & Hdf2 & Hlf2 & Hr2).
      autorewrite with trace.
      rewrite Hi, Hde, Hl, Hdf, Hlf, Hcf, Hef, Hi2, Hde2, Hl2, Hdf2, Hlf2. simpl.
      repeat split; try reflexivity. exact Hr2.
    + unfold trace_of, result_of; simpl.
      autorewrite with trace.
      rewrite Hi, Hde, Hl, Hdf, Hlf.
      repeat split; try reflexivity.
      * destruct Hr as [Hef _]. exact Hef.
      * destruct Hr as [_ Hex]. exact Hex.
Qed.

(** What a run of the filtering loop leaves in its trace: on success the
    descriptors appended are exactly the ones whose address the node
    reported as not watch-only; on failure the one failing call and the
    error built from it. *)
Lemma filter_loop_run {W} (h : Handler W) (client : Client) :
  forall (allDescriptors descriptorsToImport : list descriptor) (w : W),
    let x := run h (filter_loop client allDescriptors descriptorsToImport) w in
    imports (trace_of x) = [] /\
    canonical_failures (trace_of x) = [] /\
    match result_of x with
    | Ok sel =>
        derive_failures (trace_of x) = [] /\
        lookup_failures (trace_of x) = [] /\
        existsb ev_failed (trace_of x) = false /\
        exists kept,
          sel = descriptorsToImport ++ kept /\
          (forall d, In d kept -> reported_unwatched (trace_of x) d) /\
          (kept = [] <-> forall a wo, In (a, wo) (lookups (trace_of x)) -> wo = true)
    | Err e =>
        existsb ev_failed (trace_of x) = true /\
        ((exists value depth cause,
            derive_failures (trace_of x) = [(value, depth, cause)] /\
            lookup_failures (trace_of x) = [] /\
            e = Errorf "%s (%s - #%d): %w"
                  [ASentinel ErrDeriveAddress; AStr value; AInt depth] cause) \/
         (exists address cause,
            lookup_failures (trace_of x) = [(address, cause)] /\
            derive_failures (trace_of x) = [] /\
            e = Errorf "%s (%s): %w" [ASentinel ErrAddressInfo; AStr address] cause))
    end.
Proof.
  induction allDescriptors as [| d rest IH]; intros acc w; simpl.
  - unfold trace_of, result_of; simpl.
    repeat split; try reflexivity.
    exists []. rewrite app_nil_r.
    split; [reflexivity |]. split; [intros d [] |].
    split; [intros _ a wo [] | reflexivity].
  - answer h. destruct r as [address | err]; simpl.
    2: { unfold trace_of, result_of; simpl. repeat split; try reflexivity.
         left. exists (Value d), (DescDepth d), err. repeat split; reflexivity. }
    answer h. destruct r as [addressInfo | err]; simpl.
    2: { unfold trace_of, result_of; simpl. repeat split; try reflexivity.
         right. exists address, err. repeat split; reflexivity. }
    destruct addressInfo as [watched]; simpl.
    destruct watched; simpl.
    + (* already watched: skipped *)
      specialize (IH acc w1). cbv zeta in IH.
      destruct (run h (filter_loop client rest acc) w1) as [[r2 w2] t2].
      unfold trace_of, result_of in *; simpl in *.
      destruct IH as (Hi & Hcf & Hr). split; [exact Hi |]. split; [exact Hcf |].
      destruct r2 as [sel | e]; [| exact Hr].
      destruct Hr as (Hdf & Hlf & Hef & kept & Hsel & Hkept & Hiff).
      repeat split; try assumption.
      exists kept. split; [exact Hsel |]. split.
      * intros d' Hd'. do 2 apply reported_unwatched_later. apply Hkept; exact Hd'.
      * split.
        -- intros Hk a wo [Heq | Hin]; [inversion Heq; reflexivity |].
           apply (proj1 Hiff Hk a wo Hin).
        -- intros Hall. apply (proj2 Hiff). intros a wo Hin.
           apply (Hall a wo). right; exact Hin.
    + (* not watched: kept *)
      specialize (IH (acc ++ [d]) w1). cbv zeta in IH.
      destruct (run h (filter_loop client rest (acc ++ [d])) w1) as [[r2 w2] t2].
      unfold trace_of, result_of in *; simpl in *.
      destruct IH as (Hi & Hcf & Hr). split; [exact Hi |]. split; [exact Hcf |].
      destruct r2 as [sel | e]; [| exact Hr].
      destruct Hr as (Hdf & Hlf & Hef & kept & Hsel & Hkept & Hiff).
      repeat split; try assumption.
      exists (d :: kept). split; [rewrite Hsel, <- app_assoc; reflexivity |]. split.
      * intros d' [Heq | Hd'].
        -- subst d'. exists address. split; left; reflexivity.
        -- do 2 apply reported_unwatched_later. apply Hkept; exact Hd'.
      * split; [discriminate |].
        intros Hall. specialize (Hall address false (or_introl eq_refl)). discriminate.
Qed.

(** Bring the observations of a trace built from [::] and [++] down to the
    observations of its parts. *)
Ltac trace_simpl :=
  unfold imports, derivations, lookups, canonical_failures, derive_failures,
    lookup_failures in *;
  simpl; rewrite ?flat_map_app, ?existsb_app; simpl.

(** Every run of [ImportAccounts] on a non-nil list goes one of the five
    ways of [import_outcome]. *)
Lemma ImportAccounts_run {K : BusConstants} {W} (h : Handler W) (w : W)
    (accounts : list Account) :
  import_outcome (trace_of (run h (ImportAccounts (Some accounts)) w))
                 (result_of (run h (ImportAccounts (Some accounts)) w)).
Proof.
  unfold ImportAccounts. simpl.
  answer h. destruct r as [client | err]; simpl.
  2: { eapply io_no_client; reflexivity. }
  rewrite !run_bind.
  pose proof (resolve_loop_run h client accounts [] w0) as Hres. cbv zeta in Hres.
  destruct (run h (resolve_loop client accounts []) w0) as [[all w1] t1].
  unfold trace_of, result_of in Hres; simpl in Hres.
  destruct Hres as (Hi1 & Hde1 & Hl1 & Hdf1 & Hlf1 & Hr1).
  destruct all as [allDescriptors | err].
  2: { simpl. answer h. unfold trace_of, result_of; simpl.
       destruct Hr1 as [Hef (desc & cause & Hcf & He)].
       apply io_invalid_descriptor with (desc := desc) (cause := cause);
         trace_simpl;
         rewrite ?Hi1, ?Hde1, ?Hl1, ?Hdf1, ?Hlf1, ?Hcf, ?Hef; subst; reflexivity. }
  destruct Hr1 as [Hcf1 Hef1].
  rewrite run_bind.
  pose proof (filter_loop_run h client allDescriptors [] w1) as Hfil. cbv zeta in Hfil.
  destruct (run h (filter_loop client allDescriptors []) w1) as [[sel w2] t2].
  unfold trace_of, result_of in Hfil; simpl in Hfil.
  destruct Hfil as (Hi2 & Hcf2 & Hr2).
  destruct sel as [descriptorsToImport | err].
  2: { simpl. answer h. unfold trace_of, result_of; simpl.
       destruct Hr2 as [Hef2 [(value & depth & cause & Hdf2 & Hlf2 & He) |
                              (address & cause & Hlf2 & Hdf2 & He)]].
       - apply io_derive_failed with (value := value) (depth := depth) (cause := cause);
           trace_simpl;
           rewrite ?Hi1, ?Hde1, ?Hl1, ?Hdf1, ?Hlf1, ?Hcf1, ?Hef1, ?Hi2, ?Hcf2,
             ?Hdf2, ?Hlf2, ?Hef2; subst; reflexivity.
       - apply io_lookup_failed with (address := address) (cause := cause);
           trace_simpl;
           rewrite ?Hi1, ?Hde1, ?Hl1, ?Hdf1, ?Hlf1, ?Hcf1, ?Hef1, ?Hi2, ?Hcf2,
             ?Hdf2, ?Hlf2, ?Hef2; subst; reflexivity. }
  destruct Hr2 as (Hdf2 & Hlf2 & Hef2 & kept & Hsel & Hkept & Hiff).
  simpl in Hsel. subst descriptorsToImport.
  assert (Hrep : forall tl d, In d kept ->
            reported_unwatched (Ev ClientFactory (Ok client) :: (t1 ++ t2 ++ tl)) d).
  { intros tl d Hd. apply reported_unwatched_later, reported_unwatched_app.
    destruct (Hkept d Hd) as [a [Ha Hb]]. exists a.
    rewrite derivations_app, lookups_app. split; apply in_or_app; left; assumption. }
  assert (Hlk : forall tl, lookups tl = [] ->
            ((kept = [] <-> forall a wo,
                In (a, wo) (lookups (Ev ClientFactory (Ok client) :: (t1 ++ t2 ++ tl))) ->
                wo = true))).
  { intros tl Htl. simpl. rewrite !lookups_app, Hl1, Htl, app_nil_r. simpl. exact Hiff. }
  destruct kept as [| d kept]; simpl.
  - do 2 answer h. unfold trace_of, result_of; simpl.
    apply io_checked with (sel := []);
      try (trace_simpl;
           rewrite ?Hi1, ?Hde1, ?Hl1, ?Hdf1, ?Hlf1, ?Hcf1, ?Hef1, ?Hi2, ?Hcf2,
             ?Hdf2, ?Hlf2, ?Hef2; reflexivity).
    + intros d [].
    + rewrite <- !app_assoc. apply Hlk. reflexivity.
  - do 2 answer h. unfold trace_of, result_of; simpl.
    apply io_checked with (sel := d :: kept);
      try (trace_simpl;
           rewrite ?Hi1, ?Hde1, ?Hl1, ?Hdf1, ?Hlf1, ?Hcf1, ?Hef1, ?Hi2, ?Hcf2,
             ?Hdf2, ?Hlf2, ?Hef2; reflexivity).
    + intros d' Hd'. rewrite <- !app_assoc. apply Hrep. exact Hd'.
    + rewrite <- !app_assoc. apply Hlk. reflexivity.
    + discriminate.
Qed.

(** C5.  Import is idempotent.  In every run of [ImportAccounts]: each
    descriptor handed to the bulk import is one whose derived address the
    node reported as not watch-only in that run, so a descriptor reported
    watch-only is left out; the bulk import is requested at most once; when
    every address looked up was reported watch-only (the situation of a
    second run over an unchanged account set) no bulk import is requested
    and, no call having failed, the result is nil; and when no call failed
    and some address was reported not watch-only the bulk import is
    requested exactly once. *)
Theorem ImportAccounts_idempotent :
  forall (K : BusConstants) (W : Type) (h : Handler W) (w : W)
         (accounts : option (list Account)),
    let tr := trace_of (run h (ImportAccounts accounts) w) in
    let r := result_of (run h (ImportAccounts accounts) w) in
    (forall ds d, In ds (imports tr) -> In d ds -> reported_unwatched tr d) /\
    (List.length (imports tr) <= 1)%nat /\
    ((forall a wo, In (a, wo) (lookups tr) -> wo = true) ->
     imports tr = [] /\ (existsb ev_failed tr = false -> r = None)) /\
    (existsb ev_failed tr = false ->
     (exists a, In (a, false) (lookups tr)) ->
     List.length (imports tr) = 1%nat).
Proof.
  intros K W h w [accounts |]; cbv zeta.
  2: { unfold trace_of, result_of; simpl.
       split; [intros ds d [] |]. split; [lia |].
       split; [intros _; split; reflexivity |].
       intros _ [a []]. }
  destruct (ImportAccounts_run h w accounts)
    as [err Htr Hr
       | desc cause Hcf Hdf Hlf Hi Hef Hr
       | value depth cause Hcf Hdf Hlf Hi Hef Hr
       | address cause Hcf Hdf Hlf Hi Hef Hr
       | sel Hcf Hdf Hlf Hef Hrep Hiff Hi Hr].
  - rewrite Htr. simpl.
    split; [intros ds d [] |]. split; [lia |].
    split; [intros _; split; [reflexivity | discriminate] |].
    intros _ [a []].
  - rewrite Hi, Hef.
    split; [intros ds d [] |]. split; [simpl; lia |].
    split; [intros _; split; [reflexivity | discriminate] |]. discriminate.
  - rewrite Hi, Hef.
    split; [intros ds d [] |]. split; [simpl; lia |].
    split; [intros _; split; [reflexivity | discriminate] |]. discriminate.
  - rewrite Hi, Hef.
    split; [intros ds d [] |]. split; [simpl; lia |].
    split; [intros _; split; [reflexivity | discriminate] |]. discriminate.
  - rewrite Hi. split; [| split; [| split]].
    + intros ds d Hds Hd. destruct sel as [| d0 sel]; [destruct Hds |].
      destruct Hds as [Heq | []]. subst ds. apply Hrep. exact Hd.
    + destruct sel; simpl; lia.
    + intros Hall. apply (proj2 Hiff) in Hall. subst sel.
      split; [reflexivity |]. intros _. apply Hr. reflexivity.
    + intros _ [a Ha]. destruct sel as [| d0 sel]; [| reflexivity].
      exfalso. specialize (proj1 Hiff eq_refl a false Ha). discriminate.
Qed.

(** The first run against a wallet that watches nothing imports both
    descriptors of the account; the second run, against the wallet the
    first one left, imports nothing and succeeds. *)
Lemma ImportAccounts_idempotent_witness :
  let first := run wallet_node (ImportAccounts (Some [example_account])) [] in
  let second := run wallet_node (ImportAccounts (Some [example_account]))
                  (snd (fst first)) in
  List.length (imports (trace_of first)) = 1%nat /\
  imports (trace_of second) = [] /\
  result_of second = None.
Proof.
  cbv zeta.
  destruct (ImportAccounts_idempotent example_constants wallet_node []
              (Some [example_account])) as (_ & _ & _ & Hfirst).
  destruct (ImportAccounts_idempotent example_constants wallet_node
              (snd (fst (run wallet_node (ImportAccounts (Some [example_account])) [])))
              (Some [example_account])) as (_ & _ & Hsecond & _).
  split.
  - apply Hfirst; [reflexivity |].
    exists "addr:wpkh(xpubA/0/*)". left. reflexivity.
  - destruct Hsecond as [Hnone Hres].
    + intros a wo Hin. vm_compute in Hin.
      destruct Hin as [Heq | [Heq | []]]; inversion Heq; reflexivity.
    + split; [exact Hnone |]. apply Hres. reflexivity.
Defined.

(** C7, the claim as stated fails.  When the watch-only lookup fails, the
    error returned wraps the derived address, and carries the value and
    depth of none of the descriptors processed. *)
Lemma ImportAccounts_lookup_error_counterexample :
  let x := run lookup_failing_node (ImportAccounts (Accounts example_config)) tt in
  lookup_failures (trace_of x) =
    [("addr:wpkh(xpubA/0/*)", NodeError "wallet not loaded")] /\
  result_of x =
    Some (Errorf "%s (%s): %w"
            [ASentinel ErrAddressInfo; AStr "addr:wpkh(xpubA/0/*)"]
            (NodeError "wallet not loaded")) /\
  derivations (trace_of x) = [("wpkh(xpubA/0/*)", 1000, "addr:wpkh(xpubA/0/*)")] /\
  wraps_value_and_depth
    (Errorf "%s (%s): %w"
       [ASentinel ErrAddressInfo; AStr "addr:wpkh(xpubA/0/*)"]
       (NodeError "wallet not loaded"))
    "wpkh(xpubA/0/*)" 1000 = false.
Proof. cbv zeta. repeat split; vm_compute; reflexivity. Qed.

(** C7, amended.  [ImportAccounts] aborts as a whole on a resolution,
    derivation or lookup failure: it returns an error and requests no bulk
    import.  The error wraps [ErrInvalidDescriptor] and the cause for a
    failed canonicalisation; [ErrDeriveAddress], the descriptor's value
    and depth and the cause for a failed derivation; [ErrAddressInfo], the
    derived address and the cause for a failed lookup. *)
Theorem ImportAccounts_aborts_without_import :
  forall (K : BusConstants) (W : Type) (h : Handler W) (w : W)
         (accounts : option (list Account)),
    let tr := trace_of (run h (ImportAccounts accounts) w) in
    let r := result_of (run h (ImportAccounts accounts) w) in
    (forall desc cause,
       In (desc, cause) (canonical_failures tr) ->
       r = Some (Errorf "%s: %w" [ASentinel ErrInvalidDescriptor] cause) /\
       imports tr = []) /\
    (forall value depth cause,
       In (value, depth, cause) (derive_failures tr) ->
       r = Some (Errorf "%s (%s - #%d): %w"
                   [ASentinel ErrDeriveAddress; AStr value; AInt depth] cause) /\
       wraps_value_and_depth
         (Errorf "%s (%s - #%d): %w"
            [ASentinel ErrDeriveAddress; AStr value; AInt depth] cause)
         value depth = true /\
       imports tr = []) /\
    (forall address cause,
       In (address, cause) (lookup_failures tr) ->
       r = Some (Errorf "%s (%s): %w" [ASentinel ErrAddressInfo; AStr address] cause) /\
       imports tr = []).
Proof.
  intros K W h w [accounts |]; cbv zeta.
  2: { unfold trace_of, result_of; simpl.
       split; [intros ? ? [] |]. split; [intros ? ? ? [] | intros ? ? []]. }
  destruct (ImportAccounts_run h w accounts)
    as [err Htr Hr
       | desc cause Hcf Hdf Hlf Hi Hef Hr
       | value depth cause Hcf Hdf Hlf Hi Hef Hr
       | address cause Hcf Hdf Hlf Hi Hef Hr
       | sel Hcf Hdf Hlf Hef Hrep Hiff Hi Hr].
  - rewrite Htr. simpl.
    split; [intros ? ? [] |]. split; [intros ? ? ? [] | intros ? ? []].
  - rewrite Hcf, Hdf, Hlf, Hi, Hr.
    split; [| split; [intros ? ? ? [] | intros ? ? []]].
    intros d c [Heq | []]. inversion Heq; subst. split; reflexivity.
  - rewrite Hcf, Hdf, Hlf, Hi, Hr.
    split; [intros ? ? [] |]. split; [| intros ? ? []].
    intros v dp c [Heq | []]. inversion Heq; subst.
    split; [reflexivity |]. split; [| reflexivity].
    unfold wraps_value_and_depth. simpl.
    rewrite String.eqb_refl, Z.eqb_refl. reflexivity.
  - rewrite Hcf, Hdf, Hlf, Hi, Hr.
    split; [intros ? ? [] |]. split; [intros ? ? ? [] |].
    intros a c [Heq | []]. inversion Heq; subst. split; reflexivity.
  - rewrite Hcf, Hdf, Hlf.
    split; [intros ? ? [] |]. split; [intros ? ? ? [] | intros ? ? []].
Qed.

Lemma ImportAccounts_aborts_without_import_witness :
  let x := run lookup_failing_node (ImportAccounts (Accounts example_config)) tt in
  result_of x =
    Some (Errorf "%s (%s): %w"
            [ASentinel ErrAddressInfo; AStr "addr:wpkh(xpubA/0/*)"]
            (NodeError "wallet not loaded")) /\
  imports (trace_of x) = [].
Proof.
  cbv zeta.
  destruct (ImportAccounts_aborts_without_import example_constants lookup_failing_node tt
              (Accounts example_config)) as (_ & _ & Hlookup).
  apply (Hlookup "addr:wpkh(xpubA/0/*)" (NodeError "wallet not loaded")).
  left. reflexivity.
Defined.

(** ** The calls [ImportAccounts] makes *)

Lemma ops_in_app f t1 t2 : ops_in f (t1 ++ t2) = ops_in f t1 && ops_in f t2.
Proof. apply forallb_app. Qed.

Lemma descriptors_loop_ops {W} (h : Handler W) (client : Client) (depth age : Z) :
  forall (rawDescs : list string) (ret : list descriptor) (w : W),
    ops_in is_import_op_or_log
      (trace_of (run h (descriptors_loop client depth age rawDescs ret) w)) = true.
Proof.
  induction rawDescs as [| desc rest IH]; intros ret w; simpl; [reflexivity |].
  answer h. destruct r as [canonicalDesc | err]; simpl; [| reflexivity].
  specialize (IH (ret ++ [{| Value := canonicalDesc; DescDepth := depth; Age := age |}]) w0).
  destruct (run h (descriptors_loop client depth age rest _) w0) as [[r w1] tr].
  exact IH.
Qed.

Lemma resolve_loop_ops {K : BusConstants} {W} (h : Handler W) (client : Client) :
  forall (accounts : list Account) (allDescriptors : list descriptor) (w : W),
    ops_in is_import_op_or_log
      (trace_of (run h (resolve_loop client accounts allDescriptors) w)) = true.
Proof.
  induction accounts as [| account rest IH]; intros allDescriptors w; [reflexivity |].
  cbn [resolve_loop]. rewrite run_bind. unfold descriptors.
  match goal with
  | |- context [run h (descriptors_loop ?c ?d ?a ?raws ?acc) w] =>
      pose proof (descriptors_loop_ops h c d a raws acc w) as Hd;
      destruct (run h (descriptors_loop c d a raws acc) w) as [[r w1] t1]
  end.
  unfold trace_of in Hd; simpl in Hd.
  destruct r as [accountDescriptors | err].
  - specialize (IH (allDescriptors ++ accountDescriptors) w1).
    destruct (run h (resolve_loop client rest _) w1) as [[r2 w2] t2].
    unfold trace_of in *; simpl in *.
    rewrite ops_in_app, Hd, IH. reflexivity.
  - unfold trace_of; simpl. rewrite ops_in_app, Hd. reflexivity.
Qed.

Lemma filter_loop_ops {W} (h : Handler W) (client : Client) :
  forall (allDescriptors descriptorsToImport : list descriptor) (w : W),
    ops_in is_import_op_or_log
      (trace_of (run h (filter_loop client allDescriptors descriptorsToImport) w)) = true.
Proof.
  induction allDescriptors as [| d rest IH]; intros acc w; simpl; [reflexivity |].
  answer h. destruct r as [address | err]; simpl; [| reflexivity].
  answer h. destruct r as [addressInfo | err]; simpl; [| reflexivity].
  destruct (negb (IsWatchOnly addressInfo)).
  - specialize (IH (acc ++ [d]) w1).
    destruct (run h (filter_loop client rest (acc ++ [d])) w1) as [[r2 w2] t2].
    exact IH.
  - specialize (IH acc w1).
    destruct (run h (filter_loop client rest acc) w1) as [[r2 w2] t2].
    exact IH.
Qed.

Lemma ImportAccounts_ops {K : BusConstants} {W} (h : Handler W) (w : W)
    (accounts : option (list Account)) :
  ops_in is_import_op_or_log (trace_of (run h (ImportAccounts accounts) w)) = true.
Proof.
  destruct accounts as [accounts |]; [| reflexivity].
  unfold ImportAccounts. simpl.
  answer h. destruct r as [client | err]; simpl; [| reflexivity].
  rewrite !run_bind.
  pose proof (resolve_loop_ops h client accounts [] w0) as H1.
  destruct (run h (resolve_loop client accounts []) w0) as [[all w1] t1].
  unfold trace_of in H1; simpl in H1.
  destruct all as [allDescriptors | err].
  2: { simpl. answer h. unfold trace_of; simpl.
       rewrite !ops_in_app, H1. reflexivity. }
  rewrite run_bind.
  pose proof (filter_loop_ops h client allDescriptors [] w1) as H2.
  destruct (run h (filter_loop client allDescriptors []) w1) as [[sel w2] t2].
  unfold trace_of in H2; simpl in H2.
  destruct sel as [descriptorsToImport | err].
  2: { simpl. answer h. unfold trace_of; simpl.
       rewrite !ops_in_app, H1, H2. reflexivity. }
  destruct descriptorsToImport as [| d ds]; simpl;
    do 2 answer h; unfold trace_of; simpl;
    rewrite !ops_in_app, H1, H2; reflexivity.
Qed.

Lemma ops_in_count (f g : Op -> bool) (tr : list Event) :
  (forall o, f o = true -> g o = false) ->
  ops_in f tr = true -> count_ops g tr = 0%nat.
Proof.
  intros Hfg. induction tr as [| e tr IH]; intros H; [reflexivity |].
  unfold ops_in in H. simpl in H. apply andb_prop in H. destruct H as [He Htr].
  rewrite count_ops_cons, (Hfg _ He). simpl. apply IH. exact Htr.
Qed.

Lemma ops_in_import_no_rescan (tr : list Event) :
  ops_in is_import_op_or_log tr = true -> rescans tr = [] /\ tips tr = [].
Proof.
  induction tr as [| [o r] tr IH]; intros H; [split; reflexivity |].
  unfold ops_in in H. simpl in H. apply andb_prop in H. destruct H as [He Htr].
  destruct (IH Htr) as [Hr Ht].
  unfold rescans, tips in *. simpl. rewrite Hr, Ht.
  destruct o; simpl in *; try discriminate; split; reflexivity.
Qed.

(** [ImportAccounts] neither signals nor rescans. *)
Lemma ImportAccounts_quiet {K : BusConstants} {W} (h : Handler W) (w : W)
    (accounts : option (list Account)) :
  let tr := trace_of (run h (ImportAccounts accounts) w) in
  count_ops is_done_send tr = 0%nat /\
  count_ops is_interrupt tr = 0%nat /\
  rescans tr = [] /\ tips tr = [].
Proof.
  cbv zeta. pose proof (ImportAccounts_ops h w accounts) as H.
  split; [| split].
  - apply (ops_in_count is_import_op_or_log); [| exact H].
    intros o Ho; destruct o; simpl in *; congruence.
  - apply (ops_in_count is_import_op_or_log); [| exact H].
    intros o Ho; destruct o; simpl in *; congruence.
  - apply ops_in_import_no_rescan. exact H.
Qed.

(** ** The worker *)

#[local] Arguments ImportAccounts : simpl never.

Ltac obs :=
  unfold trace_of, result_of, rescans, tips in *; simpl;
  rewrite ?count_ops_cons, ?count_ops_app, ?flat_map_app; simpl.

(** The importing branch never rescans nor sends on [importDone]; it
    either falls through, or interrupts once and returns. *)
Lemma importing_branch_run {K : BusConstants} {W} (h : Handler W) (w : W)
    (config : Configuration) (forceImportDesc : bool) (b : Bus) :
  let x := run h (importing_branch config forceImportDesc b) w in
  rescans (trace_of x) = [] /\ tips (trace_of x) = [] /\
  count_ops is_done_send (trace_of x) = 0%nat /\
  ((snd (result_of x) = None /\ count_ops is_interrupt (trace_of x) = 0%nat) \/
   (snd (result_of x) = Some Interrupted /\
    count_ops is_interrupt (trace_of x) = 1%nat)).
Proof.
  cbv zeta. unfold importing_branch.
  assert (Himp : forall w0 b2,
    let y := run h
      (bind (ImportAccounts (Accounts config)) (fun ia =>
         match ia with
         | Some e =>
             call (Log LError "Failed while importing descriptors" (Some e)) ;;;
             call SendInterrupt ;;; Ret (b2, Some Interrupted)
         | None => Ret (set_IsPendingScan b2 false, None)
         end)) w0 in
    rescans (trace_of y) = [] /\ tips (trace_of y) = [] /\
    count_ops is_done_send (trace_of y) = 0%nat /\
    ((snd (result_of y) = None /\ count_ops is_interrupt (trace_of y) = 0%nat) \/
     (snd (result_of y) = Some Interrupted /\
      count_ops is_interrupt (trace_of y) = 1%nat))).
  { intros w0 b2. cbv zeta. rewrite run_bind.
    destruct (ImportAccounts_quiet h w0 (Accounts config)) as (Hs & Hi & Hr & Ht).
    destruct (run h (ImportAccounts (Accounts config)) w0) as [[ia w1] t1].
    unfold trace_of in Hs, Hi, Hr, Ht; simpl in Hs, Hi, Hr, Ht.
    destruct ia as [e |]; simpl.
    - do 2 answer h. obs. rewrite Hs, Hi, app_nil_r. unfold rescans, tips in *.
      rewrite Hr, Ht. repeat split; try reflexivity. right; split; reflexivity.
    - obs. rewrite Hs, Hi, app_nil_r. unfold rescans, tips in *.
      rewrite Hr, Ht. repeat split; try reflexivity. left; split; reflexivity. }
  destruct forceImportDesc; simpl.
  - answer h. destruct r as [b1 [e |]]; simpl.
    + do 2 answer h. obs. repeat split; try reflexivity. right; split; reflexivity.
    + destruct (IsPendingScan b1); simpl.
      * answer h. destruct r as [e |]; simpl.
        -- answer h. obs. repeat split; try reflexivity. right; split; reflexivity.
        -- specialize (Himp w1 (set_IsPendingScan b1 true)). cbv zeta in Himp.
           destruct (run h (bind (ImportAccounts (Accounts config)) _) w1)
             as [[res w2] t2].
           obs. exact Himp.
      * specialize (Himp w0 (set_IsPendingScan b1 true)). cbv zeta in Himp.
        destruct (run h (bind (ImportAccounts (Accounts config)) _) w0)
          as [[res w2] t2].
        obs. exact Himp.
  - apply Himp.
Qed.

(** The resuming branch makes no call of the import coordinator and never
    sends on [importDone]; every rescan it requests starts at
    [startHeight] and ends at the block count the node answered; once the
    wallet status check succeeds it requests exactly one rescan. *)
Lemma resuming_branch_run {W} (h : Handler W) (w : W) (startHeight : Z) (b : Bus) :
  let x := run h (resuming_branch startHeight b) w in
  count_ops is_import_coordinator_op (trace_of x) = 0%nat /\
  count_ops is_done_send (trace_of x) = 0%nat /\
  (forall s e, In (s, e) (rescans (trace_of x)) ->
               s = startHeight /\ In e (tips (trace_of x))) /\
  (snd (fst (h (checkWalletSyncStatus b) w)) = None ->
   exists e, rescans (trace_of x) = [(startHeight, e)]) /\
  ((snd (result_of x) = None /\ count_ops is_interrupt (trace_of x) = 0%nat) \/
   (snd (result_of x) = Some Interrupted /\
    count_ops is_interrupt (trace_of x) = 1%nat)).
Proof.
  cbv zeta. unfold resuming_branch. simpl.
  answer h. destruct r as [b1 [e |]]; simpl.
  { do 2 answer h. obs.
    split; [reflexivity |]. split; [reflexivity |].
    split; [intros s e0 [] |]. split; [discriminate |].
    right; split; reflexivity. }
  assert (Hleaf : forall (tip : Z) (n : nat) (e : option OrchestratorEnd),
    (e = None /\ n = 0%nat) \/ (e = Some Interrupted /\ n = 1%nat) ->
    0%nat = 0%nat /\ 0%nat = 0%nat /\
    (forall s e0, In (s, e0) [(startHeight, tip)] -> s = startHeight /\ In e0 [tip]) /\
    (@None error = None -> exists e0, [(startHeight, tip)] = [(startHeight, e0)]) /\
    ((e = None /\ n = 0%nat) \/ (e = Some Interrupted /\ n = 1%nat))).
  { intros tip n e He.
    split; [reflexivity |]. split; [reflexivity |].
    split; [| split; [intros _; exists tip; reflexivity | exact He]].
    intros s e0 [Heq | []]. inversion Heq; subst.
    split; [reflexivity | left; reflexivity]. }
  destruct (IsPendingScan b1); simpl.
  - answer h. destruct r as [e |]; simpl.
    + do 3 answer h. destruct r1 as [e1 |]; simpl.
      * do 2 answer h. obs. apply Hleaf. right; split; reflexivity.
      * obs. apply Hleaf. left; split; reflexivity.
    + do 2 answer h. destruct r0 as [e1 |]; simpl.
      * do 2 answer h. obs. apply Hleaf. right; split; reflexivity.
      * obs. apply Hleaf. left; split; reflexivity.
  - do 2 answer h. destruct r0 as [e1 |]; simpl.
    + do 2 answer h. obs. apply Hleaf. right; split; reflexivity.
    + obs. apply Hleaf. left; split; reflexivity.
Qed.

#[local] Arguments importing_branch : simpl never.
#[local] Arguments resuming_branch : simpl never.

(** The checkpoint read: [-1] when no record can be loaded, the recorded
    last block otherwise; it makes no call but the load and a log. *)
Lemma read_checkpoint_run {W} (h : Handler W) (w : W) :
  let pre := run h read_checkpoint w in
  (is_err (fst (h LoadRescanConf w)) = true -> result_of pre = -1) /\
  (forall c, fst (h LoadRescanConf w) = Ok c -> result_of pre = LastBlock c) /\
  rescans (trace_of pre) = [] /\ tips (trace_of pre) = [] /\
  count_ops is_import_coordinator_op (trace_of pre) = 0%nat /\
  count_ops is_done_send (trace_of pre) = 0%nat /\
  count_ops is_interrupt (trace_of pre) = 0%nat.
Proof.
  cbv zeta. unfold read_checkpoint, getPreviousRescanBlock. simpl.
  answer h. destruct r as [c | e]; simpl.
  - obs. split; [discriminate |].
    split; [intros c0 H; inversion H; reflexivity |]. repeat split; reflexivity.
  - answer h. obs. split; [reflexivity |].
    split; [intros c0 H; discriminate |]. repeat split; reflexivity.
Qed.

(** C8.  The deciding step.  Let [startHeight] be what the checkpoint read
    yields: [-1] when no record can be loaded, the recorded last block
    otherwise.  If the forced-import flag is set, or the wallet is new, or
    [startHeight] is [-1], the worker continues with the importing branch
    and requests no rescan and no block count.  In every other case it
    continues with the resuming branch from that [startHeight]: it makes
    no call of the import coordinator, any rescan it requests runs from
    [startHeight] to the block count the node answered, and once the
    wallet status check succeeds it requests that rescan. *)
Theorem Deciding_chooses_path :
  forall (K : BusConstants) (W : Type) (h : Handler W) (w : W)
         (config : Configuration) (forceImportDesc isNewWallet : bool) (b : Bus),
    let pre := run h read_checkpoint w in
    let startHeight := result_of pre in
    let w1 := snd (fst pre) in
    let tr := trace_of (run h (decide_and_run config forceImportDesc isNewWallet b) w) in
    (is_err (fst (h LoadRescanConf w)) = true -> startHeight = -1) /\
    (forall c, fst (h LoadRescanConf w) = Ok c -> startHeight = LastBlock c) /\
    (forceImportDesc = true \/ isNewWallet = true \/ startHeight = -1 ->
     (exists post,
        tr = trace_of pre
             ++ trace_of (run h (importing_branch config forceImportDesc b) w1)
             ++ post) /\
     rescans tr = [] /\ tips tr = []) /\
    (~ (forceImportDesc = true \/ isNewWallet = true \/ startHeight = -1) ->
     (exists post,
        tr = trace_of pre ++ trace_of (run h (resuming_branch startHeight b) w1) ++ post) /\
     count_ops is_import_coordinator_op tr = 0%nat /\
     (forall s e, In (s, e) (rescans tr) -> s = startHeight /\ In e (tips tr)) /\
     (snd (fst (h (checkWalletSyncStatus b) w1)) = None ->
      exists e, rescans tr = [(startHeight, e)])).
Proof.
  intros K W h w config force isNew b. cbv zeta.
  destruct (read_checkpoint_run h w) as (Hs1 & Hs2 & Hpr & Hpt & Hpc & _ & _).
  cbv zeta in *.
  split; [exact Hs1 |]. split; [exact Hs2 |].
  unfold decide_and_run. rewrite run_bind.
  destruct (run h read_checkpoint w) as [[startHeight w1] t0].
  unfold trace_of, result_of in Hpr, Hpt, Hpc. simpl in Hpr, Hpt, Hpc.
  unfold trace_of, result_of. cbn [fst snd].
  rewrite run_bind.
  assert (Hcond : force || isNew || (startHeight =? -1) = true <->
                  (force = true \/ isNew = true \/ startHeight = -1)).
  { rewrite !orb_true_iff, Z.eqb_eq. tauto. }
  destruct (force || isNew || (startHeight =? -1)) eqn:Ec.
  - split; [| intros Hn; exfalso; apply Hn, Hcond; reflexivity].
    intros _.
    destruct (importing_branch_run h w1 config force b) as (Hr & Ht & _ & _).
    cbv zeta in Hr, Ht.
    destruct (run h (importing_branch config force b) w1) as [[b1 ended] t1].
    unfold trace_of in Hr, Ht; simpl in Hr, Ht.
    destruct b1 as [b1 e]. simpl.
    destruct e as [e |]; simpl.
    + unfold trace_of; simpl.
      split; [exists []; reflexivity |].
      unfold rescans, tips in *. rewrite !flat_map_app, Hpr, Hpt, Hr, Ht.
      split; reflexivity.
    + answer h. destruct r as [e |]; simpl.
      * do 2 answer h. unfold trace_of; simpl.
        split; [eexists; reflexivity |].
        unfold rescans, tips in *. rewrite !flat_map_app, Hpr, Hpt, Hr, Ht.
        split; reflexivity.
      * answer h. unfold trace_of; simpl.
        split; [eexists; reflexivity |].
        unfold rescans, tips in *. rewrite !flat_map_app, Hpr, Hpt, Hr, Ht.
        split; reflexivity.
  - split; [intros Hy; apply Hcond in Hy; discriminate |].
    intros _.
    destruct (resuming_branch_run h w1 startHeight b) as (Hc & _ & Hrs & Hex & _).
    cbv zeta in Hc, Hrs, Hex.
    destruct (run h (resuming_branch startHeight b) w1) as [[b1 ended] t1].
    unfold trace_of in Hc, Hrs, Hex; simpl in Hc, Hrs, Hex.
    destruct b1 as [b1 e]. simpl.
    assert (Hobs : forall post,
      rescans post = [] -> tips post = [] ->
      count_ops is_import_coordinator_op post = 0%nat ->
      count_ops is_import_coordinator_op (t0 ++ t1 ++ post) = 0%nat /\
      (forall s e0, In (s, e0) (rescans (t0 ++ t1 ++ post)) ->
                    s = startHeight /\ In e0 (tips (t0 ++ t1 ++ post))) /\
      (snd (fst (h (checkWalletSyncStatus b) w1)) = None ->
       exists e0, rescans (t0 ++ t1 ++ post) = [(startHeight, e0)])).
    { intros post Hqr Hqt Hqc.
      rewrite !count_ops_app, Hpc, Hc, Hqc.
      unfold rescans, tips in *.
      rewrite !flat_map_app, Hpr, Hpt, Hqr, Hqt, !app_nil_r. simpl.
      split; [reflexivity |]. split; [exact Hrs | exact Hex]. }
    destruct e as [e |]; simpl.
    + unfold trace_of; simpl.
      split; [exists []; reflexivity |]. apply Hobs; reflexivity.
    + answer h. destruct r as [e |]; simpl.
      * do 2 answer h. unfold trace_of; simpl.
        split; [eexists; reflexivity |]. apply Hobs; reflexivity.
      * answer h. unfold trace_of; simpl.
        split; [eexists; reflexivity |]. apply Hobs; reflexivity.
Qed.

Lemma Deciding_chooses_path_witness :
  rescans (trace_of (run healthy_node
                       (decide_and_run example_config false false example_bus) tt)) = [] /\
  exists e,
    rescans (trace_of (run checkpointed_node
                         (decide_and_run example_config false false example_bus) tt))
      = [(700000, e)].
Proof.
  split.
  - destruct (Deciding_chooses_path example_constants healthy_node tt
                example_config false false example_bus) as (_ & _ & Himport & _).
    apply Himport. right; right. reflexivity.
  - destruct (Deciding_chooses_path example_constants checkpointed_node tt
                example_config false false example_bus) as (_ & _ & _ & Hresume).
    apply Hresume.
    + intros [H | [H | H]]; discriminate H.
    + reflexivity.
Defined.

(** *** Signals of the worker *)






#[local] Arguments runTheNumbers : simpl never.
#[local] Arguments decide_and_run : simpl never.




(** * Further properties of the embedded code *)

(** ** The health query *)

(** X1.  [GetHealth] returns nil exactly when none of its calls failed.  A
    failed client construction or raw request comes back as it is; a
    failed decoding comes back wrapped in ["unable to parse blockchain
    info: %w"]. *)
Theorem GetHealth_errors :
  forall (W : Type) (h : Handler W) (w : W) (s : Service),
    let x := run h (GetHealth s) w in
    (result_of x = None <-> failures (trace_of x) = []) /\
    (forall o err,
       In (o, err) (failures (trace_of x)) ->
       result_of x =
         Some match o with
              | UnmarshalBlockChainInfo _ =>
                  Errorf "unable to parse blockchain info: %w" [] err
              | _ => err
              end).
Proof.
  intros W h w s. cbv zeta. unfold GetHealth, result_of, trace_of. simpl.
  answer h. destruct r as [client | err]; simpl.
  2: { split; [split; discriminate |].
       intros o e [Heq | []]. inversion Heq; subst. reflexivity. }
  answer h. destruct r as [raw | err]; simpl.
  2: { answer h. split; [split; discriminate |].
       intros o e [Heq | []]. inversion Heq; subst. reflexivity. }
  answer h. destruct r as [info | err]; simpl.
  2: { answer h. split; [split; discriminate |].
       intros o e [Heq | []]. inversion Heq; subst. reflexivity. }
  answer h. split; [split; reflexivity |]. intros o e [].
Qed.

(** ** More on the status aggregator *)

(** Walk through the calls of [GetStatus] by cases on every answer. *)
Ltac status_paths h s :=
  unfold GetStatus, result_of, trace_of;
  destruct (IsPendingScan (Bus_ s)) eqn:?; simpl;
  [ | answer h;
      match goal with r : result Client |- _ => destruct r as [?client | ?err] end; simpl;
      [ answer h;
        match goal with r : result string |- _ => destruct r as [?raw | ?err] end; simpl;
        [ answer h;
          match goal with r : result customBlockChainInfo |- _ =>
            destruct r as [?info | ?err] end; simpl;
          [ match goal with |- context [Z.eqb (Blocks ?i) (Headers ?i)] =>
              destruct (Z.eqb (Blocks i) (Headers i)) eqn:? end; simpl;
            [ answer h;
              match goal with r : result GetWalletInfoResult |- _ =>
                destruct r as [[?scanning] | ?err] end; simpl;
              [ match goal with v : ScanningValue |- _ => destruct v end; simpl; answer h
              | do 2 answer h ]
            | answer h ]
          | do 2 answer h ]
        | do 2 answer h ]
      | answer h ] ].

(** X2.  The status [GetStatus] returns, by what happened during the run, in
    priority order: [PendingScan] exactly when the flag is set;
    [NodeDisconnected] exactly when a call failed; [Syncing] exactly when a
    snapshot with [blocks] different from [headers] was decoded; [Scanning]
    exactly when the wallet info was obtained and its scan state is a
    [btcjson.ScanProgress]; [Ready] exactly when the wallet info was
    obtained and its scan state is anything else. *)
Theorem GetStatus_decision_table :
  forall (W : Type) (h : Handler W) (w : W) (version_Version : string) (s : Service),
    let x := run h (GetStatus version_Version s) w in
    exists st : ExplorerStatus,
      result_of x = Some st /\
      (Status_ st = PendingScan <-> IsPendingScan (Bus_ s) = true) /\
      (Status_ st = NodeDisconnected <-> failures (trace_of x) <> []) /\
      (Status_ st = Syncing <->
         exists info, snapshots (trace_of x) = [info] /\ in_sync info = false) /\
      (Status_ st = Scanning <->
         exists wi, wallet_infos (trace_of x) = [wi] /\
                    is_scan_progress (ScanningValue_ wi) = true) /\
      (Status_ st = Ready <->
         exists wi, wallet_infos (trace_of x) = [wi] /\
                    is_scan_progress (ScanningValue_ wi) = false).
Proof.
  intros W h w v s. cbv zeta.
  status_paths h s;
    (eexists; split; [reflexivity |]; simpl;
     unfold in_sync;
     repeat split;
     try discriminate; try reflexivity; try congruence;
     try (intros (? & ? & ?); congruence);
     try (intros (? & Hx & Hy);
          try discriminate Hx;
          inversion Hx; subst; simpl in *; congruence);
     try (intros _; eexists; split; [reflexivity | simpl; congruence])).
Qed.

(** X3.  Whatever happens, the status [GetStatus] returns carries the version
    and the bus's [TxIndex], [Pruned], [Chain] and [Currency].  The sync
    progress is set exactly when the status is [Syncing], to the
    snapshot's verification progress times 100; the scan progress is set
    exactly when the status is [Scanning], to the wallet's scan progress
    times 100. *)
Theorem GetStatus_fields :
  forall (W : Type) (h : Handler W) (w : W) (version_Version : string) (s : Service),
    let x := run h (GetStatus version_Version s) w in
    exists st : ExplorerStatus,
      result_of x = Some st /\
      (Version st = version_Version /\ TxIndex st = BusTxIndex (Bus_ s) /\
       Pruned st = BusPruned (Bus_ s) /\ Chain st = BusChain (Bus_ s) /\
       Currency st = BusCurrency (Bus_ s)) /\
      (SyncProgress st <> None <-> Status_ st = Syncing) /\
      (ScanProgress st <> None <-> Status_ st = Scanning) /\
      (forall info, snapshots (trace_of x) = [info] -> in_sync info = false ->
                    SyncProgress st = Some (VerificationProgress info * 100)%float) /\
      (forall wi progress,
         wallet_infos (trace_of x) = [wi] ->
         scan_progress_of (ScanningValue_ wi) = Some progress ->
         ScanProgress st = Some (progress * 100)%float).
Proof.
  intros W h w v s. cbv zeta.
  status_paths h s;
    (eexists; split; [reflexivity |]; simpl;
     unfold in_sync;
     split; [repeat split |];
     repeat split;
     try discriminate; try reflexivity; try congruence;
     try (intros ? Hx Hy; try discriminate Hx;
          inversion Hx; subst; simpl in *; congruence);
     try (intros ? ? Hx Hy; try discriminate Hx;
          inversion Hx; subst; simpl in *; congruence)).
Qed.

(** X4.  [GetStatus] tries each dependency at most once: one client, one raw
    request, one wallet query.  It asks for the wallet info only after a
    snapshot with [blocks] equal to [headers], and never while the node is
    syncing. *)
Theorem GetStatus_queries_once :
  forall (W : Type) (h : Handler W) (w : W) (version_Version : string) (s : Service),
    let tr := trace_of (run h (GetStatus version_Version s) w) in
    (count_ops is_client_factory tr <= 1)%nat /\
    (count_ops is_raw_request tr <= 1)%nat /\
    (count_ops is_wallet_poll tr <= 1)%nat /\
    (count_ops is_wallet_poll tr = 1%nat <->
       exists info, snapshots tr = [info] /\ in_sync info = true) /\
    (count_ops is_raw_request tr = 1%nat <-> clients tr <> []).
Proof.
  intros W h w v s. cbv zeta.
  status_paths h s;
    (unfold in_sync, count_ops; simpl;
     repeat split;
     try lia; try discriminate; try reflexivity; try congruence;
     try (intros (? & Hx & Hy); try discriminate Hx;
          inversion Hx; subst; simpl in *; congruence);
     try (intros _; eexists; split; [reflexivity | simpl; congruence])).
Qed.

(** ** The life of a client *)

(** X5.  [GetStatus] and [GetHealth] shut down the client they obtained, and
    nothing else: the clients shut down are the clients handed out, at
    most one, and the shutdown is the last call of the run. *)
Theorem client_shut_down_last :
  forall (W : Type) (h : Handler W) (w : W) (version_Version : string) (s : Service),
    let t1 := trace_of (run h (GetStatus version_Version s) w) in
    let t2 := trace_of (run h (GetHealth s) w) in
    (shutdowns t1 = clients t1 /\ (List.length (clients t1) <= 1)%nat /\
     forall c, clients t1 = [c] -> option_map ev_op (last_event t1) = Some (Shutdown c)) /\
    (shutdowns t2 = clients t2 /\ (List.length (clients t2) <= 1)%nat /\
     forall c, clients t2 = [c] -> option_map ev_op (last_event t2) = Some (Shutdown c)).
Proof.
  intros W h w v s. cbv zeta. split.
  - status_paths h s;
      (split; [reflexivity |]; split; [simpl; lia |];
       intros c Hc; try discriminate Hc; inversion Hc; subst; reflexivity).
  - unfold GetHealth, trace_of. simpl.
    answer h. destruct r as [client | err]; simpl.
    2: { split; [reflexivity |]. split; [simpl; lia |]. intros c Hc; discriminate Hc. }
    answer h. destruct r as [raw | err]; simpl.
    2: { answer h. split; [reflexivity |]. split; [simpl; lia |].
         intros c Hc; inversion Hc; subst; reflexivity. }
    answer h. destruct r as [info | err]; simpl; answer h;
      (split; [reflexivity |]; split; [simpl; lia |];
       intros c Hc; inversion Hc; subst; reflexivity).
Qed.

(** X6.  [GetNetwork] never shuts down the client it obtains: no run of it
    contains a [Shutdown], even when a client was handed out.  It makes at
    most one raw request. *)
Theorem GetNetwork_never_shuts_down :
  forall (W : Type) (h : Handler W) (w : W) (s : Service),
    let tr := trace_of (run h (GetNetwork s) w) in
    shutdowns tr = [] /\
    (count_ops is_raw_request tr <= 1)%nat /\
    (forall c, fst (h ClientFactory w) = Ok c -> clients tr = [c]).
Proof.
  intros W h w s. cbv zeta. unfold GetNetwork, trace_of. simpl.
  answer h. destruct r as [client | err]; simpl.
  2: { answer h. split; [reflexivity |]. split; [unfold count_ops; simpl; lia |].
       intros c Hc; discriminate Hc. }
  answer h. destruct r as [raw | err]; simpl.
  2: { answer h. split; [reflexivity |]. split; [unfold count_ops; simpl; lia |].
       intros c Hc; inversion Hc; reflexivity. }
  answer h. destruct r as [info | err]; simpl.
  2: { answer h. split; [reflexivity |]. split; [unfold count_ops; simpl; lia |].
       intros c Hc; inversion Hc; reflexivity. }
  split; [reflexivity |]. split; [unfold count_ops; simpl; lia |].
  intros c Hc; inversion Hc; reflexivity.
Qed.

(** ** More on the import coordinator *)

Lemma descriptors_loop_shape {W} (h : Handler W) (client : Client) (depth age : Z) :
  forall (rawDescs : list string) (ret : list descriptor) (w : W),
    let x := run h (descriptors_loop client depth age rawDescs ret) w in
    ops_in is_descriptor_query (trace_of x) = true /\
    derive_requests (trace_of x) = [] /\ lookups (trace_of x) = [] /\
    match result_of x with
    | Ok ds =>
        canonical_requests (trace_of x) = rawDescs /\
        List.length (canonical_answers (trace_of x)) = List.length rawDescs /\
        ds = ret ++ map (fun c => {| Value := c; DescDepth := depth; Age := age |})
                        (canonical_answers (trace_of x))
    | Err _ =>
        exists rest, rawDescs = canonical_requests (trace_of x) ++ rest
    end.
Proof.
  induction rawDescs as [| desc rest IH]; intros ret w; simpl.
  - unfold trace_of, result_of; simpl. rewrite app_nil_r. repeat split; reflexivity.
  - answer h. destruct r as [canonicalDesc | err]; simpl.
    + specialize (IH (ret ++ [{| Value := canonicalDesc; DescDepth := depth; Age := age |}]) w0).
      simpl in IH.
      destruct (run h (descriptors_loop client depth age rest _) w0) as [[r w1] tr].
      unfold trace_of, result_of in *; simpl in *.
      destruct IH as (Ho & Hd & Hl & Hr).
      split; [exact Ho |]. split; [exact Hd |]. split; [exact Hl |].
      destruct r as [ds | e].
      * destruct Hr as (Hq & Hn & Hds).
        unfold canonical_requests, canonical_answers in *. simpl.
        rewrite Hq, Hn, Hds, <- app_assoc. repeat split; reflexivity.
      * destruct Hr as [rest' Hrest]. exists rest'.
        unfold canonical_requests in *. simpl. rewrite Hrest at 1. reflexivity.
    + unfold trace_of, result_of; simpl. repeat split; try reflexivity.
      exists rest. reflexivity.
Qed.

Lemma strip_checksum_no_hash (s : string) :
  ~ In "#"%char (list_ascii_of_string (strip_checksum s)).
Proof.
  induction s as [| c s IH]; simpl; [tauto |].
  destruct (Ascii.eqb_spec c "#"%char) as [Heq | Hne]; simpl; [tauto |].
  intros [H | H]; [congruence | exact (IH H)].
Qed.

Lemma strip_checksum_without_hash (s : string) :
  ~ In "#"%char (list_ascii_of_string s) -> strip_checksum s = s.
Proof.
  induction s as [| c s IH]; simpl; intros Hn; [reflexivity |].
  destruct (Ascii.eqb_spec c "#"%char) as [Heq | Hne]; [exfalso; apply Hn; left; exact Heq |].
  f_equal. apply IH. intros H; apply Hn; right; exact H.
Qed.

(** X7.  Stripping the checksum keeps the text before the first ['#'] and
    nothing else: the result holds no ['#'], the input is the result alone
    or the result, a ['#'] and a tail, a string without ['#'] is left as it
    is, and stripping twice is stripping once. *)
Theorem strip_checksum_spec :
  forall s : string,
    ~ In "#"%char (list_ascii_of_string (strip_checksum s)) /\
    (s = strip_checksum s \/
     exists tail, s = String.append (strip_checksum s) (String "#"%char tail)) /\
    (~ In "#"%char (list_ascii_of_string s) -> strip_checksum s = s) /\
    strip_checksum (strip_checksum s) = strip_checksum s.
Proof.
  intros s. split; [apply strip_checksum_no_hash |].
  split; [| split; [apply strip_checksum_without_hash |
                    apply strip_checksum_without_hash, strip_checksum_no_hash]].
  induction s as [| c s IH]; simpl; [left; reflexivity |].
  destruct (Ascii.eqb_spec c "#"%char) as [Heq | Hne]; simpl.
  - right. exists s. subst c. reflexivity.
  - destruct IH as [IH | [tail IH]].
    + left. f_equal. exact IH.
    + right. exists tail. f_equal. exact IH.
Qed.

Lemma strip_checksum_spec_witness :
  strip_checksum "wpkh(xpubA/0/*)#abcd1234" = "wpkh(xpubA/0/*)" /\
  strip_checksum "wpkh(xpubA/0/*)" = "wpkh(xpubA/0/*)".
Proof.
  split; [reflexivity |].
  apply (proj1 (proj2 (proj2 (strip_checksum_spec "wpkh(xpubA/0/*)")))).
  simpl. intros H.
  repeat (destruct H as [H | H]; [discriminate H |]). exact H.
Defined.

Lemma uint32_range (z : Z) : 0 <= uint32 z < 2 ^ 32.
Proof. unfold uint32. apply Z.mod_pos_bound. lia. Qed.


Lemma canonical_requests_app t1 t2 :
  canonical_requests (t1 ++ t2) = canonical_requests t1 ++ canonical_requests t2.
Proof. apply flat_map_app. Qed.
Lemma canonical_answers_app t1 t2 :
  canonical_answers (t1 ++ t2) = canonical_answers t1 ++ canonical_answers t2.
Proof. apply flat_map_app. Qed.
Lemma derive_requests_app t1 t2 :
  derive_requests (t1 ++ t2) = derive_requests t1 ++ derive_requests t2.
Proof. apply flat_map_app. Qed.
Lemma import_answers_app t1 t2 :
  import_answers (t1 ++ t2) = import_answers t1 ++ import_answers t2.
Proof. apply flat_map_app. Qed.
Lemma clients_app t1 t2 : clients (t1 ++ t2) = clients t1 ++ clients t2.
Proof. apply flat_map_app. Qed.
Lemma shutdowns_app t1 t2 : shutdowns (t1 ++ t2) = shutdowns t1 ++ shutdowns t2.
Proof. apply flat_map_app. Qed.

Lemma resolve_loop_shape {K : BusConstants} {W} (h : Handler W) (client : Client) :
  forall (accounts : list Account) (allDescriptors : list descriptor) (w : W),
    let x := run h (resolve_loop client accounts allDescriptors) w in
    ops_in is_descriptor_query (trace_of x) = true /\
    derive_requests (trace_of x) = [] /\ lookups (trace_of x) = [] /\
    match result_of x with
    | Ok all =>
        canonical_requests (trace_of x) = raw_descriptors accounts /\
        List.length (canonical_answers (trace_of x)) = (2 * List.length accounts)%nat /\
        all = allDescriptors ++ resolved accounts (canonical_answers (trace_of x))
    | Err _ => True
    end.
Proof.
  induction accounts as [| account rest IH]; intros acc w.
  - simpl. unfold trace_of, result_of; simpl. rewrite app_nil_r. repeat split; reflexivity.
  - cbn [resolve_loop]. cbv zeta. rewrite run_bind. unfold descriptors.
    match goal with
    | |- context [run h (descriptors_loop ?c ?d ?a ?raws ?ret) w] =>
        pose proof (descriptors_loop_shape h c d a raws ret w) as Hd;
        destruct (run h (descriptors_loop c d a raws ret) w) as [[r w1] t1]
    end.
    unfold trace_of, result_of in Hd; simpl in Hd.
    destruct Hd as (Ho & Hdr & Hl & Hr).
    destruct r as [accountDescriptors | err].
    + specialize (IH (acc ++ accountDescriptors) w1). cbv zeta in IH.
      destruct (run h (resolve_loop client rest _) w1) as [[r2 w2] t2].
      unfold trace_of, result_of in *; simpl in *.
      destruct IH as (Ho2 & Hdr2 & Hl2 & Hr2).
      rewrite ops_in_app, Ho, Ho2, derive_requests_app, Hdr, Hdr2, lookups_app, Hl, Hl2.
      split; [reflexivity |]. split; [reflexivity |]. split; [reflexivity |].
      destruct r2 as [all | e]; [| exact I].
      destruct Hr as (Hq & Hn & Hds). destruct Hr2 as (Hq2 & Hlen & Hall).
      rewrite canonical_requests_app, canonical_answers_app, Hq, Hq2.
      split; [reflexivity |].
      split; [rewrite length_app, Hn, Hlen; simpl; lia |].
      destruct (canonical_answers t1) as [| c1 [| c2 [| c3 more]]]; simpl in Hn;
        try discriminate Hn.
      simpl. rewrite Hall, Hds, <- app_assoc. reflexivity.
    + unfold trace_of, result_of; simpl. rewrite app_nil_r.
      split; [exact Ho |]. split; [exact Hdr |]. split; [exact Hl | exact I].
Qed.

Lemma filter_loop_shape {W} (h : Handler W) (client : Client) :
  forall (allDescriptors descriptorsToImport : list descriptor) (w : W),
    let x := run h (filter_loop client allDescriptors descriptorsToImport) w in
    ops_in is_descriptor_query (trace_of x) = true /\
    canonical_requests (trace_of x) = [] /\ canonical_answers (trace_of x) = [] /\
    match result_of x with
    | Ok sel =>
        derive_requests (trace_of x) =
          map (fun d => (Value d, DescDepth d)) allDescriptors /\
        List.length (lookups (trace_of x)) = List.length allDescriptors /\
        sel = descriptorsToImport ++ unwatched allDescriptors (lookups (trace_of x))
    | Err _ => True
    end.
Proof.
  induction allDescriptors as [| d rest IH]; intros acc w; simpl.
  - unfold trace_of, result_of; simpl. rewrite app_nil_r. repeat split; reflexivity.
  - answer h. destruct r as [address | err]; simpl.
    2: { unfold trace_of, result_of; simpl. repeat split; reflexivity. }
    answer h. destruct r as [[watched] | err]; simpl.
    2: { unfold trace_of, result_of; simpl. repeat split; reflexivity. }
    destruct watched; simpl.
    + specialize (IH acc w1). cbv zeta in IH.
      destruct (run h (filter_loop client rest acc) w1) as [[r2 w2] t2].
      unfold trace_of, result_of in *; simpl in *.
      destruct IH as (Ho & Hq & Ha & Hr).
      split; [exact Ho |]. split; [exact Hq |]. split; [exact Ha |].
      destruct r2 as [sel | e]; [| exact I].
      destruct Hr as (Hdr & Hn & Hsel).
      unfold derive_requests, lookups, unwatched in *. simpl.
      rewrite Hdr, Hn. repeat split; try reflexivity. exact Hsel.
    + specialize (IH (acc ++ [d]) w1). cbv zeta in IH.
      destruct (run h (filter_loop client rest (acc ++ [d])) w1) as [[r2 w2] t2].
      unfold trace_of, result_of in *; simpl in *.
      destruct IH as (Ho & Hq & Ha & Hr).
      split; [exact Ho |]. split; [exact Hq |]. split; [exact Ha |].
      destruct r2 as [sel | e]; [| exact I].
      destruct Hr as (Hdr & Hn & Hsel).
      unfold derive_requests, lookups, unwatched in *. simpl.
      rewrite Hdr, Hn. repeat split; try reflexivity.
      rewrite Hsel, <- app_assoc. reflexivity.
Qed.

Lemma descriptor_queries_only (tr : list Event) :
  ops_in is_descriptor_query tr = true ->
  clients tr = [] /\ shutdowns tr = [] /\ imports tr = [] /\ import_answers tr = [].
Proof.
  induction tr as [| [o r] tr IH]; intros H; [repeat split; reflexivity |].
  unfold ops_in in H. simpl in H. apply andb_prop in H. destruct H as [He Htr].
  destruct (IH Htr) as (H1 & H2 & H3 & H4).
  unfold clients, shutdowns, imports, import_answers in *. simpl.
  rewrite H1, H2, H3, H4.
  destruct o; simpl in *; try discriminate; repeat split; reflexivity.
Qed.

Lemma last_event_snoc (tr : list Event) (e : Event) : last_event (tr ++ [e]) = Some e.
Proof. unfold last_event. rewrite rev_unit. reflexivity. Qed.

Lemma last_event_app (t l : list Event) (e : Event) :
  last_event l = Some e -> last_event (t ++ l) = Some e.
Proof.
  unfold last_event. rewrite rev_app_distr.
  destruct (rev l) as [| e' l']; [discriminate |]. simpl. tauto.
Qed.

Lemma last_event_cons (a : Event) (l : list Event) (e : Event) :
  last_event l = Some e -> last_event (a :: l) = Some e.
Proof. intros H. change (a :: l) with ([a] ++ l). apply last_event_app. exact H. Qed.

Ltac last_event_tac :=
  repeat first [reflexivity | apply last_event_app | apply last_event_cons].

Ltac import_obs :=
  unfold clients, shutdowns, imports, import_answers, canonical_requests,
    canonical_answers, derive_requests, lookups in *;
  simpl; rewrite ?flat_map_app, ?existsb_app; simpl.

(** The shape of a run of [ImportAccounts] on a non-nil list. *)
Lemma ImportAccounts_shape {K : BusConstants} {W} (h : Handler W) (w : W)
    (accounts : list Account) :
  let x := run h (ImportAccounts (Some accounts)) w in
  let tr := trace_of x in
  (shutdowns tr = clients tr /\ (List.length (clients tr) <= 1)%nat /\
   forall c, clients tr = [c] -> option_map ev_op (last_event tr) = Some (Shutdown c)) /\
  (existsb ev_failed tr = false ->
   let all := resolved accounts (canonical_answers tr) in
   canonical_requests tr = raw_descriptors accounts /\
   List.length (canonical_answers tr) = (2 * List.length accounts)%nat /\
   derive_requests tr = map (fun d => (Value d, DescDepth d)) all /\
   List.length (lookups tr) = List.length all /\
   match unwatched all (lookups tr) with
   | [] => imports tr = [] /\ result_of x = None
   | d :: ds => imports tr = [d :: ds] /\ import_answers tr = [result_of x]
   end) /\
  (existsb ev_failed tr = true -> imports tr = [] /\ result_of x <> None).
Proof.
  cbv zeta. unfold ImportAccounts. simpl.
  answer h. destruct r as [client | err]; simpl.
  2: { unfold trace_of, result_of; simpl.
       split; [split; [reflexivity |]; split; [simpl; lia | intros c Hc; discriminate Hc] |].
       split; [discriminate |]. intros _. split; [reflexivity | discriminate]. }
  rewrite !run_bind.
  pose proof (resolve_loop_run h client accounts [] w0) as Hres.
  pose proof (resolve_loop_shape h client accounts [] w0) as Hshape.
  cbv zeta in Hres, Hshape.
  destruct (run h (resolve_loop client accounts []) w0) as [[all w1] t1].
  unfold trace_of, result_of in Hres, Hshape; simpl in Hres, Hshape.
  destruct Hres as (_ & _ & _ & _ & _ & Hr1).
  destruct Hshape as (Ho1 & Hdr1 & Hl1 & Hs1).
  destruct (descriptor_queries_only _ Ho1) as (Hc1 & Hsd1 & Hi1 & Hia1).
  destruct all as [allDescriptors | err].
  2: { simpl. answer h. unfold trace_of, result_of; simpl.
       destruct Hr1 as [Hef _].
       split; [| split].
       - split; [import_obs; rewrite Hc1, Hsd1; reflexivity |].
         split; [import_obs; rewrite Hc1; simpl; lia |].
         intros c Hc.
         match goal with
         | |- option_map ev_op (last_event ?t) = _ =>
             assert (Hlast : last_event t = Some (Ev (Shutdown client) r))
               by last_event_tac
         end.
         rewrite Hlast. revert Hc. import_obs. rewrite Hc1. simpl.
         intros Hc; inversion Hc; subst. reflexivity.
       - import_obs. rewrite Hef. discriminate.
       - intros _. import_obs. rewrite Hi1. split; [reflexivity | discriminate]. }
  destruct Hr1 as [_ Hef1]. destruct Hs1 as (Hq1 & Hlen1 & Hall). simpl in Hall.
  rewrite run_bind.
  pose proof (filter_loop_run h client allDescriptors [] w1) as Hfil.
  pose proof (filter_loop_shape h client allDescriptors [] w1) as Hshape.
  cbv zeta in Hfil, Hshape.
  destruct (run h (filter_loop client allDescriptors []) w1) as [[sel w2] t2].
  unfold trace_of, result_of in Hfil, Hshape; simpl in Hfil, Hshape.
  destruct Hfil as (_ & _ & Hr2).
  destruct Hshape as (Ho2 & Hq2 & Ha2 & Hs2).
  destruct (descriptor_queries_only _ Ho2) as (Hc2 & Hsd2 & Hi2 & Hia2).
  destruct sel as [descriptorsToImport | err].
  2: { simpl. answer h. unfold trace_of, result_of; simpl.
       destruct Hr2 as [Hef2 _].
       split; [| split].
       - split; [import_obs; rewrite Hc1, Hsd1, Hc2, Hsd2; reflexivity |].
         split; [import_obs; rewrite Hc1, Hc2; simpl; lia |].
         intros c Hc.
         match goal with
         | |- option_map ev_op (last_event ?t) = _ =>
             assert (Hlast : last_event t = Some (Ev (Shutdown client) r))
               by last_event_tac
         end.
         rewrite Hlast. revert Hc. import_obs. rewrite Hc1, Hc2. simpl.
         intros Hc; inversion Hc; subst. reflexivity.
       - import_obs. rewrite Hef1, Hef2. discriminate.
       - intros _. import_obs. rewrite Hi1, Hi2. split; [reflexivity | discriminate]. }
  destruct Hr2 as (_ & _ & Hef2 & _). destruct Hs2 as (Hdr2 & Hn2 & Hsel).
  simpl in Hsel.
  assert (Hcommon : forall tl,
    canonical_answers tl = [] -> canonical_requests tl = [] ->
    derive_requests tl = [] -> lookups tl = [] ->
    let tr := Ev ClientFactory (Ok client) :: (t1 ++ t2 ++ tl) in
    canonical_requests tr = raw_descriptors accounts /\
    List.length (canonical_answers tr) = (2 * List.length accounts)%nat /\
    derive_requests tr =
      map (fun d => (Value d, DescDepth d)) (resolved accounts (canonical_answers tr)) /\
    List.length (lookups tr) = List.length (resolved accounts (canonical_answers tr)) /\
    unwatched (resolved accounts (canonical_answers tr)) (lookups tr) = descriptorsToImport).
  { intros tl H1 H2 H3 H4. cbv zeta.
    unfold canonical_requests, canonical_answers, derive_requests, lookups in *.
    simpl. rewrite !flat_map_app, H1, H2, H3, H4, Hq1, Hq2, Ha2, Hdr1, Hdr2, Hl1.
    rewrite !app_nil_r. simpl. rewrite <- Hall, Hn2, <- Hsel.
    repeat split; try reflexivity. exact Hlen1. }
  destruct descriptorsToImport as [| d ds]; simpl.
  - do 2 answer h. unfold trace_of, result_of; simpl.
    rewrite <- !app_assoc.
    split; [| split].
    + split; [import_obs; rewrite Hc1, Hsd1, Hc2, Hsd2; reflexivity |].
      split; [import_obs; rewrite Hc1, Hc2; simpl; lia |].
      intros c Hc.
      match goal with
      | |- option_map ev_op (last_event ?t) = _ =>
          assert (Hlast : last_event t = Some (Ev (Shutdown client) r0))
            by last_event_tac
      end.
      rewrite Hlast. revert Hc. import_obs. rewrite Hc1, Hc2. simpl.
      intros Hc; inversion Hc; subst. reflexivity.
    + intros _. cbv zeta.
      destruct (Hcommon [Ev (Log LInfo "No (new) descriptors to import" None) r;
                         Ev (Shutdown client) r0]) as (G1 & G0 & G2 & G3 & G4);
        try reflexivity.
      simpl in G1, G0, G2, G3, G4. simpl.
      split; [exact G1 |]. split; [exact G0 |]. split; [exact G2 |]. split; [exact G3 |].
      rewrite G4. split; [| reflexivity].
      unfold imports. simpl. rewrite !flat_map_app. fold (imports t1) (imports t2).
      rewrite Hi1, Hi2. reflexivity.
    + import_obs. rewrite Hef1, Hef2. discriminate.
  - do 2 answer h. unfold trace_of, result_of; simpl.
    rewrite <- !app_assoc.
    split; [| split].
    + split; [import_obs; rewrite Hc1, Hsd1, Hc2, Hsd2; reflexivity |].
      split; [import_obs; rewrite Hc1, Hc2; simpl; lia |].
      intros c Hc.
      match goal with
      | |- option_map ev_op (last_event ?t) = _ =>
          assert (Hlast : last_event t = Some (Ev (Shutdown client) r0))
            by last_event_tac
      end.
      rewrite Hlast. revert Hc. import_obs. rewrite Hc1, Hc2. simpl.
      intros Hc; inversion Hc; subst. reflexivity.
    + intros _. cbv zeta.
      destruct (Hcommon [Ev (ImportDescriptors client (d :: ds)) r;
                         Ev (Shutdown client) r0]) as (G1 & G0 & G2 & G3 & G4);
        try reflexivity.
      simpl in G1, G0, G2, G3, G4. simpl.
      split; [exact G1 |]. split; [exact G0 |]. split; [exact G2 |]. split; [exact G3 |].
      rewrite G4.
      unfold imports, import_answers. simpl. rewrite !flat_map_app.
      fold (imports t1) (imports t2) (import_answers t1) (import_answers t2).
      rewrite Hi1, Hi2, Hia1, Hia2. split; reflexivity.
    + import_obs. rewrite Hef1, Hef2. discriminate.
Qed.

(** X9.  [ImportAccounts] shuts down the client it obtained on every path, with
    or without an error: the clients shut down are the clients handed out,
    at most one, and the shutdown is the last call of the run. *)
Theorem ImportAccounts_client_shut_down :
  forall (K : BusConstants) (W : Type) (h : Handler W) (w : W)
         (accounts : option (list Account)),
    let tr := trace_of (run h (ImportAccounts accounts) w) in
    shutdowns tr = clients tr /\ (List.length (clients tr) <= 1)%nat /\
    forall c, clients tr = [c] -> option_map ev_op (last_event tr) = Some (Shutdown c).
Proof.
  intros K W h w [accounts |]; cbv zeta.
  - exact (proj1 (ImportAccounts_shape h w accounts)).
  - unfold trace_of; simpl. split; [reflexivity |]. split; [lia |].
    intros c Hc; discriminate Hc.
Qed.

Lemma ImportAccounts_client_shut_down_witness :
  option_map ev_op
    (last_event (trace_of (run lookup_failing_node
                             (ImportAccounts (Accounts example_config)) tt)))
  = Some (Shutdown (factoryClient 0)).
Proof.
  apply (ImportAccounts_client_shut_down example_constants lookup_failing_node tt
           (Accounts example_config)).
  reflexivity.
Defined.

(** X10.  When no call fails, [ImportAccounts] checks every descriptor once and
    in order: it asks for the canonical form of the external then the
    internal descriptor of each account, checksums stripped, gets two
    answers per account, derives one address per resolved descriptor at the
    descriptor's depth, and looks each address up. *)
Theorem ImportAccounts_checks_every_descriptor :
  forall (K : BusConstants) (W : Type) (h : Handler W) (w : W)
         (accounts : list Account),
    let tr := trace_of (run h (ImportAccounts (Some accounts)) w) in
    let all := resolved accounts (canonical_answers tr) in
    existsb ev_failed tr = false ->
    canonical_requests tr = raw_descriptors accounts /\
    List.length (canonical_answers tr) = (2 * List.length accounts)%nat /\
    derive_requests tr = map (fun d => (Value d, DescDepth d)) all /\
    List.length (lookups tr) = List.length all.
Proof.
  intros K W h w accounts. cbv zeta. intros Hok.
  destruct (ImportAccounts_shape h w accounts) as (_ & Hgood & _).
  cbv zeta in Hgood. destruct (Hgood Hok) as (H1 & H2 & H3 & H4 & _).
  split; [exact H1 |]. split; [exact H2 |]. split; [exact H3 | exact H4].
Qed.

Lemma ImportAccounts_checks_every_descriptor_witness :
  let tr := trace_of (run wallet_node (ImportAccounts (Some [example_account])) []) in
  canonical_requests tr = ["wpkh(xpubA/0/*)"; "wpkh(xpubA/1/*)"] /\
  derive_requests tr = [("wpkh(xpubA/0/*)", 1000); ("wpkh(xpubA/1/*)", 1000)].
Proof.
  cbv zeta.
  destruct (ImportAccounts_checks_every_descriptor example_constants wallet_node []
              [example_account] eq_refl) as (H1 & _ & H3 & _).
  split; [exact H1 | exact H3].
Defined.

(** X11.  The bulk import, when [ImportAccounts] requests one, receives exactly
    the resolved descriptors whose lookup answered not watch-only, in
    account order with the external descriptor before the internal one; it
    is requested once, never with an empty list, and what it answers (its
    error, or nil) is what [ImportAccounts] returns. *)
Theorem ImportAccounts_import_set :
  forall (K : BusConstants) (W : Type) (h : Handler W) (w : W)
         (accounts : list Account) (ds : list descriptor),
    let x := run h (ImportAccounts (Some accounts)) w in
    In ds (imports (trace_of x)) ->
    ds = unwatched (resolved accounts (canonical_answers (trace_of x)))
                   (lookups (trace_of x)) /\
    ds <> [] /\
    imports (trace_of x) = [ds] /\
    import_answers (trace_of x) = [result_of x].
Proof.
  intros K W h w accounts ds. cbv zeta. intros Hin.
  destruct (ImportAccounts_shape h w accounts) as (_ & Hgood & Hbad).
  cbv zeta in Hgood.
  destruct (existsb ev_failed (trace_of (run h (ImportAccounts (Some accounts)) w))) eqn:Ef.
  - destruct (Hbad eq_refl) as [Hnone _]. rewrite Hnone in Hin. destruct Hin.
  - destruct (Hgood eq_refl) as (_ & _ & _ & _ & Hm).
    destruct (unwatched _ _) as [| d rest].
    + destruct Hm as [Hnone _]. rewrite Hnone in Hin. destruct Hin.
    + destruct Hm as [Hi Ha]. rewrite Hi in Hin. destruct Hin as [Heq | []].
      subst ds. split; [reflexivity |]. split; [discriminate |].
      split; [exact Hi | exact Ha].
Qed.

Lemma ImportAccounts_import_set_witness :
  let x := run wallet_node (ImportAccounts (Some [example_account]))
             ["addr:wpkh(xpubA/0/*)"] in
  imports (trace_of x) =
    [[{| Value := "wpkh(xpubA/1/*)"; DescDepth := 1000; Age := 1378771200 |}]] /\
  import_answers (trace_of x) = [result_of x].
Proof.
  cbv zeta.
  destruct (ImportAccounts_import_set example_constants wallet_node
              ["addr:wpkh(xpubA/0/*)"] [example_account]
              [{| Value := "wpkh(xpubA/1/*)"; DescDepth := 1000; Age := 1378771200 |}])
    as (_ & _ & Hi & Ha).
  - left. reflexivity.
  - split; [exact Hi | exact Ha].
Defined.

(** ** More on the worker *)

Lemma snapshots_app t1 t2 : snapshots (t1 ++ t2) = snapshots t1 ++ snapshots t2.
Proof. apply flat_map_app. Qed.
Lemma failures_app t1 t2 : failures (t1 ++ t2) = failures t1 ++ failures t2.
Proof. apply flat_map_app. Qed.
Lemma sleeps_app t1 t2 : sleeps (t1 ++ t2) = sleeps t1 ++ sleeps t2.
Proof. apply flat_map_app. Qed.
Lemma logged_app t1 t2 : logged (t1 ++ t2) = logged t1 ++ logged t2.
Proof. apply flat_map_app. Qed.
Lemma raw_requests_app t1 t2 :
  raw_requests (t1 ++ t2) = raw_requests t1 ++ raw_requests t2.
Proof. apply flat_map_app. Qed.

(** The shape of a run of [waitForIBD]. *)
Lemma waitForIBD_shape :
  forall (W : Type) (h : Handler W) (fuel : nat) (w : W),
    let x := run h (waitForIBD fuel) w in
    let tr := trace_of x in
    ops_in is_ibd_op tr = true /\
    raw_requests tr =
      repeat (mainClient, "getblockchaininfo") (List.length (raw_requests tr)) /\
    match result_of x with
    | Some None =>
        exists earlier last,
          snapshots tr = earlier ++ [last] /\ in_sync last = true /\
          forallb (fun i => negb (in_sync i)) earlier = true /\
          sleeps tr = repeat 7 (List.length earlier) /\
          failures tr = []
    | Some (Some e) =>
        forallb (fun i => negb (in_sync i)) (snapshots tr) = true /\
        sleeps tr = repeat 7 (List.length (snapshots tr)) /\
        exists o cause,
          failures tr = [(o, cause)] /\
          e = match o with
              | UnmarshalBlockChainInfo _ =>
                  Errorf "unable to parse blockchain info: %w" [] cause
              | _ => cause
              end
    | None =>
        forallb (fun i => negb (in_sync i)) (snapshots tr) = true /\
        List.length (snapshots tr) = fuel /\
        sleeps tr = repeat 7 fuel /\
        failures tr = []
    end.
Proof.
  intros W h. induction fuel as [| fuel IH]; intros w; cbv zeta; simpl.
  - unfold trace_of, result_of; simpl. repeat split; reflexivity.
  - answer h. destruct r as [raw | e]; simpl.
    2: { unfold trace_of, result_of; simpl. repeat split; try reflexivity.
         eexists _, e. split; reflexivity. }
    answer h. destruct r as [info | e]; simpl.
    2: { unfold trace_of, result_of; simpl. repeat split; try reflexivity.
         eexists _, e. split; reflexivity. }
    destruct (Z.eqb (Blocks info) (Headers info)) eqn:Esync; simpl.
    + answer h. unfold trace_of, result_of; simpl.
      split; [reflexivity |]. split; [reflexivity |].
      exists [], info. repeat split; try reflexivity. exact Esync.
    + do 2 answer h. specialize (IH w3). cbv zeta in IH.
      destruct (run h (waitForIBD fuel) w3) as [[res w4] t].
      unfold trace_of, result_of in *; simpl in *.
      destruct IH as (Ho & Hrr & Hres).
      split; [exact Ho |]. split.
      { unfold raw_requests in *. simpl. f_equal. exact Hrr. }
      unfold snapshots, sleeps, failures, in_sync in *. simpl.
      destruct res as [[e |] |].
      * destruct Hres as (Hall & Hsl & o & cause & Hf & He).
        rewrite Esync, Hall, Hsl. simpl. repeat split; try reflexivity.
        exists o, cause. split; assumption.
      * destruct Hres as (earlier & last & Hs & Hlast & Hall & Hsl & Hf).
        exists (info :: earlier), last. rewrite Hs, Hsl, Hf. simpl.
        rewrite Esync, Hall. repeat split; try reflexivity. exact Hlast.
      * destruct Hres as (Hall & Hlen & Hsl & Hf).
        rewrite Esync, Hall, Hlen, Hsl, Hf. repeat split; reflexivity.
Qed.

(** X12.  The wait for the initial block download.  [waitForIBD] polls
    [getblockchaininfo] on the main client and nothing else.  It returns
    nil on the first snapshot whose [blocks] equals [headers]: every
    earlier snapshot differed, and it slept 7 seconds after each of those
    and not after the last.  A failed raw request ends the wait with that
    error, a failed decoding with the error wrapped; neither is retried.
    While it keeps polling, every one of its snapshots differed. *)
Theorem waitForIBD_polls_until_synced :
  forall (W : Type) (h : Handler W) (fuel : nat) (w : W),
    let x := run h (waitForIBD fuel) w in
    let tr := trace_of x in
    ops_in is_ibd_op tr = true /\
    raw_requests tr =
      repeat (mainClient, "getblockchaininfo") (List.length (raw_requests tr)) /\
    match result_of x with
    | Some None =>
        exists earlier last,
          snapshots tr = earlier ++ [last] /\ in_sync last = true /\
          forallb (fun i => negb (in_sync i)) earlier = true /\
          sleeps tr = repeat 7 (List.length earlier) /\
          failures tr = []
    | Some (Some e) =>
        forallb (fun i => negb (in_sync i)) (snapshots tr) = true /\
        sleeps tr = repeat 7 (List.length (snapshots tr)) /\
        exists o cause,
          failures tr = [(o, cause)] /\
          e = match o with
              | UnmarshalBlockChainInfo _ =>
                  Errorf "unable to parse blockchain info: %w" [] cause
              | _ => cause
              end
    | None =>
        forallb (fun i => negb (in_sync i)) (snapshots tr) = true /\
        List.length (snapshots tr) = fuel /\
        sleeps tr = repeat 7 fuel /\
        failures tr = []
    end.
Proof. exact waitForIBD_shape. Qed.

Lemma waitForIBD_polls_until_synced_witness :
  let x := run catching_up_node (waitForIBD 5) 2%nat in
  result_of x = Some None /\ sleeps (trace_of x) = [7; 7].
Proof.
  cbv zeta.
  pose proof (waitForIBD_polls_until_synced catching_up_node 5 2%nat) as H.
  cbv zeta in H. destruct H as (_ & _ & H).
  split; [reflexivity |].
  change (result_of (run catching_up_node (waitForIBD 5) 2%nat))
    with (Some (@None error)) in H.
  destruct H as (earlier & last & Hs & _ & _ & Hsl & _).
  rewrite Hsl.
  apply (f_equal (@List.length _)) in Hs. rewrite length_app in Hs. simpl in Hs.
  replace (List.length earlier) with 2%nat by lia. reflexivity.
Defined.

(** The fuel of the two unbounded loops only bounds the model: once a run
    of [waitForIBD] or of the watchdog loop returns within its fuel, every
    larger fuel gives the same result, the same world and the same
    trace. *)
Lemma loops_independent_of_fuel :
  forall (W : Type) (h : Handler W) (fuel extra : nat) (w : W),
    (result_of (run h (waitForIBD fuel) w) <> None ->
     run h (waitForIBD (fuel + extra)) w = run h (waitForIBD fuel) w) /\
    (result_of (run h (watchdog_loop fuel) w) <> None ->
     run h (watchdog_loop (fuel + extra)) w = run h (watchdog_loop fuel) w).
Proof.
  intros W h fuel extra. induction fuel as [| fuel IH]; intros w.
  - split; intros H; exfalso; apply H; reflexivity.
  - split.
    + simpl. answer h. destruct r as [raw | e]; simpl; [| reflexivity].
      answer h. destruct r as [info | e]; simpl; [| reflexivity].
      destruct (negb (Z.eqb (Blocks info) (Headers info))); simpl; [| reflexivity].
      do 2 answer h. destruct (IH w3) as [IH1 _].
      destruct (run h (waitForIBD fuel) w3) as [[res w4] t] eqn:Erun.
      unfold result_of in *; simpl in *. intros Hres.
      rewrite (IH1 Hres). reflexivity.
    + simpl. answer h. destruct r; simpl; [reflexivity |].
      do 2 answer h. destruct r0 as [walletInfo | e]; simpl; [| reflexivity].
      destruct (ScanningValue_ walletInfo); simpl.
      * answer h. destruct (IH w3) as [_ IH2].
        destruct (run h (watchdog_loop fuel) w3) as [[res w4] t] eqn:Erun.
        unfold result_of in *; simpl in *. intros Hres.
        rewrite (IH2 Hres). reflexivity.
      * destruct (IH w2) as [_ IH2].
        destruct (run h (watchdog_loop fuel) w2) as [[res w4] t] eqn:Erun.
        unfold result_of in *; simpl in *. intros Hres.
        rewrite (IH2 Hres). reflexivity.
      * destruct (IH w2) as [_ IH2].
        destruct (run h (watchdog_loop fuel) w2) as [[res w4] t] eqn:Erun.
        unfold result_of in *; simpl in *. intros Hres.
        rewrite (IH2 Hres). reflexivity.
Qed.





(** *** Facts on the traces of the worker's parts *)

Lemma ops_in_weaken (f g : Op -> bool) (tr : list Event) :
  (forall o, f o = true -> g o = true) -> ops_in f tr = true -> ops_in g tr = true.
Proof.
  intros Hfg. unfold ops_in. rewrite !forallb_forall. intros H e He.
  apply Hfg, H, He.
Qed.

Lemma import_answers_length (tr : list Event) :
  List.length (import_answers tr) = List.length (imports tr).
Proof.
  induction tr as [| [o r] tr IH]; [reflexivity |].
  unfold import_answers, imports in *. simpl. rewrite !length_app, IH.
  destruct o; reflexivity.
Qed.

Lemma descriptor_queries_no_logs (tr : list Event) :
  ops_in is_descriptor_query tr = true -> logged tr = [].
Proof.
  induction tr as [| [o r] tr IH]; intros H; [reflexivity |].
  unfold ops_in in H. simpl in H. apply andb_prop in H. destruct H as [He Htr].
  unfold logged in *. simpl. rewrite (IH Htr).
  destruct o; simpl in *; try discriminate; reflexivity.
Qed.

Lemma import_ops_quiet (tr : list Event) :
  ops_in is_import_op_or_log tr = true ->
  rescan_answers tr = [] /\ count_ops is_checkpoint_dump tr = 0%nat.
Proof.
  induction tr as [| [o r] tr IH]; intros H; [split; reflexivity |].
  unfold ops_in in H. simpl in H. apply andb_prop in H. destruct H as [He Htr].
  destruct (IH Htr) as [H1 H2].
  rewrite count_ops_cons, H2. unfold rescan_answers in *. simpl. rewrite H1.
  destruct o; simpl in *; try discriminate; split; reflexivity.
Qed.

Lemma decide_ops_quiet (tr : list Event) :
  ops_in is_decide_op tr = true ->
  snapshots tr = [] /\ sleeps tr = [] /\ count_ops is_audit_op tr = 0%nat.
Proof.
  induction tr as [| [o r] tr IH]; intros H; [repeat split; reflexivity |].
  unfold ops_in in H. simpl in H. apply andb_prop in H. destruct H as [He Htr].
  destruct (IH Htr) as (H1 & H2 & H3).
  rewrite count_ops_cons, H3. unfold snapshots, sleeps in *. simpl. rewrite H1, H2.
  destruct o; simpl in *; try discriminate; repeat split; reflexivity.
Qed.

Lemma ibd_ops_quiet (tr : list Event) :
  ops_in is_ibd_op tr = true ->
  count_ops is_audit_op tr = 0%nat /\ count_ops is_checkpoint_dump tr = 0%nat /\
  import_answers tr = [] /\ rescan_answers tr = [].
Proof.
  induction tr as [| [o r] tr IH]; intros H; [repeat split; reflexivity |].
  unfold ops_in in H. simpl in H. apply andb_prop in H. destruct H as [He Htr].
  destruct (IH Htr) as (H1 & H2 & H3 & H4).
  rewrite !count_ops_cons, H1, H2. unfold import_answers, rescan_answers in *. simpl.
  rewrite H3, H4.
  destruct o; simpl in *; try discriminate; repeat split; reflexivity.
Qed.

(** The only line [ImportAccounts] logs. *)
Lemma ImportAccounts_logged {K : BusConstants} {W} (h : Handler W) (w : W)
    (accounts : option (list Account)) :
  forall m, In m (logged (trace_of (run h (ImportAccounts accounts) w))) ->
            m = "No (new) descriptors to import".
Proof.
  destruct accounts as [accounts |]; [| intros m []].
  unfold ImportAccounts. simpl.
  answer h. destruct r as [client | err]; simpl; [| intros m []].
  rewrite !run_bind.
  pose proof (resolve_loop_shape h client accounts [] w0) as H1. cbv zeta in H1.
  destruct (run h (resolve_loop client accounts []) w0) as [[all w1] t1].
  unfold trace_of, result_of in H1; simpl in H1.
  destruct H1 as (Ho1 & _). apply descriptor_queries_no_logs in Ho1.
  destruct all as [allDescriptors | err].
  2: { simpl. answer h. unfold trace_of; simpl. unfold logged in *. simpl.
       rewrite !flat_map_app, Ho1. intros m []. }
  rewrite run_bind.
  pose proof (filter_loop_shape h client allDescriptors [] w1) as H2. cbv zeta in H2.
  destruct (run h (filter_loop client allDescriptors []) w1) as [[sel w2] t2].
  unfold trace_of, result_of in H2; simpl in H2.
  destruct H2 as (Ho2 & _). apply descriptor_queries_no_logs in Ho2.
  destruct sel as [descriptorsToImport | err].
  2: { simpl. answer h. unfold trace_of; simpl. unfold logged in *. simpl.
       rewrite !flat_map_app, Ho1, Ho2. intros m []. }
  destruct descriptorsToImport as [| d ds]; simpl;
    do 2 answer h; unfold trace_of; simpl; unfold logged in *; simpl;
    rewrite !flat_map_app, Ho1, Ho2; simpl.
  - intros m [Hm | []]. symmetry. exact Hm.
  - intros m [].
Qed.

(** A successful [ImportAccounts] had its bulk import, if any, succeed. *)
Lemma ImportAccounts_nil_answers {K : BusConstants} {W} (h : Handler W) (w : W)
    (accounts : option (list Account)) :
  result_of (run h (ImportAccounts accounts) w) = None ->
  Forall (eq None) (import_answers (trace_of (run h (ImportAccounts accounts) w))).
Proof.
  destruct accounts as [accounts |]; [| intros _; constructor].
  intros Hnil.
  destruct (ImportAccounts_shape h w accounts) as (_ & Hgood & Hbad).
  cbv zeta in Hgood.
  destruct (existsb ev_failed (trace_of (run h (ImportAccounts (Some accounts)) w))) eqn:Ef.
  - destruct (Hbad eq_refl) as [_ Hne]. contradiction.
  - destruct (Hgood eq_refl) as (_ & _ & _ & _ & Hm).
    destruct (unwatched _ _) as [| d rest].
    + destruct Hm as [Hi _].
      pose proof (import_answers_length
                    (trace_of (run h (ImportAccounts (Some accounts)) w))) as Hlen.
      rewrite Hi in Hlen.
      destruct (import_answers _); [constructor | discriminate Hlen].
    + destruct Hm as [_ Ha]. rewrite Ha, Hnil. repeat constructor.
Qed.

Lemma run_call {W} (h : Handler W) (o : Op) (w : W) :
  run h (call o) w = (fst (h o w), snd (h o w), [Ev o (fst (h o w))]).
Proof. unfold call; simpl. destruct (h o w); reflexivity. Qed.

Lemma rescan_answers_app t1 t2 :
  rescan_answers (t1 ++ t2) = rescan_answers t1 ++ rescan_answers t2.
Proof. apply flat_map_app. Qed.

(** Split a membership in the messages logged by a concatenated trace. *)
Ltac log_cases H :=
  unfold logged in H; simpl in H; rewrite ?flat_map_app in H; simpl in H;
  repeat match type of H with
         | In _ (_ ++ _) => apply in_app_or in H; destruct H as [H | H]
         | In _ (_ :: _) => destruct H as [H | H]; [try discriminate H |]
         | In _ [] => destruct H
         end.

Lemma importing_branch_facts {K : BusConstants} {W} (h : Handler W) (w : W)
    (config : Configuration) (forceImportDesc : bool) (b : Bus) :
  let x := run h (importing_branch config forceImportDesc b) w in
  let tr := trace_of x in
  ops_in is_decide_op tr = true /\
  count_ops is_checkpoint_dump tr = 0%nat /\
  rescan_answers tr = [] /\
  ~ In "Failed while running the numbers" (logged tr) /\
  match snd (result_of x) with
  | None =>
      Forall (eq None) (import_answers tr) /\
      ~ In "Failed while importing descriptors" (logged tr)
  | Some _ =>
      In "Failed while importing descriptors" (logged tr) ->
      IsPendingScan (fst (result_of x)) = true
  end.
Proof.
  cbv zeta. unfold importing_branch.
  assert (Himp : forall w0 b1 pre,
    ops_in is_decide_op pre = true -> count_ops is_checkpoint_dump pre = 0%nat ->
    rescan_answers pre = [] -> import_answers pre = [] ->
    (forall m, In m (logged pre) -> False) ->
    forall res w2 t,
      run h
        (bind (ImportAccounts (Accounts config)) (fun ia =>
           match ia with
           | Some e =>
               call (Log LError "Failed while importing descriptors" (Some e)) ;;;
               call SendInterrupt ;;; Ret (set_IsPendingScan b1 true, Some Interrupted)
           | None => Ret (set_IsPendingScan (set_IsPendingScan b1 true) false, None)
           end)) w0 = (res, w2, t) ->
      ops_in is_decide_op (pre ++ t) = true /\
      count_ops is_checkpoint_dump (pre ++ t) = 0%nat /\
      rescan_answers (pre ++ t) = [] /\
      ~ In "Failed while running the numbers" (logged (pre ++ t)) /\
      match snd res with
      | None =>
          Forall (eq None) (import_answers (pre ++ t)) /\
          ~ In "Failed while importing descriptors" (logged (pre ++ t))
      | Some _ =>
          In "Failed while importing descriptors" (logged (pre ++ t)) ->
          IsPendingScan (fst res) = true
      end).
  { intros w0 b1 pre P1 P2 P3 P4 P5 res w2 t Erun.
    rewrite run_bind in Erun.
    pose proof (ImportAccounts_ops h w0 (Accounts config)) as Hops.
    pose proof (ImportAccounts_logged h w0 (Accounts config)) as Hlog.
    pose proof (ImportAccounts_nil_answers h w0 (Accounts config)) as Hnil.
    destruct (run h (ImportAccounts (Accounts config)) w0) as [[ia w1] t1].
    unfold trace_of, result_of in Hops, Hlog, Hnil; simpl in Hops, Hlog, Hnil.
    destruct (import_ops_quiet _ Hops) as [Hra Hcd].
    assert (Hdo : ops_in is_decide_op t1 = true).
    { apply (ops_in_weaken is_import_op_or_log); [| exact Hops].
      intros o Ho; destruct o; simpl in *; congruence. }
    destruct ia as [e |]; simpl in Erun.
    - revert Erun. do 2 answer h. intros Erun. inversion Erun; subst; clear Erun.
      rewrite !ops_in_app, !count_ops_app, !rescan_answers_app, P1, P2, P3, Hdo, Hcd, Hra.
      simpl. repeat split; try reflexivity.
      intros Hin. log_cases Hin; try (apply (P5 _ Hin)).
      apply Hlog in Hin. discriminate Hin.
    - inversion Erun; subst; clear Erun.
      rewrite !ops_in_app, !count_ops_app, !rescan_answers_app, import_answers_app,
        P1, P2, P3, P4, Hdo, Hcd, Hra, !app_nil_r.
      simpl. repeat split; try reflexivity.
      + intros Hin. log_cases Hin; try (apply (P5 _ Hin)).
        apply Hlog in Hin. discriminate Hin.
      + apply Hnil. reflexivity.
      + intros Hin. log_cases Hin; try (apply (P5 _ Hin)).
        apply Hlog in Hin. discriminate Hin. }
  destruct forceImportDesc; cbv beta iota.
  - rewrite run_bind. rewrite run_bind. rewrite run_call.
    destruct (h (checkWalletSyncStatus b) w) as [[b1 err] w0] eqn:E. cbn [fst snd].
    destruct err as [e |].
    + simpl. do 2 answer h. unfold trace_of, result_of; simpl.
      repeat split; try reflexivity.
      * intros Hin. log_cases Hin.
      * intros Hin. log_cases Hin.
    + destruct (IsPendingScan b1) eqn:Ep.
      * rewrite run_bind, run_call.
        destruct (h AbortRescan w0) as [ar w1] eqn:E1. cbn [fst snd].
        destruct ar as [e |].
        -- simpl. answer h. unfold trace_of, result_of; simpl.
           repeat split; try reflexivity.
           ++ intros Hin. log_cases Hin.
           ++ intros Hin. log_cases Hin.
        -- simpl.
           match goal with
           | |- context [run h ?p w1] => destruct (run h p w1) as [[res w2] t] eqn:Erun
           end.
           unfold trace_of, result_of; simpl.
           apply (Himp w1 b1 [Ev (checkWalletSyncStatus b) (b1, None); Ev AbortRescan None]
                    eq_refl eq_refl eq_refl eq_refl) with (w2 := w2).
           ++ intros m Hin. log_cases Hin.
           ++ exact Erun.
      * simpl.
        match goal with
        | |- context [run h ?p w0] => destruct (run h p w0) as [[res w2] t] eqn:Erun
        end.
        unfold trace_of, result_of; simpl.
        apply (Himp w0 b1 [Ev (checkWalletSyncStatus b) (b1, None)]
                 eq_refl eq_refl eq_refl eq_refl) with (w2 := w2).
        -- intros m Hin. log_cases Hin.
        -- exact Erun.
  - simpl.
    match goal with
    | |- context [run h ?p w] => destruct (run h p w) as [[res w2] t] eqn:Erun
    end.
    unfold trace_of, result_of; simpl.
    apply (Himp w b [] eq_refl eq_refl eq_refl eq_refl) with (w2 := w2).
    + intros m [].
    + exact Erun.
Qed.

Lemma resuming_branch_facts {W} (h : Handler W) (w : W) (startHeight : Z) (b : Bus) :
  let x := run h (resuming_branch startHeight b) w in
  let tr := trace_of x in
  ops_in is_decide_op tr = true /\
  count_ops is_checkpoint_dump tr = 0%nat /\
  import_answers tr = [] /\
  ~ In "Failed while running the numbers" (logged tr) /\
  ~ In "Failed while importing descriptors" (logged tr) /\
  (snd (result_of x) = None -> Forall (eq None) (rescan_answers tr)).
Proof.
  cbv zeta. unfold resuming_branch, Bus_GetBlockCount. simpl.
  answer h. destruct r as [b1 [e |]]; simpl.
  { do 2 answer h. unfold trace_of, result_of; simpl.
    repeat split; try reflexivity; try discriminate;
      intros Hin; log_cases Hin. }
  destruct (IsPendingScan b1); simpl.
  - answer h. destruct r as [e |]; simpl.
    + do 3 answer h. destruct r1 as [e1 |]; simpl.
      * do 2 answer h. unfold trace_of, result_of; simpl.
        repeat split; try reflexivity; try discriminate;
          intros Hin; log_cases Hin.
      * unfold trace_of, result_of; simpl.
        repeat split; try reflexivity; try (intros Hin; log_cases Hin).
        repeat constructor.
    + do 2 answer h. destruct r0 as [e1 |]; simpl.
      * do 2 answer h. unfold trace_of, result_of; simpl.
        repeat split; try reflexivity; try discriminate;
          intros Hin; log_cases Hin.
      * unfold trace_of, result_of; simpl.
        repeat split; try reflexivity; try (intros Hin; log_cases Hin).
        repeat constructor.
  - do 2 answer h. destruct r0 as [e1 |]; simpl.
    + do 2 answer h. unfold trace_of, result_of; simpl.
      repeat split; try reflexivity; try discriminate;
        intros Hin; log_cases Hin.
    + unfold trace_of, result_of; simpl.
      repeat split; try reflexivity; try (intros Hin; log_cases Hin).
      repeat constructor.
Qed.

Lemma read_checkpoint_facts {W} (h : Handler W) (w : W) :
  let tr := trace_of (run h read_checkpoint w) in
  ops_in is_decide_op tr = true /\
  count_ops is_checkpoint_dump tr = 0%nat /\
  import_answers tr = [] /\ rescan_answers tr = [] /\
  ~ In "Failed while running the numbers" (logged tr) /\
  ~ In "Failed while importing descriptors" (logged tr).
Proof.
  cbv zeta. unfold read_checkpoint, getPreviousRescanBlock. simpl.
  answer h. destruct r as [c | e]; simpl.
  - unfold trace_of; simpl. repeat split; try reflexivity; intros Hin; log_cases Hin.
  - answer h. unfold trace_of; simpl.
    repeat split; try reflexivity; intros Hin; log_cases Hin.
Qed.

(** From the checkpoint read to the end of the first goroutine: the
    checkpoint is dumped exactly when the run completes, after an import
    and rescan that all succeeded; a failed import leaves the pending
    flag set. *)
Lemma decide_and_run_facts {K : BusConstants} {W} (h : Handler W) (w : W)
    (config : Configuration) (forceImportDesc isNewWallet : bool) (b : Bus) :
  let x := run h (decide_and_run config forceImportDesc isNewWallet b) w in
  let tr := trace_of x in
  ops_in is_decide_op tr = true /\
  ~ In "Failed while running the numbers" (logged tr) /\
  match snd (result_of x) with
  | Completed =>
      count_ops is_checkpoint_dump tr = 1%nat /\
      Forall (eq None) (import_answers tr) /\
      Forall (eq None) (rescan_answers tr) /\
      ~ In "Failed while importing descriptors" (logged tr)
  | _ =>
      count_ops is_checkpoint_dump tr = 0%nat /\
      (In "Failed while importing descriptors" (logged tr) ->
       IsPendingScan (fst (result_of x)) = true)
  end.
Proof.
  cbv zeta. unfold decide_and_run. rewrite run_bind.
  destruct (read_checkpoint_facts h w) as (Po & Pd & Pi & Pr & Pl1 & Pl2).
  cbv zeta in Po, Pd, Pi, Pr, Pl1, Pl2.
  destruct (run h read_checkpoint w) as [[startHeight w1] t0].
  unfold trace_of in Po, Pd, Pi, Pr, Pl1, Pl2; simpl in Po, Pd, Pi, Pr, Pl1, Pl2.
  rewrite run_bind.
  assert (Hbr : exists br w2 t1,
    run h (if forceImportDesc || isNewWallet || (startHeight =? -1)
           then importing_branch config forceImportDesc b
           else resuming_branch startHeight b) w1 = (br, w2, t1) /\
    ops_in is_decide_op t1 = true /\
    count_ops is_checkpoint_dump t1 = 0%nat /\
    ~ In "Failed while running the numbers" (logged t1) /\
    (snd br = None \/ snd br = Some Interrupted) /\
    match snd br with
    | None =>
        Forall (eq None) (import_answers t1) /\
        Forall (eq None) (rescan_answers t1) /\
        ~ In "Failed while importing descriptors" (logged t1)
    | Some _ =>
        In "Failed while importing descriptors" (logged t1) ->
        IsPendingScan (fst br) = true
    end).
  { destruct (forceImportDesc || isNewWallet || (startHeight =? -1)).
    - destruct (importing_branch_facts h w1 config forceImportDesc b)
        as (Ho & Hd & Hr & Hl & Hm).
      cbv zeta in Ho, Hd, Hr, Hl, Hm.
      destruct (importing_branch_run h w1 config forceImportDesc b) as (_ & _ & _ & He).
      cbv zeta in He.
      destruct (run h (importing_branch config forceImportDesc b) w1) as [[br w2] t1].
      unfold trace_of, result_of in *; simpl in *.
      exists br, w2, t1. split; [reflexivity |].
      split; [exact Ho |]. split; [exact Hd |]. split; [exact Hl |].
      split; [tauto |].
      destruct (snd br); [exact Hm |].
      destruct Hm as [Hi Hn]. split; [exact Hi |]. split; [rewrite Hr; constructor | exact Hn].
    - destruct (resuming_branch_facts h w1 startHeight b)
        as (Ho & Hd & Hi & Hl1 & Hl2 & Hr).
      cbv zeta in Ho, Hd, Hi, Hl1, Hl2, Hr.
      destruct (resuming_branch_run h w1 startHeight b) as (_ & _ & _ & _ & He).
      cbv zeta in He.
      destruct (run h (resuming_branch startHeight b) w1) as [[br w2] t1].
      unfold trace_of, result_of in *; simpl in *.
      exists br, w2, t1. split; [reflexivity |].
      split; [exact Ho |]. split; [exact Hd |]. split; [exact Hl1 |].
      split; [tauto |].
      destruct (snd br).
      + intros Hin. contradiction.
      + split; [rewrite Hi; constructor |]. split; [apply Hr; reflexivity | exact Hl2]. }
  destruct Hbr as (br & w2 & t1 & Erun & Ho & Hd & Hl & He & Hm).
  rewrite Erun. destruct br as [b1 ended]. simpl in Hm, He.
  assert (Hlogs : forall post m,
    In m (logged (t0 ++ t1 ++ post)) ->
    In m (logged t0) \/ In m (logged t1) \/ In m (logged post)).
  { intros post m Hin. rewrite !logged_app in Hin.
    apply in_app_or in Hin. destruct Hin as [Hin | Hin]; [left; exact Hin |].
    apply in_app_or in Hin. tauto. }
  destruct He as [He | He]; subst ended; simpl.
  2: {
    unfold trace_of, result_of; simpl. rewrite ?app_nil_r.
    rewrite ops_in_app, count_ops_app, Po, Pd, Ho, Hd.
    split; [reflexivity |]. split.
    { intros Hin. rewrite logged_app in Hin. apply in_app_or in Hin. tauto. }
    assert (Hgoal : (0 + 0 = 0)%nat /\
                    (In "Failed while importing descriptors" (logged (t0 ++ t1)) ->
                     IsPendingScan b1 = true)).
    { split; [lia |]. intros Hin. rewrite logged_app in Hin.
      apply in_app_or in Hin. destruct Hin as [Hin | Hin]; [contradiction |].
      apply Hm. exact Hin. }
    exact Hgoal. }
  - destruct Hm as (Hia & Hra & Hl2).
    answer h. destruct r as [e |]; simpl.
    + do 2 answer h. unfold trace_of, result_of; simpl.
      rewrite !ops_in_app, !count_ops_app, !import_answers_app, !rescan_answers_app,
        Po, Pd, Pi, Pr, Ho, Hd. simpl. rewrite !app_nil_r.
      split; [reflexivity |]. split.
      { intros Hin. apply Hlogs in Hin. destruct Hin as [Hin | [Hin | Hin]];
          try contradiction; log_cases Hin. }
      split; [reflexivity |]. split; [exact Hia |]. split; [exact Hra |].
      intros Hin. apply Hlogs in Hin. destruct Hin as [Hin | [Hin | Hin]];
        try contradiction; log_cases Hin.
    + answer h. unfold trace_of, result_of; simpl.
      rewrite !ops_in_app, !count_ops_app, !import_answers_app, !rescan_answers_app,
        Po, Pd, Pi, Pr, Ho, Hd. simpl. rewrite !app_nil_r.
      split; [reflexivity |]. split.
      { intros Hin. apply Hlogs in Hin. destruct Hin as [Hin | [Hin | Hin]];
          try contradiction; log_cases Hin. }
      split; [reflexivity |]. split; [exact Hia |]. split; [exact Hra |].
      intros Hin. apply Hlogs in Hin. destruct Hin as [Hin | [Hin | Hin]];
        try contradiction; log_cases Hin.
Qed.

Lemma waitForIBD_logged {W} (h : Handler W) :
  forall (fuel : nat) (w : W) (m : string),
    In m (logged (trace_of (run h (waitForIBD fuel) w))) ->
    m = "Performing Initial Block Download" \/ m = "Initial Block Download complete".
Proof.
  induction fuel as [| fuel IH]; intros w m; simpl; [intros [] |].
  answer h. destruct r as [raw | e]; simpl; [| intros []].
  answer h. destruct r as [info | e]; simpl; [| intros []].
  destruct (negb (Z.eqb (Blocks info) (Headers info))); simpl.
  - do 2 answer h. specialize (IH w3 m).
    destruct (run h (waitForIBD fuel) w3) as [[res w4] t].
    unfold trace_of in *; simpl in *. unfold logged in *. simpl.
    intros [Hm | Hin]; [left; symmetry; exact Hm | apply IH; exact Hin].
  - answer h. unfold trace_of; simpl. unfold logged. simpl.
    intros [Hm | []]. right; symmetry; exact Hm.
Qed.

Lemma runTheNumbers_facts {W} (h : Handler W) (w : W) :
  let tr := trace_of (run h runTheNumbers w) in
  snapshots tr = [] /\ count_ops is_checkpoint_dump tr = 0%nat /\
  import_answers tr = [] /\ rescan_answers tr = [] /\
  logged tr = ["Computing circulating supply..."] /\
  ops_in (fun o => is_audit_op o || is_ibd_op o) tr = true.
Proof.
  cbv zeta. unfold runTheNumbers. simpl.
  do 2 answer h. destruct r0 as [info | e]; simpl; [| repeat split; reflexivity].
  answer h. destruct r0 as [amount | e]; simpl; [| repeat split; reflexivity].
  answer h. repeat split; reflexivity.
Qed.

(** The whole first goroutine, by parts. *)
Lemma orchestrator_facts {K : BusConstants} {W} (h : Handler W) (w : W) (fuel : nat)
    (config : Configuration) (circulationCheck forceImportDesc isNewWallet : bool)
    (b : Bus) :
  let x := run h (orchestrator fuel config circulationCheck forceImportDesc
                    isNewWallet b) w in
  let tr := trace_of x in
  match snd (result_of x) with
  | Completed =>
      count_ops is_checkpoint_dump tr = 1%nat /\
      Forall (eq None) (import_answers tr) /\
      Forall (eq None) (rescan_answers tr) /\
      ~ In "Failed while running the numbers" (logged tr) /\
      ~ In "Failed while importing descriptors" (logged tr)
  | _ =>
      count_ops is_checkpoint_dump tr = 0%nat /\
      (In "Failed while running the numbers" (logged tr) \/
       In "Failed while importing descriptors" (logged tr) ->
       IsPendingScan (fst (result_of x)) = true)
  end /\
  (forallb (fun i => negb (in_sync i)) (snapshots tr) = true ->
   ops_in (fun o => is_ibd_op o || is_interrupt o) tr = true) /\
  (circulationCheck = false -> count_ops is_audit_op tr = 0%nat).
Proof.
  cbv zeta. unfold orchestrator. rewrite run_bind.
  pose proof (waitForIBD_shape h fuel w) as Hibd. cbv zeta in Hibd.
  pose proof (waitForIBD_logged h fuel w) as Hlog0.
  destruct (run h (waitForIBD fuel) w) as [[ibd w1] t0].
  unfold trace_of, result_of in Hibd, Hlog0; simpl in Hibd, Hlog0.
  destruct Hibd as (Ho0 & _ & Hres0).
  destruct (ibd_ops_quiet _ Ho0) as (Ha0 & Hd0 & Hi0 & Hr0).
  assert (Hidle0 : ops_in (fun o => is_ibd_op o || is_interrupt o) t0 = true).
  { apply (ops_in_weaken is_ibd_op); [| exact Ho0]. intros o Hx; rewrite Hx; reflexivity. }
  assert (Hnl0 : forall m, In m (logged t0) ->
                 m <> "Failed while running the numbers" /\
                 m <> "Failed while importing descriptors").
  { intros m Hin. destruct (Hlog0 m Hin) as [Hm | Hm]; subst m; split; discriminate. }
  assert (Hdec : forall b' w' pre,
    count_ops is_checkpoint_dump pre = 0%nat ->
    import_answers pre = [] -> rescan_answers pre = [] ->
    (forall m, In m (logged pre) ->
       m <> "Failed while running the numbers" /\
       m <> "Failed while importing descriptors") ->
    (exists last, In last (snapshots pre) /\ in_sync last = true) ->
    (circulationCheck = false -> count_ops is_audit_op pre = 0%nat) ->
    forall res w2 t,
      run h (decide_and_run config forceImportDesc isNewWallet b') w' = (res, w2, t) ->
      match snd res with
      | Completed =>
          count_ops is_checkpoint_dump (pre ++ t) = 1%nat /\
          Forall (eq None) (import_answers (pre ++ t)) /\
          Forall (eq None) (rescan_answers (pre ++ t)) /\
          ~ In "Failed while running the numbers" (logged (pre ++ t)) /\
          ~ In "Failed while importing descriptors" (logged (pre ++ t))
      | _ =>
          count_ops is_checkpoint_dump (pre ++ t) = 0%nat /\
          (In "Failed while running the numbers" (logged (pre ++ t)) \/
           In "Failed while importing descriptors" (logged (pre ++ t)) ->
           IsPendingScan (fst res) = true)
      end /\
      (forallb (fun i => negb (in_sync i)) (snapshots (pre ++ t)) = true ->
       ops_in (fun o => is_ibd_op o || is_interrupt o) (pre ++ t) = true) /\
      (circulationCheck = false -> count_ops is_audit_op (pre ++ t) = 0%nat)).
  { intros b' w' pre P1 P2 P3 P4 (last & Hlast & Hsync) P5 res w2 t Erun.
    pose proof (decide_and_run_facts h w' config forceImportDesc isNewWallet b') as Hf.
    cbv zeta in Hf. rewrite Erun in Hf. unfold trace_of, result_of in Hf; simpl in Hf.
    destruct Hf as (Ho & Hl & Hm).
    destruct (decide_ops_quiet _ Ho) as (Hs & _ & Ha).
    rewrite !count_ops_app, import_answers_app, rescan_answers_app, logged_app,
      snapshots_app, P1, P2, P3, Hs, Ha, app_nil_r. simpl.
    assert (Hpre : forall m, (m = "Failed while running the numbers" \/
                              m = "Failed while importing descriptors") ->
                             ~ In m (logged pre)).
    { intros m Hm' Hin. destruct (P4 m Hin) as [H1 H2]. destruct Hm'; contradiction. }
    split; [| split].
    - destruct (snd res).
      + destruct Hm as [Hc Hflag]. split; [exact Hc |].
        intros [Hin | Hin]; apply in_app_or in Hin; destruct Hin as [Hin | Hin].
        * exfalso. apply (Hpre _ (or_introl eq_refl) Hin).
        * contradiction.
        * exfalso. apply (Hpre _ (or_intror eq_refl) Hin).
        * apply Hflag. exact Hin.
      + destruct Hm as [Hc Hflag]. split; [exact Hc |].
        intros [Hin | Hin]; apply in_app_or in Hin; destruct Hin as [Hin | Hin].
        * exfalso. apply (Hpre _ (or_introl eq_refl) Hin).
        * contradiction.
        * exfalso. apply (Hpre _ (or_intror eq_refl) Hin).
        * apply Hflag. exact Hin.
      + destruct Hm as (Hc & Hia & Hra & Hl2).
        split; [exact Hc |]. split; [exact Hia |]. split; [exact Hra |]. split.
        * intros Hin. apply in_app_or in Hin. destruct Hin as [Hin | Hin];
            [apply (Hpre _ (or_introl eq_refl) Hin) | contradiction].
        * intros Hin. apply in_app_or in Hin. destruct Hin as [Hin | Hin];
            [apply (Hpre _ (or_intror eq_refl) Hin) | contradiction].
    - intros Hall. exfalso. rewrite forallb_forall in Hall.
      specialize (Hall last Hlast). rewrite Hsync in Hall. discriminate Hall.
    - intros Hcc. rewrite (P5 Hcc). reflexivity. }
  destruct ibd as [[e |] |]; cbv beta iota.
  - simpl. do 2 answer h. unfold trace_of, result_of; simpl.
    rewrite !count_ops_app, ops_in_app, logged_app, Hd0, Ha0, Hidle0. simpl.
    split; [| split; [reflexivity | reflexivity]].
    split; [reflexivity |].
    intros [Hin | Hin]; apply in_app_or in Hin; destruct Hin as [Hin | Hin];
      try (destruct (Hnl0 _ Hin) as [H1 H2]; congruence);
      log_cases Hin.
  - destruct Hres0 as (earlier & last & Hs & Hsync & _).
    assert (Hlast : exists l, In l (snapshots t0) /\ in_sync l = true).
    { exists last. split; [rewrite Hs; apply in_or_app; right; left; reflexivity | exact Hsync]. }
    destruct circulationCheck.
    + rewrite run_bind.
      destruct (runTheNumbers_facts h w1) as (Hs1 & Hd1 & Hi1 & Hr1 & Hl1 & Ho1).
      cbv zeta in Hs1, Hd1, Hi1, Hr1, Hl1, Ho1.
      destruct (run h runTheNumbers w1) as [[rn w2] t1].
      unfold trace_of in Hs1, Hd1, Hi1, Hr1, Hl1, Ho1;
        simpl in Hs1, Hd1, Hi1, Hr1, Hl1, Ho1.
      destruct rn as [e |]; cbv beta iota.
      * simpl. do 2 answer h. unfold trace_of, result_of; simpl.
        rewrite !count_ops_app, !snapshots_app, Hd0, Hd1, Hs1. simpl.
        split; [| split; [| discriminate]].
        -- split; reflexivity.
        -- intros Hall. exfalso. rewrite app_nil_r, forallb_forall in Hall.
           destruct Hlast as (l & Hl & Hsy). specialize (Hall l Hl).
           rewrite Hsy in Hall. discriminate Hall.
      * destruct (run h (decide_and_run config forceImportDesc isNewWallet _) w2)
          as [[res w3] t2] eqn:Erun.
        unfold trace_of, result_of; simpl. rewrite app_assoc.
        eapply (Hdec _ _ (t0 ++ t1)); [| | | | | | exact Erun].
        -- rewrite count_ops_app, Hd0, Hd1. reflexivity.
        -- rewrite import_answers_app, Hi0, Hi1. reflexivity.
        -- rewrite rescan_answers_app, Hr0, Hr1. reflexivity.
        -- intros m Hin. rewrite logged_app, Hl1 in Hin.
           apply in_app_or in Hin. destruct Hin as [Hin | [Hin | []]].
           ++ apply Hnl0; exact Hin.
           ++ subst m. split; discriminate.
        -- destruct Hlast as (l & Hl & Hsy). exists l.
           split; [rewrite snapshots_app; apply in_or_app; left; exact Hl | exact Hsy].
        -- discriminate.
    + destruct (run h (decide_and_run config forceImportDesc isNewWallet b) w1)
        as [[res w3] t2] eqn:Erun.
      unfold trace_of, result_of; simpl.
      eapply (Hdec _ _ t0 Hd0 Hi0 Hr0 Hnl0 Hlast); [| exact Erun].
      intros _. exact Ha0.
  - unfold trace_of, result_of; simpl. rewrite app_nil_r.
    split; [| split; [intros _; exact Hidle0 | intros _; exact Ha0]].
    split; [exact Hd0 |].
    intros [Hin | Hin]; destruct (Hnl0 _ Hin) as [H1 H2]; congruence.
Qed.



(** X15.  A failed audit or a failed import leaves the pending flag set.  When
    the worker logged that running the numbers or importing descriptors
    failed, its first goroutine has returned without completing and
    [b.IsPendingScan] is still true, so every later [GetStatus] on that bus
    answers [PendingScan] without asking the node. *)
Theorem failure_leaves_pending_flag_set :
  forall (K : BusConstants) (W : Type) (h : Handler W) (w : W) (fuel : nat)
         (config : Configuration)
         (circulationCheck forceImportDesc isNewWallet : bool) (b : Bus),
    let x := run h (orchestrator fuel config circulationCheck forceImportDesc
                      isNewWallet b) w in
    In "Failed while running the numbers" (logged (trace_of x)) \/
    In "Failed while importing descriptors" (logged (trace_of x)) ->
    snd (result_of x) <> Completed /\
    IsPendingScan (fst (result_of x)) = true /\
    forall (W' : Type) (h' : Handler W') (w' : W') (version_Version : string),
    exists st,
      run h' (GetStatus version_Version {| Bus_ := fst (result_of x) |}) w'
        = (Some st, w', []) /\
      Status_ st = PendingScan.
Proof.
  intros K W h w fuel config cc force isNew b. cbv zeta. intros Hlog.
  destruct (orchestrator_facts h w fuel config cc force isNew b) as (Hm & _ & _).
  cbv zeta in Hm.
  assert (Hflag : snd (result_of (run h (orchestrator fuel config cc force isNew b) w))
                    <> Completed /\
                  IsPendingScan
                    (fst (result_of (run h (orchestrator fuel config cc force isNew b) w)))
                    = true).
  { destruct (snd (result_of (run h (orchestrator fuel config cc force isNew b) w))).
    - destruct Hm as [_ Hf]. split; [discriminate | exact (Hf Hlog)].
    - destruct Hm as [_ Hf]. split; [discriminate | exact (Hf Hlog)].
    - destruct Hm as (_ & _ & _ & H1 & H2). destruct Hlog; contradiction. }
  destruct Hflag as [Hne Hflag]. split; [exact Hne |]. split; [exact Hflag |].
  intros W' h' w' v. unfold GetStatus. simpl. rewrite Hflag.
  eexists. split; reflexivity.
Qed.

Lemma failure_leaves_pending_flag_set_witness :
  let x := run audit_failing_node
             (orchestrator 3 example_config true false false example_bus) tt in
  IsPendingScan example_bus = false /\
  IsPendingScan (fst (result_of x)) = true /\
  count_ops is_interrupt (trace_of x) = 1%nat.
Proof.
  cbv zeta.
  destruct (failure_leaves_pending_flag_set example_constants audit_failing_node tt 3
              example_config true false false example_bus) as (_ & Hflag & _).
  - left. vm_compute. repeat (first [left; reflexivity | right]).
  - split; [reflexivity |]. split; [exact Hflag | reflexivity].
Defined.

(** X16.  Until a chain snapshot shows [blocks] equal to [headers] the worker
    only polls: as long as every snapshot of the run differs, the first
    goroutine has made no call but the raw request, its decoding, logging
    and sleeping, and the interrupt if the poll failed.  Without the
    circulation check it never calls the supply audit. *)
Theorem worker_idle_until_synced :
  forall (K : BusConstants) (W : Type) (h : Handler W) (w : W) (fuel : nat)
         (config : Configuration)
         (circulationCheck forceImportDesc isNewWallet : bool) (b : Bus),
    let tr := trace_of (run h (orchestrator fuel config circulationCheck forceImportDesc
                                 isNewWallet b) w) in
    (forallb (fun i => negb (in_sync i)) (snapshots tr) = true ->
     ops_in (fun o => is_ibd_op o || is_interrupt o) tr = true) /\
    (circulationCheck = false -> count_ops is_audit_op tr = 0%nat).
Proof.
  intros K W h w fuel config cc force isNew b. cbv zeta.
  exact (proj2 (orchestrator_facts h w fuel config cc force isNew b)).
Qed.

Lemma worker_idle_until_synced_witness :
  let tr := trace_of (run catching_up_node
                        (orchestrator 2 example_config false false false example_bus)
                        5%nat) in
  List.length (snapshots tr) = 2%nat /\
  ops_in (fun o => is_ibd_op o || is_interrupt o) tr = true /\
  count_ops is_audit_op tr = 0%nat.
Proof.
  cbv zeta.
  destruct (worker_idle_until_synced example_constants catching_up_node 5%nat 2
              example_config false false false example_bus) as [Hidle Haudit].
  split; [reflexivity |]. split; [apply Hidle; reflexivity | apply Haudit; reflexivity].
Defined.

(** X17.  A scan found running cannot always be aborted.  When the wallet
    status check reports a scan and [AbortRescan] fails: the forced
    import gives up at once, sending the interrupt without logging and
    without touching the import coordinator; the resuming path logs the
    failure and still requests its rescan from the checkpoint. *)
Theorem abort_failure_fatal_only_when_forced :
  forall (K : BusConstants) (W : Type) (h : Handler W) (w w1 w2 : W)
         (config : Configuration) (startHeight : Z) (b b1 : Bus) (e : error),
    h (checkWalletSyncStatus b) w = ((b1, None), w1) ->
    IsPendingScan b1 = true ->
    h AbortRescan w1 = (Some e, w2) ->
    (result_of (run h (importing_branch config true b) w) = (b1, Some Interrupted) /\
     map ev_op (trace_of (run h (importing_branch config true b) w)) =
       [checkWalletSyncStatus b; AbortRescan; SendInterrupt]) /\
    (In "Failed to abort rescan"
        (logged (trace_of (run h (resuming_branch startHeight b) w))) /\
     exists tip,
       rescans (trace_of (run h (resuming_branch startHeight b) w)) = [(startHeight, tip)]).
Proof.
  intros K W h w w1 w2 config startHeight b b1 e Hc Hp Ha. split.
  - unfold importing_branch. simpl. rewrite Hc. simpl. rewrite Hp. simpl.
    rewrite Ha. simpl. answer h. split; reflexivity.
  - unfold resuming_branch, Bus_GetBlockCount. simpl. rewrite Hc. simpl. rewrite Hp. simpl.
    rewrite Ha. simpl. do 3 answer h. destruct r1 as [e1 |]; simpl.
    + do 2 answer h. unfold trace_of; simpl.
      split; [left; reflexivity | exists (fst r0); reflexivity].
    + unfold trace_of; simpl.
      split; [left; reflexivity | exists (fst r0); reflexivity].
Qed.

Lemma abort_failure_fatal_only_when_forced_witness :
  result_of (run stuck_scan_node (importing_branch example_config true example_bus) tt)
    = (set_IsPendingScan example_bus true, Some Interrupted) /\
  exists tip,
    rescans (trace_of (run stuck_scan_node (resuming_branch 700000 example_bus) tt))
      = [(700000, tip)].
Proof.
  destruct (@abort_failure_fatal_only_when_forced example_constants unit stuck_scan_node
              tt tt tt example_config 700000 example_bus
              (set_IsPendingScan example_bus true) (NodeError "no scan to abort")
              eq_refl eq_refl eq_refl) as [[Hforced _] [_ [tip Hresume]]].
  split; [exact Hforced |]. exists tip. exact Hresume.
Defined.

(** X18.  The supply audit is advisory.  [runTheNumbers] returns nil exactly
    when reading the transaction-output set and converting the expected
    supply both succeed, whatever total the node reports; a failure of
    either comes back as it is. *)
Theorem runTheNumbers_advisory :
  forall (W : Type) (h : Handler W) (w : W),
    let x := run h runTheNumbers w in
    (result_of x = None <-> failures (trace_of x) = []) /\
    (forall o err, In (o, err) (failures (trace_of x)) -> result_of x = Some err) /\
    (result_of x = None <-> count_ops is_audit_op (trace_of x) = 3%nat).
Proof.
  intros W h w. cbv zeta. unfold runTheNumbers, result_of, trace_of. simpl.
  do 2 answer h. destruct r0 as [info | e]; simpl.
  2: { split; [split; discriminate |]. split; [| split; discriminate].
       intros o err [Heq | []]. inversion Heq; reflexivity. }
  answer h. destruct r0 as [amount | e]; simpl.
  2: { split; [split; discriminate |]. split; [| split; discriminate].
       intros o err [Heq | []]. inversion Heq; reflexivity. }
  answer h. split; [split; reflexivity |]. split; [intros o err [] | split; reflexivity].
Qed.

(** X19.  Below the first halving, and for a negative height, the audit loop
    does not run: the expected supply is the initial 0 plus 50 times the
    height converted to [float64]. *)
Theorem expectedSupply_first_epoch :
  forall height : Z,
    height < 210000 ->
    expectedSupply height = (0 + 50 * float64_of_int64 height)%float.
Proof.
  intros height Hh. unfold expectedSupply.
  assert (Hq : Z.to_nat (Z.quot height halvingBlocks) = 0%nat).
  { unfold halvingBlocks. destruct (Z.le_gt_cases 0 height) as [Hpos | Hneg].
    - rewrite Z.quot_small by lia. reflexivity.
    - assert (Z.quot height 210000 <= 0); [| lia].
      rewrite <- (Z.opp_involutive height), Z.quot_opp_l by lia.
      assert (0 <= Z.quot (- height) 210000) by (apply Z.quot_pos; lia). lia. }
  rewrite Hq. cbn [halving_loop]. unfold halvingBlocks.
  replace (height - 210000 * 0) with height by lia. reflexivity.
Qed.

Lemma expectedSupply_first_epoch_witness :
  expectedSupply 209999 = 10499950%float /\ expectedSupply (-1) = (-50)%float.
Proof.
  split.
  - rewrite (@expectedSupply_first_epoch 209999) by lia. vm_compute. reflexivity.
  - rewrite (@expectedSupply_first_epoch (-1)) by lia. vm_compute. reflexivity.
Defined.

(** ** Fee estimates and blocks *)

Lemma FormatInt_injective (a b : Z) : Ext.FormatInt a = Ext.FormatInt b -> a = b.
Proof.
  unfold Ext.FormatInt. intros H.
  apply (f_equal NilEmpty.int_of_string) in H. rewrite !NilEmpty.isi in H.
  inversion H as [H']. apply (f_equal Z.of_int) in H'.
  rewrite !DecimalZ.of_to in H'. exact H'.
Qed.

Lemma FormatInt_not_last_updated (z : Z) : Ext.FormatInt z <> "last_updated".
Proof.
  unfold Ext.FormatInt. intros H.
  apply (f_equal NilEmpty.int_of_string) in H. rewrite NilEmpty.isi in H.
  vm_compute in H. discriminate H.
Qed.

Section FeesAndBlocks.

Variable Fee : Type.
Variable Timestamp : Type.
Variable ParseUnixTimestamp : Z -> Timestamp.

Lemma map_get_set_same (k : string) (v : Ext.FeeEntry Fee) (m : Ext.gomap Fee) :
  Ext.map_get k (Ext.map_set k v m) = Some v.
Proof. unfold Ext.map_get, Ext.map_set. simpl. rewrite String.eqb_refl. reflexivity. Qed.

Lemma map_get_set_other (k k' : string) (v : Ext.FeeEntry Fee) (m : Ext.gomap Fee) :
  k <> k' -> Ext.map_get k (Ext.map_set k' v m) = Ext.map_get k m.
Proof.
  intros Hne. unfold Ext.map_get, Ext.map_set. simpl.
  destruct (String.eqb_spec k' k) as [Heq | _]; [congruence |].
  induction m as [| [k0 v0] m IH]; simpl; [reflexivity |].
  destruct (String.eqb_spec k0 k') as [Heq | Hn]; simpl.
  - subst k0. destruct (String.eqb_spec k' k) as [Heq | _]; [congruence | exact IH].
  - destruct (String.eqb k0 k); [reflexivity | exact IH].
Qed.

Lemma xrun_bind {W A B} (h : Ext.XHandler Fee W) (p : Ext.XProg Fee A)
    (f : A -> Ext.XProg Fee B) (w : W) :
  Ext.xrun h (Ext.xbind p f) w =
  let '(a, w1, t1) := Ext.xrun h p w in
  let '(b, w2, t2) := Ext.xrun h (f a) w1 in
  (b, w2, t1 ++ t2).
Proof.
  revert w. induction p as [a | o k IH]; intros w; simpl.
  - destruct (Ext.xrun h (f a) w) as [[b w2] t2]; reflexivity.
  - destruct (h o w) as [r w1]. rewrite IH.
    destruct (Ext.xrun h (k r) w1) as [[a w2] t1].
    destruct (Ext.xrun h (f a) w2) as [[b w3] t2]; reflexivity.
Qed.

Lemma GetFees_loop_run {W} (h : Ext.XHandler Fee W) (mode : string) :
  forall (targets : list Z) (acc : Ext.gomap Fee) (w : W),
    let x := Ext.xrun h (Ext.GetFees_loop targets mode acc) w in
    let m := fst (fst x) in
    let tr := snd x in
    map (fun e => fst e) (Ext.estimates tr) = map (fun t => (t, mode)) targets /\
    Ext.times tr = [] /\
    (forall k, (forall t, In t targets -> k <> Ext.FormatInt t) ->
               Ext.map_get k m = Ext.map_get k acc) /\
    (forall t, In t targets ->
               exists fee, Ext.map_get (Ext.FormatInt t) m = Some (Ext.FeeValue fee) /\
                           In (t, mode, fee) (Ext.estimates tr)).
Proof.
  induction targets as [| target rest IH]; intros acc w; cbv zeta; simpl.
  - split; [reflexivity |]. split; [reflexivity |].
    split; [intros k _; reflexivity | intros t []].
  - destruct (h (Ext.EstimateSmartFee target mode) w) as [fee w1] eqn:E. simpl in fee.
    specialize (IH (Ext.map_set (Ext.FormatInt target) (Ext.FeeValue fee) acc) w1).
    cbv zeta in IH.
    destruct (Ext.xrun h (Ext.GetFees_loop rest mode _) w1) as [[m w2] tr].
    simpl in *. destruct IH as (Hreq & Htimes & Hother & Hin).
    unfold Ext.estimates, Ext.times in *. simpl.
    split; [f_equal; exact Hreq |]. split; [exact Htimes |]. split.
    + intros k Hk. rewrite Hother by (intros t Ht; apply Hk; right; exact Ht).
      apply map_get_set_other. apply Hk. left; reflexivity.
    + intros t [Heq | Ht].
      * subst t. destruct (in_dec Z.eq_dec target rest) as [Hr | Hnr].
        -- destruct (Hin target Hr) as [fee' [Hg Hi]]. exists fee'.
           split; [exact Hg | right; exact Hi].
        -- exists fee. split; [| left; reflexivity].
           rewrite Hother.
           ++ apply map_get_set_same.
           ++ intros t Ht Heq. apply FormatInt_injective in Heq. subst t. contradiction.
      * destruct (Hin t Ht) as [fee' [Hg Hi]]. exists fee'.
        split; [exact Hg | right; exact Hi].
Qed.

(** X20.  The fee table.  [GetFees] asks one estimate per target, in order and
    with the given mode, then reads the clock once.  The map it returns
    holds, under the decimal text of each target, a fee the node answered
    for that target, and under ["last_updated"] the clock reading
    converted to [int32]; it holds nothing else, and the time stamp never
    takes the place of a fee. *)
Theorem GetFees_table :
  forall (W : Type) (h : Ext.XHandler Fee W) (w : W) (targets : list Z) (mode : string),
    let x := Ext.xrun h (Ext.GetFees Fee targets mode) w in
    let m := fst (fst x) in
    let tr := snd x in
    map (fun e => fst e) (Ext.estimates tr) = map (fun t => (t, mode)) targets /\
    (exists now, Ext.times tr = [now] /\
                 Ext.map_get "last_updated" m = Some (Ext.LastUpdated Fee (Ext.int32 now)) /\
                 - 2 ^ 31 <= Ext.int32 now < 2 ^ 31) /\
    (forall t, In t targets ->
               exists fee, Ext.map_get (Ext.FormatInt t) m = Some (Ext.FeeValue fee) /\
                           In (t, mode, fee) (Ext.estimates tr)) /\
    (forall k, k <> "last_updated" ->
               (forall t, In t targets -> k <> Ext.FormatInt t) ->
               Ext.map_get k m = None).
Proof.
  intros W h w targets mode. cbv zeta. unfold Ext.GetFees.
  pose proof (GetFees_loop_run h mode targets [] w) as Hl. cbv zeta in Hl.
  rewrite xrun_bind.
  destruct (Ext.xrun h (Ext.GetFees_loop targets mode []) w) as [[m0 w1] t0].
  simpl in Hl. destruct Hl as (Hreq & Htimes & Hother & Hin).
  simpl. destruct (h Ext.TimeNowUnix w1) as [now w2] eqn:E. simpl in now. simpl.
  unfold Ext.estimates, Ext.times in *. rewrite !flat_map_app, Htimes. simpl.
  rewrite app_nil_r.
  split; [exact Hreq |]. split; [| split].
  - exists now. split; [reflexivity |]. split; [apply map_get_set_same |].
    unfold Ext.int32.
    pose proof (Z.mod_pos_bound (now + 2 ^ 31) (2 ^ 32) ltac:(lia)). lia.
  - intros t Ht. destruct (Hin t Ht) as [fee [Hg Hi]]. exists fee.
    split; [| exact Hi].
    rewrite map_get_set_other by apply FormatInt_not_last_updated. exact Hg.
  - intros k Hk Hnot. rewrite map_get_set_other by exact Hk.
    rewrite (Hother k Hnot). reflexivity.
Qed.

Lemma slice_set_middle (pre : list string) (x v : string) (rest : list string) :
  Ext.slice_set (pre ++ x :: rest) (List.length pre) v = Some (pre ++ v :: rest).
Proof.
  induction pre as [| p pre IH]; simpl; [reflexivity |]. rewrite IH. reflexivity.
Qed.

Lemma copy_loop_copies :
  forall (tx pre dst : list string),
    List.length dst = List.length tx ->
    Ext.copy_loop (List.length pre) tx (pre ++ dst) = Some (pre ++ tx).
Proof.
  induction tx as [| t tx IH]; intros pre dst Hlen; simpl.
  - destruct dst; [reflexivity | discriminate Hlen].
  - destruct dst as [| d dst]; [discriminate Hlen |].
    rewrite slice_set_middle.
    replace (pre ++ t :: dst) with ((pre ++ [t]) ++ dst) by (rewrite <- app_assoc; reflexivity).
    replace (S (List.length pre)) with (List.length (pre ++ [t]))
      by (rewrite length_app; simpl; lia).
    rewrite IH by (simpl in Hlen; lia).
    rewrite <- app_assoc. reflexivity.
Qed.

(** X21.  Reading a block.  [GetBlock] makes one call.  A failed call comes
    back as its error, with no block.  Otherwise the copy loop never
    indexes out of range and the block returned carries the node's hash
    and height, the parsed time and the node's transaction list, same
    length and same order. *)
Theorem GetBlock_copies_transactions :
  forall (W : Type) (h : Ext.XHandler Fee W) (w : W) (hash : string),
    let x := Ext.xrun h (Ext.GetBlock Fee ParseUnixTimestamp hash) w in
    map (@Ext.xev_op Fee) (snd x) = [Ext.GetBlockVerbose hash] /\
    match fst (h (Ext.GetBlockVerbose hash) w) with
    | Err err => fst (fst x) = Some (Err err)
    | Ok nativeBlock =>
        fst (fst x) =
          Some (Ok {| Ext.Hash := Ext.NativeHash nativeBlock;
                      Ext.BlockHeight := Ext.NativeHeight nativeBlock;
                      Ext.Time := ParseUnixTimestamp (Ext.NativeTime nativeBlock);
                      Ext.Transactions := Some (Ext.Tx nativeBlock) |})
    end.
Proof.
  intros W h w hash. cbv zeta. unfold Ext.GetBlock. simpl.
  destruct (h (Ext.GetBlockVerbose hash) w) as [r w1] eqn:E. simpl in r.
  destruct r as [nativeBlock | err]; simpl; [| split; reflexivity].
  unfold Ext.block_of.
  pose proof (copy_loop_copies (Ext.Tx nativeBlock) []
                (repeat EmptyString (List.length (Ext.Tx nativeBlock)))
                (repeat_length _ _)) as Hc.
  simpl in Hc. rewrite Hc. simpl. split; reflexivity.
Qed.

End FeesAndBlocks.

Lemma GetFees_table_witness :
  let x := Ext.xrun fee_node (Ext.GetFees Z [2; 6; 2] "CONSERVATIVE") 0%nat in
  Ext.map_get "6" (fst (fst x)) = Some (Ext.FeeValue 6000) /\
  exists fee, Ext.map_get "2" (fst (fst x)) = Some (Ext.FeeValue fee) /\
              In (2, "CONSERVATIVE", fee) (Ext.estimates (snd x)).
Proof.
  cbv zeta. split; [reflexivity |].
  destruct (@GetFees_table Z nat fee_node 0%nat [2; 6; 2] "CONSERVATIVE")
    as (_ & _ & Hfee & _).
  apply (Hfee 2). left. reflexivity.
Defined.

(** ** The further properties at work on concrete nodes *)

Lemma GetHealth_errors_witness :
  result_of (run rpc_failing_node (GetHealth example_service) tt)
    = Some (NodeError "EOF") /\
  result_of (run healthy_node (GetHealth example_service) tt) = None.
Proof.
  destruct (GetHealth_errors rpc_failing_node tt example_service) as [_ Hbad].
  destruct (GetHealth_errors healthy_node tt example_service) as [Hgood _].
  split.
  - apply (Hbad (RawRequest (factoryClient 0) "getblockchaininfo") (NodeError "EOF")).
    left. reflexivity.
  - apply Hgood. reflexivity.
Defined.

Lemma GetStatus_decision_table_witness :
  exists st,
    result_of (run healthy_node (GetStatus "1.0" example_service) tt) = Some st /\
    Status_ st = Ready.
Proof.
  destruct (GetStatus_decision_table healthy_node tt "1.0" example_service)
    as (st & Hres & _ & _ & _ & _ & Hready).
  exists st. split; [exact Hres |].
  apply Hready. exists {| ScanningValue_ := ScanBool false |}. split; reflexivity.
Defined.

Lemma GetStatus_fields_witness :
  exists st,
    result_of (run syncing_node (GetStatus "1.0" example_service) tt) = Some st /\
    SyncProgress st = Some 37%float /\ Chain st = "main".
Proof.
  destruct (GetStatus_fields syncing_node tt "1.0" example_service)
    as (st & Hres & (_ & _ & _ & Hchain & _) & _ & _ & Hsync & _).
  exists st. split; [exact Hres |]. split; [| exact Hchain].
  rewrite (Hsync syncing_info eq_refl eq_refl). reflexivity.
Defined.

Lemma GetStatus_queries_once_witness :
  count_ops is_wallet_poll
    (trace_of (run healthy_node (GetStatus "1.0" example_service) tt)) = 1%nat /\
  count_ops is_raw_request
    (trace_of (run healthy_node (GetStatus "1.0" example_service) tt)) = 1%nat.
Proof.
  destruct (GetStatus_queries_once healthy_node tt "1.0" example_service)
    as (_ & _ & _ & Hwallet & Hraw).
  split.
  - apply Hwallet. eexists. split; reflexivity.
  - apply Hraw. discriminate.
Defined.

Lemma client_shut_down_last_witness :
  option_map ev_op
    (last_event (trace_of (run rpc_failing_node (GetStatus "1.0" example_service) tt)))
  = Some (Shutdown (factoryClient 0)) /\
  option_map ev_op
    (last_event (trace_of (run rpc_failing_node (GetHealth example_service) tt)))
  = Some (Shutdown (factoryClient 0)).
Proof.
  destruct (client_shut_down_last rpc_failing_node tt "1.0" example_service)
    as [(_ & _ & Hstatus) (_ & _ & Hhealth)].
  split; [apply Hstatus | apply Hhealth]; reflexivity.
Defined.

Lemma GetNetwork_never_shuts_down_witness :
  clients (trace_of (run healthy_node (GetNetwork example_service) tt))
    = [factoryClient 0] /\
  shutdowns (trace_of (run healthy_node (GetNetwork example_service) tt)) = [].
Proof.
  destruct (GetNetwork_never_shuts_down healthy_node tt example_service)
    as (Hnone & _ & Hclient).
  split; [apply Hclient; reflexivity | exact Hnone].
Defined.

Lemma runTheNumbers_advisory_witness :
  result_of (run audit_failing_node runTheNumbers tt) = Some (NodeError "timeout") /\
  result_of (run healthy_node runTheNumbers tt) = None.
Proof.
  destruct (runTheNumbers_advisory audit_failing_node tt) as (_ & Hbad & _).
  destruct (runTheNumbers_advisory healthy_node tt) as (Hgood & _ & _).
  split.
  - apply (Hbad (GetTxOutSetInfo mainClient) (NodeError "timeout")).
    left. reflexivity.
  - apply Hgood. reflexivity.
Defined.


Lemma GetBlock_copies_transactions_witness :
  fst (fst (Ext.xrun fee_node (Ext.GetBlock Z (fun t => t) "00ab") 0%nat)) =
    Some (Ok {| Ext.Hash := "00ab"; Ext.BlockHeight := 700000;
                Ext.Time := 1700000000;
                Ext.Transactions := Some ["tx-a"; "tx-b"; "tx-c"] |}).
Proof.
  exact (proj2 (@GetBlock_copies_transactions Z Z (fun t => t) nat fee_node 0%nat "00ab")).
Defined.
